(** * Recovery-map metadata utilities (libs/jpegrecoverymap/recoverymaputils.cpp)

    A shallow embedding of the EXIF patcher ([updateExif], [updateExifOffsets],
    [readValue], [findFormatLengthInBytes]) and of the XMP decoder
    ([XMPXmlHandler], [getMetadataFromXMP]) and encoder ([generateXmp]),
    with the configuration methods of [RuntimeSensor]
    (services/sensorservice/SensorInterface.cpp), followed by the properties
    established about them. *)

From Stdlib Require Import ZArith Lia List Ascii String DecimalString.
From stdpp Require Import base tactics option list strings.

Local Open Scope Z_scope.

(** ** Machine-level conventions *)

(** A byte region: the memory a [uint8_t*] points to.  The list length is the
    size of the allocation. *)
Abbreviation bytes := (list Z).

(** Result of running code that touches raw memory.  [Fault] stands for an
    access outside the region (undefined behaviour in C++); [OutOfFuel] for a
    recursion that was cut off by the fuel of the model. *)
Inductive outcome (A : Type) : Type :=
| Ret (a : A)
| Fault
| OutOfFuel.
Arguments Ret {A} a.
Arguments Fault {A}.
Arguments OutOfFuel {A}.

#[global] Instance outcome_ret : MRet outcome := fun A a => Ret a.
#[global] Instance outcome_bind : MBind outcome := fun A B f m =>
  match m with
  | Ret a => f a
  | Fault => Fault
  | OutOfFuel => OutOfFuel
  end.

(** Two's-complement wrap-around of a C++ [int] (32 bits). *)
Definition int32 (z : Z) : Z := (z + 2 ^ 31) mod 2 ^ 32 - 2 ^ 31.

(** [data[pos]] for a [uint8_t*]: the load yields a value in [0, 255]. *)
Definition loadByte (data : bytes) (pos : Z) : outcome Z :=
  if decide (0 ≤ pos) then
    match data !! Z.to_nat pos with
    | Some b => Ret (b mod 256)
    | None => Fault
    end
  else Fault.

(** [data[pos] = v] for a [uint8_t*]. *)
Definition storeByte (data : bytes) (pos : Z) (v : Z) : outcome bytes :=
  if decide (0 ≤ pos < Z.of_nat (length data)) then
    Ret (<[Z.to_nat pos := v]> data)
  else Fault.

(** [memcpy(dest + pos, source, n)]. *)
Definition memcpy (dest : bytes) (pos : Z) (source : bytes) (n : Z) : outcome bytes :=
  if decide (0 ≤ n ≤ Z.of_nat (length source) ∧ 0 ≤ pos ∧ pos + n ≤ Z.of_nat (length dest)) then
    Ret (take (Z.to_nat pos) dest ++ take (Z.to_nat n) source
           ++ drop (Z.to_nat (pos + n)) dest)
  else Fault.

(** ** Status codes and constants *)

Inductive status_t : Type :=
| NO_ERROR
| ERROR_JPEGR_BUFFER_TOO_SMALL
| ERROR_JPEGR_METADATA_ERROR.

#[global] Instance status_t_eq_dec : EqDecision status_t.
Proof. solve_decision. Defined.

(** Modelled from the spec: the two macros of recoverymaputils.h, which is
    not among the sources (spec 4.3.2). *)
Definition PSEUDO_EXIF_PACKAGE_LENGTH : Z := 28.
Definition EXIF_J_R_ENTRY_LENGTH : Z := 12.

(** [jpegr_exif_struct]: a pointer to the payload and its length in bytes.
    The fields live in a module of their own so that [length] keeps denoting
    the list function elsewhere. *)
Module jpegr_exif.
Record struct : Type := Build { data : option bytes; length : Z }.
End jpegr_exif.

(** [jr_exif_ptr]: a possibly null pointer to a [jpegr_exif_struct]. *)
Definition jr_exif_ptr := option jpegr_exif.struct.

(** [jpegr_compressed_struct], the destination of the bounded [Write]. *)
Module jpegr_compressed.
Record struct : Type := Build { data : bytes; length : Z; maxLength : Z }.
End jpegr_compressed.

(** ** Write helpers (lines 48-62) *)

(** The conversion of an integer to [size_t], which has 64 bits on the
    targets of the library: a negative [int] becomes a large unsigned
    number. *)
Definition size_t (z : Z) : Z := z mod 2 ^ 64.

(** [Write(jr_compressed_ptr, ...)]: refuses a write past [maxLength].
    [length] is a [size_t], [position] and [maxLength] are [int]s: the sum
    and the comparison of line 49 are made in [size_t], and the sum of line
    54 is converted back to the [int] [position]. *)
Definition Write_compressed (destination : jpegr_compressed.struct) (source : bytes)
    (length position : Z) : outcome (status_t * jpegr_compressed.struct * Z) :=
  if decide (size_t (size_t position + size_t length)
             > size_t (jpegr_compressed.maxLength destination)) then
    Ret (ERROR_JPEGR_BUFFER_TOO_SMALL, destination, position)
  else
    d ← memcpy (jpegr_compressed.data destination) position source length;
    Ret (NO_ERROR,
         jpegr_compressed.Build d (jpegr_compressed.length destination)
           (jpegr_compressed.maxLength destination),
         int32 (size_t (size_t position + size_t length))).

(** [Write(jr_exif_ptr, ...)]: copies unconditionally and reports [NO_ERROR].
    [destination] is the region [destination->data] points to. *)
Definition Write (destination : bytes) (source : bytes) (length position : Z)
    : outcome (status_t * bytes * Z) :=
  d ← memcpy destination position source length;
  Ret (NO_ERROR, d, position + length).

(** ** readValue and findFormatLengthInBytes (lines 475-526) *)

Definition readValue (data : bytes) (pos length : Z) (use_big_endian : bool) : outcome Z :=
  if decide (length = 2) then
    b0 ← loadByte data pos;
    b1 ← loadByte data (pos + 1);
    Ret (if use_big_endian then Z.lor (Z.shiftl b0 8) b1
         else Z.lor (Z.shiftl b1 8) b0)
  else if decide (length = 4) then
    b0 ← loadByte data pos;
    b1 ← loadByte data (pos + 1);
    b2 ← loadByte data (pos + 2);
    b3 ← loadByte data (pos + 3);
    Ret (int32
      (if use_big_endian then
         Z.lor (Z.lor (Z.lor (Z.shiftl b0 24) (Z.shiftl b1 16)) (Z.shiftl b2 8)) b3
       else
         Z.lor (Z.lor (Z.lor (Z.shiftl b3 24) (Z.shiftl b2 16)) (Z.shiftl b1 8)) b0))
  else Ret (-1).

Definition findFormatLengthInBytes (data_format : Z) : Z :=
  if decide (data_format = 1 ∨ data_format = 2 ∨ data_format = 6 ∨ data_format = 7) then 1
  else if decide (data_format = 3 ∨ data_format = 8) then 2
  else if decide (data_format = 4 ∨ data_format = 9 ∨ data_format = 11) then 4
  else if decide (data_format = 5 ∨ data_format = 10 ∨ data_format = 12) then 8
  else -1.

(** ** updateExifOffsets (lines 423-470) *)

(** Lines 454-468: add the entry length to the 4-byte value field at
    [pos + 8] and store it back byte by byte. *)
Definition bumpOffset (exif : bytes) (pos : Z) (use_big_endian : bool) : outcome bytes :=
  offset ← readValue exif (pos + 8) 4 use_big_endian;
  let offset := int32 (offset + EXIF_J_R_ENTRY_LENGTH) in
  if use_big_endian then
    e ← storeByte exif (pos + 11) (Z.land offset 255);
    e ← storeByte e (pos + 10) (Z.land (Z.shiftr offset 8) 255);
    e ← storeByte e (pos + 9) (Z.land (Z.shiftr offset 16) 255);
    storeByte e (pos + 8) (Z.land (Z.shiftr offset 24) 255)
  else
    e ← storeByte exif (pos + 8) (Z.land offset 255);
    e ← storeByte e (pos + 9) (Z.land (Z.shiftr offset 8) 255);
    e ← storeByte e (pos + 10) (Z.land (Z.shiftr offset 16) 255);
    storeByte e (pos + 11) (Z.land (Z.shiftr offset 24) 255).

(** One iteration of the loop of lines 429-469.  [subIfd exif pos] is the
    three-argument overload, entered for the Exif SubIFD pointer. *)
Definition updateEntry (subIfd : bytes → Z → outcome bytes)
    (exif : bytes) (pos : Z) (use_big_endian : bool) : outcome bytes :=
  tag ← readValue exif pos 2 use_big_endian;
  if decide (tag = 0x8769) then
    stored ← readValue exif (pos + 8) 4 use_big_endian;
    let sub_ifd_offset := int32 (int32 (stored + 6) + EXIF_J_R_ENTRY_LENGTH) in
    exif ← subIfd exif sub_ifd_offset;
    bumpOffset exif pos use_big_endian
  else
    data_format ← readValue exif (pos + 2) 2 use_big_endian;
    num_of_components ← readValue exif (pos + 4) 4 use_big_endian;
    let data_length := int32 (findFormatLengthInBytes data_format * num_of_components) in
    if decide (data_length > 4) then bumpOffset exif pos use_big_endian
    else Ret exif.

(** The [for] loop: [n] iterations, [pos] advancing by one entry each time. *)
Fixpoint updateEntries (subIfd : bytes → Z → outcome bytes) (n : nat)
    (exif : bytes) (pos : Z) (use_big_endian : bool) : outcome bytes :=
  match n with
  | O => Ret exif
  | S n' =>
      exif ← updateEntry subIfd exif pos use_big_endian;
      updateEntries subIfd n' exif (pos + EXIF_J_R_ENTRY_LENGTH) use_big_endian
  end.

(** The four-argument overload.  The C++ recursion through SubIFD pointers
    need not terminate (a SubIFD may point to itself), so the nesting depth
    is bounded by [fuel]. *)
Fixpoint updateExifOffsets (fuel : nat) (exif : bytes) (pos num_entry : Z)
    (use_big_endian : bool) : outcome bytes :=
  match fuel with
  | O => OutOfFuel
  | S fuel' =>
      updateEntries
        (fun exif pos =>
           num_entry ← readValue exif pos 2 use_big_endian;
           updateExifOffsets fuel' exif (pos + 2) num_entry use_big_endian)
        (Z.to_nat num_entry) exif pos use_big_endian
  end.

(** The three-argument overload (lines 423-426). *)
Definition updateExifOffsetsAt (fuel : nat) (exif : bytes) (pos : Z)
    (use_big_endian : bool) : outcome bytes :=
  num_entry ← readValue exif pos 2 use_big_endian;
  updateExifOffsets fuel exif (pos + 2) num_entry use_big_endian.

(** ** updateExif (lines 351-417) *)

Definition pseudoExif : bytes :=
  [0x45; 0x78; 0x69; 0x66; 0x00; 0x00;
   0x49; 0x49; 0x2A; 0x00;
   0x08; 0x00; 0x00; 0x00;
   0x01; 0x00;
   0x4A; 0x52;
   0x07; 0x00;
   0x01; 0x00; 0x00; 0x00;
   0x00; 0x00; 0x00; 0x00].

Definition jrEntry (use_big_endian : bool) : bytes :=
  if use_big_endian then
    [0x4A; 0x52; 0x00; 0x07; 0x00; 0x00; 0x00; 0x01; 0x00; 0x00; 0x00; 0x00]
  else
    [0x4A; 0x52; 0x07; 0x00; 0x01; 0x00; 0x00; 0x00; 0x00; 0x00; 0x00; 0x00].

(** [reinterpret_cast<uint16_t*>(data)[i]] on the little-endian targets the
    library is built for.  The two marks tested below, 0x4949 and 0x4d4d, read
    the same in either byte order. *)
Definition loadU16 (data : bytes) (i : Z) : outcome Z :=
  lo ← loadByte data (2 * i);
  hi ← loadByte data (2 * i + 1);
  Ret (Z.lor (Z.shiftl hi 8) lo).

(** The part of [updateExif] after the byte-order test: lines 381-416. *)
Definition updateExifBody (fuel : nat) (d : bytes) (len : Z) (dest : bytes)
    (use_big_endian : bool) (num_entry_low num_entry_high : Z) : outcome (status_t * bytes) :=
  let num_entry := Z.lor (Z.shiftl num_entry_high 8) num_entry_low in
  let num_entry := num_entry + 1 in
  let num_entry_low := Z.land num_entry 255 in
  let num_entry_high := Z.land (Z.shiftr num_entry 8) 255 in
  let pos := 0 in
  '(_, dest, pos) ← Write dest d 14 pos;
  '(_, dest, pos) ←
    (if use_big_endian then
       '(_, dest, pos) ← Write dest [num_entry_high] 1 pos;
       '(_, dest, pos) ← Write dest [num_entry_low] 1 pos;
       Write dest (jrEntry true) EXIF_J_R_ENTRY_LENGTH pos
     else
       '(_, dest, pos) ← Write dest [num_entry_low] 1 pos;
       '(_, dest, pos) ← Write dest [num_entry_high] 1 pos;
       Write dest (jrEntry false) EXIF_J_R_ENTRY_LENGTH pos);
  '(_, dest, pos) ← Write dest (drop 16 d) (len - 16) pos;
  dest ← updateExifOffsets fuel dest 28 (num_entry - 1) use_big_endian;
  Ret (NO_ERROR, dest).

(** [updateExif(exif, dest)].  [dest] is the region [dest->data] points to;
    the function never consults [dest->length]. *)
Definition updateExif (fuel : nat) (exif : jr_exif_ptr) (dest : bytes)
    : outcome (status_t * bytes) :=
  match exif ≫= jpegr_exif.data with
  | None =>
      '(_, dest, _) ← Write dest pseudoExif PSEUDO_EXIF_PACKAGE_LENGTH 0;
      Ret (NO_ERROR, dest)
  | Some d =>
      let len := from_option jpegr_exif.length 0 exif in
      mark ← loadU16 d 3;
      if decide (mark = 0x4949) then
        num_entry_low ← loadByte d 14;
        num_entry_high ← loadByte d 15;
        updateExifBody fuel d len dest false num_entry_low num_entry_high
      else if decide (mark = 0x4d4d) then
        num_entry_high ← loadByte d 14;
        num_entry_low ← loadByte d 15;
        updateExifBody fuel d len dest true num_entry_low num_entry_high
      else Ret (ERROR_JPEGR_METADATA_ERROR, dest)
  end.

(** ** XMP: the element handler (lines 64-169) *)

Local Open Scope string_scope.

(** Line 39: [Name(prefix, suffix)] is ["prefix:suffix"]. *)
Definition Name (prefix suffix : string) : string :=
  String.append prefix (String.append ":" suffix).

Definition kContainerUri : string := "http://ns.google.com/photos/1.0/container/".
Definition kContainerPrefix : string := "GContainer".
Definition kConDirectory : string := Name kContainerPrefix "Directory".
Definition kConItem : string := Name kContainerPrefix "Item".
Definition kConItemLength : string := Name kContainerPrefix "ItemLength".
Definition kConItemMime : string := Name kContainerPrefix "ItemMime".
Definition kConItemSemantic : string := Name kContainerPrefix "ItemSemantic".
Definition kConVersion : string := Name kContainerPrefix "Version".
Definition kSemanticPrimary : string := "Primary".
Definition kSemanticRecoveryMap : string := "RecoveryMap".
Definition kMimeImageJpeg : string := "image/jpeg".
Definition kGContainerVersion : Z := 1.

Definition kRecoveryMapUri : string := "http://ns.google.com/photos/1.0/recoverymap/".
Definition kRecoveryMapPrefix : string := "RecoveryMap".
Definition kMapRangeScalingFactor : string := Name kRecoveryMapPrefix "RangeScalingFactor".
Definition kMapTransferFunction : string := Name kRecoveryMapPrefix "TransferFunction".
Definition kMapVersion : string := Name kRecoveryMapPrefix "Version".
Definition kMapHdr10Metadata : string := Name kRecoveryMapPrefix "HDR10Metadata".
Definition kMapHdr10MaxFall : string := Name kRecoveryMapPrefix "HDR10MaxFALL".
Definition kMapHdr10MaxCll : string := Name kRecoveryMapPrefix "HDR10MaxCLL".
Definition kMapSt2086Metadata : string := Name kRecoveryMapPrefix "ST2086Metadata".
Definition kMapSt2086MaxLum : string := Name kRecoveryMapPrefix "ST2086MaxLuminance".
Definition kMapSt2086MinLum : string := Name kRecoveryMapPrefix "ST2086MinLuminance".
Definition kMapSt2086Primary : string := Name kRecoveryMapPrefix "ST2086Primary".
Definition kMapSt2086Coordinate : string := Name kRecoveryMapPrefix "ST2086Coordinate".
Definition kMapSt2086CoordinateX : string := Name kRecoveryMapPrefix "ST2086CoordinateX".
Definition kMapSt2086CoordinateY : string := Name kRecoveryMapPrefix "ST2086CoordinateY".
Definition kSt2086PrimaryRed : Z := 0.
Definition kSt2086PrimaryGreen : Z := 1.
Definition kSt2086PrimaryBlue : Z := 2.
Definition kSt2086PrimaryWhite : Z := 3.

Definition gContainerItemName : string := kConItem.
Definition rangeScalingFactorAttrName : string := kMapRangeScalingFactor.
Definition transferFunctionAttrName : string := kMapTransferFunction.

(** The spelling of the first state is the source's. *)
Inductive ParseState : Type := NotStrarted | Started | Done.

#[global] Instance ParseState_eq_dec : EqDecision ParseState.
Proof. solve_decision. Defined.

Record XMPXmlHandler : Type := mkHandler {
  rangeScalingFactorStr : string;
  transferFunctionStr : string;
  lastAttributeName : string;
  gContainerItemState : ParseState
}.

(** The constructor: strings start empty, the state is [NotStrarted]. *)
Definition newXMPXmlHandler : XMPXmlHandler := mkHandler "" "" "" NotStrarted.

Definition setState (h : XMPXmlHandler) (s : ParseState) : XMPXmlHandler :=
  mkHandler (rangeScalingFactorStr h) (transferFunctionStr h) (lastAttributeName h) s.

Definition setLastAttributeName (h : XMPXmlHandler) (n : string) : XMPXmlHandler :=
  mkHandler (rangeScalingFactorStr h) (transferFunctionStr h) n (gContainerItemState h).

(** A token context: [Some val] when [BuildTokenValue] succeeds and yields
    [val], [None] when it fails. *)
Definition XmlTokenContext := option string.

Definition StartElement (h : XMPXmlHandler) (context : XmlTokenContext) : XMPXmlHandler :=
  match context with
  | Some val =>
      if decide (val = gContainerItemName) then setState h Started
      else if decide (gContainerItemState h ≠ Done) then setState h NotStrarted
      else h
  | None => h
  end.

Definition FinishElement (h : XMPXmlHandler) : XMPXmlHandler :=
  if decide (gContainerItemState h = Started) then
    setLastAttributeName (setState h Done) ""
  else h.

Definition AttributeName (h : XMPXmlHandler) (context : XmlTokenContext) : XMPXmlHandler :=
  if decide (gContainerItemState h = Started) then
    match context with
    | Some val =>
        if decide (val = rangeScalingFactorAttrName) then
          setLastAttributeName h rangeScalingFactorAttrName
        else if decide (val = transferFunctionAttrName) then
          setLastAttributeName h transferFunctionAttrName
        else setLastAttributeName h ""
    | None => h
    end
  else h.

Definition AttributeValue (h : XMPXmlHandler) (context : XmlTokenContext) : XMPXmlHandler :=
  if decide (gContainerItemState h = Started) then
    match context with
    | Some val =>
        if decide (lastAttributeName h = rangeScalingFactorAttrName) then
          mkHandler val (transferFunctionStr h) (lastAttributeName h) (gContainerItemState h)
        else if decide (lastAttributeName h = transferFunctionAttrName) then
          mkHandler (rangeScalingFactorStr h) val (lastAttributeName h) (gContainerItemState h)
        else h
    | None => h
    end
  else h.

(** The callbacks an [XmlReader] makes on its [XmlHandler]. *)
Inductive XmlEvent : Type :=
| OnStartElement (context : XmlTokenContext)
| OnFinishElement
| OnAttributeName (context : XmlTokenContext)
| OnAttributeValue (context : XmlTokenContext).

#[global] Instance XmlEvent_eq_dec : EqDecision XmlEvent.
Proof. solve_decision. Defined.

Definition dispatch (h : XMPXmlHandler) (e : XmlEvent) : XMPXmlHandler :=
  match e with
  | OnStartElement c => StartElement h c
  | OnFinishElement => FinishElement h
  | OnAttributeName c => AttributeName h c
  | OnAttributeValue c => AttributeValue h c
  end.

(** ** The C++ stream extraction of an [int] ([ss >> val], line 149)

    Leading white space is skipped, an optional sign and a non-empty run of
    decimal digits are read, and the extraction fails when there is no digit
    or the value does not fit an [int]. *)

Definition isspace (c : ascii) : bool :=
  let n := nat_of_ascii c in
  Nat.eqb n 32 || (Nat.leb 9 n && Nat.leb n 13).

Definition isdigit (c : ascii) : bool :=
  let n := nat_of_ascii c in
  Nat.leb 48 n && Nat.leb n 57.

Fixpoint skipws (s : string) : string :=
  match s with
  | String c s' => if isspace c then skipws s' else s
  | EmptyString => s
  end.

Fixpoint readDigits (s : string) (acc : option Z) : option Z :=
  match s with
  | String c s' =>
      if isdigit c then
        readDigits s' (Some (10 * default 0%Z acc + (Z.of_nat (nat_of_ascii c) - 48))%Z)
      else acc
  | EmptyString => acc
  end.

Definition readSigned (s : string) : option Z :=
  match skipws s with
  | String "-" s' => Z.opp <$> readDigits s' None
  | String "+" s' => readDigits s' None
  | s' => readDigits s' None
  end.

Definition extractInt (s : string) : option Z :=
  v ← readSigned s;
  if decide (- 2 ^ 31 ≤ v ≤ 2 ^ 31 - 1)%Z then Some v else None.

(** ** Library interfaces

    The image_io XML reader and writer and the stream formatting of [float]
    values belong to other libraries.  The development is parametric in them:
    a reader is the sequence of handler callbacks it makes on a document
    together with its error flag; a writer is a state with the operations
    [generateXmp] calls and the text it has produced. *)

Class CxxFloat (float : Type) : Type := {
  (** [ss >> val] for a [float]: [None] when the extraction fails. *)
  extractFloat : string → option float
}.

Class XmlReader : Type := {
  (** [StartParse; Parse(str); FinishParse]: the callbacks in order, and
      [HasErrors()]. *)
  Parse : string → list XmlEvent * bool
}.

(** The value types [generateXmp] passes to the templated writer calls. *)
Inductive XmlValue (float : Type) : Type :=
| ValString (s : string)
| ValInt (n : Z)
| ValFloat (f : float).
Arguments ValString {float} s.
Arguments ValInt {float} n.
Arguments ValFloat {float} f.

Class XmlWriter (float : Type) : Type := {
  writer : Type;
  (** [XmlWriter writer(ss)] over an empty stream. *)
  newWriter : writer;
  StartWritingElement : string → writer → writer;
  WriteXmlns : string → string → writer → writer;
  WriteAttributeNameAndValue : string → XmlValue float → writer → writer;
  WriteElementAndContent : string → XmlValue float → writer → writer;
  (** Returns the depth to hand to [FinishWritingElementsToDepth]. *)
  StartWritingElements : list string → writer → nat * writer;
  FinishWritingElement : writer → writer;
  FinishWritingElementsToDepth : nat → writer → writer;
  FinishWriting : writer → writer;
  (** [ss.str()] *)
  str : writer → string
}.

(** ** Metadata *)

(** Modelled from the spec: the enum [jpegr_transfer_function] of
    recoverymap.h, which is not among the sources; the values are those of
    spec section 3.  A C++ enum object holds an integer, so the type is [Z]
    and the enumerators are constants. *)
Definition jpegr_transfer_function := Z.
Definition JPEGR_TF_UNSPECIFIED : jpegr_transfer_function := 0.
Definition JPEGR_TF_LINEAR : jpegr_transfer_function := 1.
Definition JPEGR_TF_HLG : jpegr_transfer_function := 2.
Definition JPEGR_TF_PQ : jpegr_transfer_function := 3.
Definition JPEGR_TF_SRGB : jpegr_transfer_function := 4.

Definition is_enumerator (t : jpegr_transfer_function) : Prop :=
  t = JPEGR_TF_UNSPECIFIED ∨ t = JPEGR_TF_LINEAR ∨ t = JPEGR_TF_HLG
  ∨ t = JPEGR_TF_PQ ∨ t = JPEGR_TF_SRGB.

#[global] Instance is_enumerator_dec t : Decision (is_enumerator t).
Proof. unfold is_enumerator. apply _. Defined.

(** [static_cast<jpegr_transfer_function>(val)]: the integer is kept. *)
Definition static_cast_transfer_function (val : Z) : jpegr_transfer_function := val.

(** Modelled from the spec: the metadata structs of recoverymap.h, with the
    fields [generateXmp] reads (spec section 3 gives their kinds). *)
Module chromaticity_coord.
Record struct (float : Type) : Type := Build { x : float; y : float }.
Arguments Build {float} x y.
Arguments x {float} s.
Arguments y {float} s.
End chromaticity_coord.

Record st2086_metadata (float : Type) : Type := mkSt2086 {
  redPrimary : chromaticity_coord.struct float;
  greenPrimary : chromaticity_coord.struct float;
  bluePrimary : chromaticity_coord.struct float;
  whitePoint : chromaticity_coord.struct float;
  maxLuminance : float;
  minLuminance : float
}.
Arguments mkSt2086 {float} _ _ _ _ _ _.
Arguments redPrimary {float} s.
Arguments greenPrimary {float} s.
Arguments bluePrimary {float} s.
Arguments whitePoint {float} s.
Arguments maxLuminance {float} s.
Arguments minLuminance {float} s.

Record hdr10_metadata (float : Type) : Type := mkHdr10 {
  st2086Metadata : st2086_metadata float;
  maxFALL : Z;
  maxCLL : Z
}.
Arguments mkHdr10 {float} _ _ _.
Arguments st2086Metadata {float} h.
Arguments maxFALL {float} h.
Arguments maxCLL {float} h.

Record jpegr_metadata (float : Type) : Type := mkMetadata {
  version : Z;
  rangeScalingFactor : float;
  transferFunction : jpegr_transfer_function;
  hdr10Metadata : hdr10_metadata float
}.
Arguments mkMetadata {float} _ _ _ _.
Arguments version {float} j.
Arguments rangeScalingFactor {float} j.
Arguments transferFunction {float} j.
Arguments hdr10Metadata {float} j.

Definition set_rangeScalingFactor {float : Type} (m : jpegr_metadata float) (v : float)
    : jpegr_metadata float :=
  mkMetadata (version m) v (transferFunction m) (hdr10Metadata m).

Definition set_transferFunction {float : Type} (m : jpegr_metadata float)
    (v : jpegr_transfer_function) : jpegr_metadata float :=
  mkMetadata (version m) (rangeScalingFactor m) v (hdr10Metadata m).

(** ** getMetadataFromXMP (lines 130-159 and 224-267) *)

(** [getRangeScalingFactor]: [Some val] when it returns [true] after storing
    [val] through the pointer, [None] when it returns [false]. *)
Definition getRangeScalingFactor `{CxxFloat float} (h : XMPXmlHandler) : option float :=
  if decide (gContainerItemState h = Done) then extractFloat (rangeScalingFactorStr h)
  else None.

Definition getTransferFunction (h : XMPXmlHandler) : option jpegr_transfer_function :=
  if decide (gContainerItemState h = Done) then
    static_cast_transfer_function <$> extractInt (transferFunctionStr h)
  else None.

Definition NUL : ascii := ascii_of_nat 0.

(** The 28 characters of the Adobe XMP namespace URI. *)
Definition adobeNamespace : list ascii :=
  list_ascii_of_string "http://ns.adobe.com/xap/1.0/".

(** The characters of the literal of line 225, with the NUL written in it
    and the terminator the compiler adds. *)
Definition nameSpaceLiteral : list ascii :=
  list_ascii_of_string "http://ns.adobe.com/xap/1.0/" ++ [NUL; NUL].

(** A [std::string] built from a C string: the characters before the first
    NUL. *)
Fixpoint string_of_cstr (s : list ascii) : list ascii :=
  match s with
  | [] => []
  | c :: s' => if decide (c = NUL) then [] else c :: string_of_cstr s'
  end.

(** [s.c_str()] *)
Definition c_str (s : list ascii) : list ascii := s ++ [NUL].

(** [strncmp(s1, s2, n)]: the difference of the first pair of characters
    that differ among the first [n], 0 when there is none before [n]
    characters or a common NUL.  Past the end of a list a NUL is read. *)
Fixpoint strncmp (s1 s2 : list ascii) (n : nat) : Z :=
  match n with
  | O => 0
  | S n' =>
      let c1 := hd NUL s1 in
      let c2 := hd NUL s2 in
      if decide (c1 ≠ c2) then (Z.of_nat (nat_of_ascii c1) - Z.of_nat (nat_of_ascii c2))%Z
      else if decide (c1 = NUL) then 0
      else strncmp (tl s1) (tl s2) n'
  end%Z.

(** Lines 243-245: drop tail bytes until the last one is ['>'] or one byte is
    left.  [None] when [xmp_data[xmp_size - 1]] lies outside the buffer. *)
Fixpoint trimTail (xmp_data : list ascii) (xmp_size : nat) : option nat :=
  match xmp_size with
  | O => None
  | S n =>
      match xmp_data !! n with
      | None => None
      | Some c =>
          if bool_decide (c ≠ ">"%char) && bool_decide (1 < xmp_size)%nat
          then trimTail xmp_data n
          else Some xmp_size
      end
  end.

(** The function returns a [bool]; each [return false] is recorded with the
    kind of failure it stands for ("Data too short", "Not correct namespace",
    and the parse and conversion failures after them). *)
Inductive xmp_status : Type :=
| XMP_OK
| SHORT_INPUT
| NOT_XMP_NAMESPACE
| XMP_MALFORMED.

#[global] Instance xmp_status_eq_dec : EqDecision xmp_status.
Proof. solve_decision. Defined.

Definition returned (s : xmp_status) : bool := bool_decide (s = XMP_OK).

Section Codec.
Context {float : Type} `{!CxxFloat float} `{!XmlReader} `{!XmlWriter float}.

(** Lines 237-247: step over the namespace and its NUL, trim the tail, and
    build [str] from what is left.  [xmp_size] is the length of the payload. *)
Definition xmlPortion (xmp_data : list ascii) : option string :=
  let nameSpace := string_of_cstr nameSpaceLiteral in
  let xmp_size := length xmp_data in
  let xmp_data := drop (length nameSpace + 1) xmp_data in
  let xmp_size := (xmp_size - (length nameSpace + 1))%nat in
  xmp_size ← trimTail xmp_data xmp_size;
  Some (string_of_list_ascii (take xmp_size xmp_data)).

(** Lines 248-253: the handler after the reader has made its callbacks, and
    [reader.HasErrors()]. *)
Definition runReader (str : string) : XMPXmlHandler * bool :=
  let '(events, has_errors) := Parse str in
  (fold_left dispatch events newXMPXmlHandler, has_errors).

(** [xmp_data] is the payload, [metadata] the record behind the output
    pointer, returned as the call leaves it. *)
Definition getMetadataFromXMP (xmp_data : list ascii) (metadata : jpegr_metadata float)
    : outcome (xmp_status * jpegr_metadata float) :=
  let xmp_size := length xmp_data in
  let nameSpace := string_of_cstr nameSpaceLiteral in
  if decide (xmp_size < length nameSpace + 2)%nat then Ret (SHORT_INPUT, metadata)
  else if decide (strncmp xmp_data (c_str nameSpace) (length nameSpace) ≠ 0%Z) then
    Ret (NOT_XMP_NAMESPACE, metadata)
  else
    match xmlPortion xmp_data with
    | None => Fault
    | Some str =>
        let '(handler, has_errors) := runReader str in
        if has_errors then Ret (XMP_MALFORMED, metadata)
        else
          match getRangeScalingFactor handler with
          | None => Ret (XMP_MALFORMED, metadata)
          | Some v =>
              let metadata := set_rangeScalingFactor metadata v in
              match getTransferFunction handler with
              | None => Ret (XMP_MALFORMED, metadata)
              | Some t => Ret (XMP_OK, set_transferFunction metadata t)
              end
          end
    end.

(** The decoder past the two guards: lines 237-266 in one piece, with the
    record as each [return] leaves it. *)
Definition decodeBody (xmp_data : list ascii) (metadata : jpegr_metadata float)
    : outcome (xmp_status * jpegr_metadata float) :=
  match xmlPortion xmp_data with
  | None => Fault
  | Some str =>
      let '(handler, has_errors) := runReader str in
      if has_errors then Ret (XMP_MALFORMED, metadata)
      else
        match getRangeScalingFactor handler with
        | None => Ret (XMP_MALFORMED, metadata)
        | Some v =>
            match getTransferFunction handler with
            | None => Ret (XMP_MALFORMED, set_rangeScalingFactor metadata v)
            | Some t =>
                Ret (XMP_OK, set_transferFunction (set_rangeScalingFactor metadata v) t)
            end
        end
  end.

(** ** generateXmp (lines 269-345) *)

Definition writeCoordinate (primary : Z) (c : chromaticity_coord.struct float) (w : writer)
    : writer :=
  let w := StartWritingElement kMapSt2086Coordinate w in
  let w := WriteAttributeNameAndValue kMapSt2086Primary (ValInt primary) w in
  let w := WriteAttributeNameAndValue kMapSt2086CoordinateX
             (ValFloat (chromaticity_coord.x c)) w in
  let w := WriteAttributeNameAndValue kMapSt2086CoordinateY
             (ValFloat (chromaticity_coord.y c)) w in
  FinishWritingElement w.

Definition generateXmp (secondary_image_length : Z) (metadata : jpegr_metadata float)
    : string :=
  let kConDirSeq := [kConDirectory; "rdf:Seq"] in
  let kLiItem := ["rdf:li"; kConItem] in
  let w := newWriter in
  let w := StartWritingElement "x:xmpmeta" w in
  let w := WriteXmlns "x" "adobe:ns:meta/" w in
  let w := WriteAttributeNameAndValue "x:xmptk" (ValString "Adobe XMP Core 5.1.2") w in
  let w := StartWritingElement "rdf:RDF" w in
  let w := WriteXmlns "rdf" "http://www.w3.org/1999/02/22-rdf-syntax-ns#" w in
  let w := StartWritingElement "rdf:Description" w in
  let w := WriteXmlns kContainerPrefix kContainerUri w in
  let w := WriteXmlns kRecoveryMapPrefix kRecoveryMapUri w in
  let w := WriteElementAndContent kConVersion (ValInt kGContainerVersion) w in
  let w := (StartWritingElements kConDirSeq w).2 in
  let '(item_depth, w) := StartWritingElements kLiItem w in
  let w := WriteAttributeNameAndValue kConItemSemantic (ValString kSemanticPrimary) w in
  let w := WriteAttributeNameAndValue kConItemMime (ValString kMimeImageJpeg) w in
  let w := WriteAttributeNameAndValue kMapVersion (ValInt (version metadata)) w in
  let w := WriteAttributeNameAndValue kMapRangeScalingFactor
             (ValFloat (rangeScalingFactor metadata)) w in
  let w := WriteAttributeNameAndValue kMapTransferFunction
             (ValInt (transferFunction metadata)) w in
  let w :=
    if decide (transferFunction metadata = JPEGR_TF_PQ) then
      let hdr := hdr10Metadata metadata in
      let st := st2086Metadata hdr in
      let w := StartWritingElement kMapHdr10Metadata w in
      let w := WriteAttributeNameAndValue kMapHdr10MaxFall (ValInt (maxFALL hdr)) w in
      let w := WriteAttributeNameAndValue kMapHdr10MaxCll (ValInt (maxCLL hdr)) w in
      let w := StartWritingElement kMapSt2086Metadata w in
      let w := WriteAttributeNameAndValue kMapSt2086MaxLum (ValFloat (maxLuminance st)) w in
      let w := WriteAttributeNameAndValue kMapSt2086MinLum (ValFloat (minLuminance st)) w in
      let w := writeCoordinate kSt2086PrimaryRed (redPrimary st) w in
      let w := writeCoordinate kSt2086PrimaryGreen (greenPrimary st) w in
      let w := writeCoordinate kSt2086PrimaryBlue (bluePrimary st) w in
      writeCoordinate kSt2086PrimaryWhite (whitePoint st) w
    else w in
  let w := FinishWritingElementsToDepth item_depth w in
  let w := (StartWritingElements kLiItem w).2 in
  let w := WriteAttributeNameAndValue kConItemSemantic (ValString kSemanticRecoveryMap) w in
  let w := WriteAttributeNameAndValue kConItemMime (ValString kMimeImageJpeg) w in
  let w := WriteAttributeNameAndValue kConItemLength (ValInt secondary_image_length) w in
  let w := FinishWriting w in
  str w.

End Codec.

(** ** Reference instances of the library interfaces

    Small stand-ins used to run the codec on concrete packets: a reader for
    the element and attribute subset of XML that [generateXmp] emits, a
    writer that produces that subset, and a [float] restricted to whole
    numbers written in decimal. *)

Definition wholeFloat : CxxFloat Z :=
  {| extractFloat := readSigned |}.

Inductive ReaderState : Type :=
| InText
| AfterLt
| InElementName (acc : string)
| InStartTag
| InAttributeName (acc : string)
| AfterEq
| InAttributeValue (acc : string)
| AfterSlash
| InEndTag
| Broken.

#[global] Instance ReaderState_eq_dec : EqDecision ReaderState.
Proof. solve_decision. Defined.

Definition snoc (acc : string) (c : ascii) : string :=
  String.append acc (String c EmptyString).

Definition quote : ascii := ascii_of_nat 34.

(** One character of input: the next state, the nesting depth, and the
    callbacks made on it. *)
Definition readerStep (st : ReaderState) (depth : nat) (c : ascii)
    : ReaderState * nat * list XmlEvent :=
  match st with
  | InText => if decide (c = "<"%char) then (AfterLt, depth, []) else (InText, depth, [])
  | AfterLt =>
      if decide (c = "/"%char) then (InEndTag, depth, [])
      else if isspace c || bool_decide (c = ">"%char) then (Broken, depth, [])
      else (InElementName (String c EmptyString), depth, [])
  | InElementName acc =>
      if isspace c then (InStartTag, depth, [OnStartElement (Some acc)])
      else if decide (c = ">"%char) then (InText, S depth, [OnStartElement (Some acc)])
      else if decide (c = "/"%char) then (AfterSlash, depth, [OnStartElement (Some acc)])
      else (InElementName (snoc acc c), depth, [])
  | InStartTag =>
      if isspace c then (InStartTag, depth, [])
      else if decide (c = ">"%char) then (InText, S depth, [])
      else if decide (c = "/"%char) then (AfterSlash, depth, [])
      else (InAttributeName (String c EmptyString), depth, [])
  | InAttributeName acc =>
      if decide (c = "="%char) then (AfterEq, depth, [OnAttributeName (Some acc)])
      else if isspace c then (Broken, depth, [])
      else (InAttributeName (snoc acc c), depth, [])
  | AfterEq =>
      if decide (c = quote) then (InAttributeValue EmptyString, depth, [])
      else (Broken, depth, [])
  | InAttributeValue acc =>
      if decide (c = quote) then (InStartTag, depth, [OnAttributeValue (Some acc)])
      else (InAttributeValue (snoc acc c), depth, [])
  | AfterSlash =>
      if decide (c = ">"%char) then (InText, depth, [OnFinishElement])
      else (Broken, depth, [])
  | InEndTag =>
      if decide (c = ">"%char) then
        match depth with
        | O => (Broken, depth, [])
        | S d => (InText, d, [OnFinishElement])
        end
      else (InEndTag, depth, [])
  | Broken => (Broken, depth, [])
  end.

Fixpoint readerRun (st : ReaderState) (depth : nat) (s : string)
    : ReaderState * nat * list XmlEvent :=
  match s with
  | EmptyString => (st, depth, [])
  | String c s' =>
      let '(st1, d1, ev1) := readerStep st depth c in
      let '(st2, d2, ev2) := readerRun st1 d1 s' in
      (st2, d2, (ev1 ++ ev2)%list)
  end.

Definition simpleReader : XmlReader :=
  {| Parse := fun s =>
       let '(st, depth, events) := readerRun InText O s in
       (events, negb (bool_decide (st = InText ∧ depth = O))) |}.

(** The writer: the text so far, the names of the open elements (innermost
    first), and whether the innermost start tag still accepts attributes. *)
Record SimpleWriter : Type := mkWriter {
  text : string;
  opened : list string;
  tagOpen : bool
}.

Definition newline : string := String (ascii_of_nat 10) EmptyString.
Definition quoteStr : string := String quote EmptyString.

Definition showZ (n : Z) : string := NilZero.string_of_int (Z.to_int n).

Definition showValue (v : XmlValue Z) : string :=
  match v with
  | ValString s => s
  | ValInt n => showZ n
  | ValFloat f => showZ f
  end.

Definition closeTag (w : SimpleWriter) : SimpleWriter :=
  if tagOpen w then mkWriter (String.append (text w) (String.append ">" newline)) (opened w) false
  else w.

Definition swStart (name : string) (w : SimpleWriter) : SimpleWriter :=
  let w := closeTag w in
  mkWriter (String.append (text w) (String.append "<" name)) (name :: opened w) true.

Definition swAttribute (name : string) (value : string) (w : SimpleWriter) : SimpleWriter :=
  mkWriter
    (String.append (text w)
       (String.append " " (String.append name
          (String.append "=" (String.append quoteStr (String.append value quoteStr))))))
    (opened w) (tagOpen w).

Definition swFinish (w : SimpleWriter) : SimpleWriter :=
  match opened w with
  | [] => w
  | name :: rest =>
      if tagOpen w then mkWriter (String.append (text w) (String.append "/>" newline)) rest false
      else
        mkWriter
          (String.append (text w)
             (String.append "</" (String.append name (String.append ">" newline))))
          rest false
  end.

Fixpoint swFinishToDepth (fuel depth : nat) (w : SimpleWriter) : SimpleWriter :=
  match fuel with
  | O => w
  | S fuel' =>
      if decide (depth < length (opened w))%nat then swFinishToDepth fuel' depth (swFinish w)
      else w
  end.

Definition swContent (name : string) (content : string) (w : SimpleWriter) : SimpleWriter :=
  let w := swStart name w in
  mkWriter
    (String.append (text w)
       (String.append ">" (String.append content
          (String.append "</" (String.append name (String.append ">" newline))))))
    (tl (opened w)) false.

Definition simpleWriter : XmlWriter Z :=
  {| writer := SimpleWriter;
     newWriter := mkWriter EmptyString [] false;
     StartWritingElement := swStart;
     WriteXmlns := fun prefix uri => swAttribute (String.append "xmlns:" prefix) uri;
     WriteAttributeNameAndValue := fun name v => swAttribute name (showValue v);
     WriteElementAndContent := fun name v => swContent name (showValue v);
     StartWritingElements := fun names w =>
       (length (opened w), fold_left (fun w name => swStart name w) names w);
     FinishWritingElement := swFinish;
     FinishWritingElementsToDepth := fun depth w =>
       swFinishToDepth (length (opened w)) depth w;
     FinishWriting := fun w => swFinishToDepth (length (opened w)) O w;
     str := text |}.

(** ** Sample inputs *)

Definition sampleCoord : chromaticity_coord.struct Z := chromaticity_coord.Build 0 0.
Definition sampleHdr10 : hdr10_metadata Z :=
  mkHdr10 (mkSt2086 sampleCoord sampleCoord sampleCoord sampleCoord 1000 0) 400 1000.

(** The record a caller hands to the decoder. *)
Definition blankMetadata : jpegr_metadata Z :=
  mkMetadata 0 0 JPEGR_TF_UNSPECIFIED sampleHdr10.
Definition hlgMetadata : jpegr_metadata Z := mkMetadata 1 3 JPEGR_TF_HLG sampleHdr10.
Definition pqMetadata : jpegr_metadata Z := mkMetadata 1 3 JPEGR_TF_PQ sampleHdr10.

(** The one-element document
    [<GContainer:Item RecoveryMap:RangeScalingFactor="r" RecoveryMap:TransferFunction="t"/>]
    followed by a line feed. *)
Definition itemDocument (r t : string) : list ascii :=
  list_ascii_of_string
    (text (swFinish (swAttribute kMapTransferFunction t
             (swAttribute kMapRangeScalingFactor r
                (swStart kConItem (mkWriter EmptyString [] false)))))).

(** An APP1 payload: the namespace, its NUL, and the document. *)
Definition xmpPacket (body : list ascii) : list ascii :=
  (adobeNamespace ++ [NUL] ++ body)%list.

(** A payload that starts with another namespace URI. *)
Definition otherNamespacePacket : list ascii :=
  (list_ascii_of_string "http://ns.adobe.com/xmp/extension/" ++ [NUL]
     ++ itemDocument "2" "1")%list.

(** A payload whose 29th byte is an X in place of the NUL. *)
Definition unterminatedNamespacePacket : list ascii :=
  (adobeNamespace ++ ["X"%char] ++ itemDocument "2" "1")%list.

Local Close Scope string_scope.

(** * Vocabulary of the statements

    Predicates over byte buffers in which the properties of the EXIF
    patcher are stated. *)

(** Two regions agree on the bytes at positions [lo, hi). *)
Definition agree (lo hi : Z) (d d' : bytes) : Prop :=
  ∀ i, lo ≤ i < hi → 0 ≤ i → d !! Z.to_nat i = d' !! Z.to_nat i.

(** [d'] has the length of [d] and its bytes outside positions [lo, hi). *)
Definition unchangedOutside (lo hi : Z) (d d' : bytes) : Prop :=
  length d' = length d ∧ ∀ j : nat, ¬ (lo ≤ Z.of_nat j < hi) → d' !! j = d !! j.

(** ** Entries and offset fields *)

(** The test of line 432: the tag of the entry at [pos] is 0x8769, the
    pointer to the Exif SubIFD. *)
Definition isPointerEntry (exif : bytes) (pos : Z) (be : bool) : bool :=
  match readValue exif pos 2 be with
  | Ret tag => bool_decide (tag = 0x8769)
  | _ => false
  end.

(** The test of line 445 on the entry at [pos]: the width of its format
    times its count, as a 32-bit product, exceeds the four bytes of the
    value field, so the field holds an offset. *)
Definition needsUpdate (exif : bytes) (pos : Z) (be : bool) : bool :=
  match readValue exif (pos + 2) 2 be, readValue exif (pos + 4) 4 be with
  | Ret data_format, Ret num_of_components =>
      bool_decide (int32 (findFormatLengthInBytes data_format * num_of_components) > 4)
  | _, _ => false
  end.

(** The entries whose value field the walk rewrites (lines 454-468). *)
Definition isOffsetEntry (exif : bytes) (pos : Z) (be : bool) : bool :=
  isPointerEntry exif pos be || needsUpdate exif pos be.

(** [x] lies in the value field of an offset entry among the [k] entries
    that start at [pos]. *)
Definition inOffsetField (exif : bytes) (be : bool) (pos : Z) (k : nat) (x : Z) : Prop :=
  ∃ i : nat, (i < k)%nat
    ∧ isOffsetEntry exif (pos + 12 * Z.of_nat i) be = true
    ∧ pos + 12 * Z.of_nat i + 8 ≤ x < pos + 12 * Z.of_nat i + 12.

(** What a walk over [k] entries at [pos] makes of [exif]. *)
Definition walked (exif exif' : bytes) (be : bool) (pos : Z) (k : nat) : Prop :=
  length exif' = length exif
  ∧ (∀ x : nat, ¬ inOffsetField exif be pos k (Z.of_nat x) → exif' !! x = exif !! x)
  ∧ (∀ i : nat, (i < k)%nat →
       isOffsetEntry exif (pos + 12 * Z.of_nat i) be = true →
       ∃ v, readValue exif (pos + 12 * Z.of_nat i + 8) 4 be = Ret v
            ∧ readValue exif' (pos + 12 * Z.of_nat i + 8) 4 be = Ret (int32 (v + 12))).

(** ** The effect of the walk *)

(** The value field of the entry at [pos] holds 12 more in [exif'] than in
    [exif], up to the 32 bits of the field. *)
Definition advanced (exif exif' : bytes) (be : bool) (pos : Z) : Prop :=
  ∃ v, readValue exif (pos + 8) 4 be = Ret v
       ∧ readValue exif' (pos + 8) 4 be = Ret (int32 (v + 12)).

(** The directory layout the walk is written for, in the coordinates of
    the buffer it runs on: [n] entries at [pos]; only entry [j], when
    [j < n], is an Exif SubIFD pointer; it holds [s], and the SubIFD it
    leads to (entry count at [s + 18], then [m] entries) lies behind the
    directory and has no pointer entry. *)
Definition directoryShape (exif : bytes) (be : bool) (pos : Z) (n j : nat) (s : Z) (m : nat)
    : Prop :=
  0 ≤ pos
  ∧ pos + 12 * Z.of_nat n ≤ Z.of_nat (length exif)
  ∧ Z.of_nat (length exif) < 2 ^ 31
  ∧ (∀ i : nat, (i < n)%nat → i ≠ j →
       isPointerEntry exif (pos + 12 * Z.of_nat i) be = false)
  ∧ ((j < n)%nat →
       isPointerEntry exif (pos + 12 * Z.of_nat j) be = true
       ∧ readValue exif (pos + 12 * Z.of_nat j + 8) 4 be = Ret s
       ∧ pos + 12 * Z.of_nat n ≤ s + 18
       ∧ readValue exif (s + 18) 2 be = Ret (Z.of_nat m)
       ∧ s + 20 + 12 * Z.of_nat m ≤ Z.of_nat (length exif)
       ∧ ∀ k : nat, (k < m)%nat →
           isPointerEntry exif (s + 20 + 12 * Z.of_nat k) be = false).

(** The effect of the walk on such a directory. *)
Definition offsetsAdvanced (exif exif' : bytes) (be : bool) (pos : Z) (n j : nat) (s : Z)
    (m : nat) : Prop :=
  length exif' = length exif
  ∧ (∀ x : nat,
       ¬ inOffsetField exif be pos n (Z.of_nat x) →
       ¬ ((j < n)%nat ∧ inOffsetField exif be (s + 20) m (Z.of_nat x)) →
       exif' !! x = exif !! x)
  ∧ (∀ i : nat, (i < n)%nat →
       isOffsetEntry exif (pos + 12 * Z.of_nat i) be = true →
       advanced exif exif' be (pos + 12 * Z.of_nat i))
  ∧ ((j < n)%nat → ∀ k : nat, (k < m)%nat →
       isOffsetEntry exif (s + 20 + 12 * Z.of_nat k) be = true →
       advanced exif exif' be (s + 20 + 12 * Z.of_nat k)).

(** ** The destination before the walk *)

(** The two bytes of an entry count in the byte order of the payload. *)
Definition countBytes (use_big_endian : bool) (num_entry : Z) : bytes :=
  if use_big_endian then [Z.land (Z.shiftr num_entry 8) 255; Z.land num_entry 255]
  else [Z.land num_entry 255; Z.land (Z.shiftr num_entry 8) 255].

(** The destination after the copies of lines 385-409, before the offsets
    are walked: [num_entry] is the incremented count. *)
Definition exifLayout (d dest : bytes) (use_big_endian : bool) (num_entry : Z) : bytes :=
  take 14 d ++ countBytes use_big_endian num_entry ++ jrEntry use_big_endian
    ++ drop 16 d ++ drop (length d + 12) dest.

(** ** Payloads the patcher is written for *)

(** An entry that is no SubIFD pointer and whose format code is in the
    table of [findFormatLengthInBytes]. *)
Definition plainEntry (exif : bytes) (pos : Z) (be : bool) : Prop :=
  isPointerEntry exif pos be = false
  ∧ ∃ data_format, readValue exif (pos + 2) 2 be = Ret data_format
                   ∧ findFormatLengthInBytes data_format ≠ -1.

(** A payload of the shape the patcher is written for: a byte-order mark,
    [n] IFD0 entries from byte 16, of which only entry [j] (when [j < n]) is
    the Exif SubIFD pointer; the pointer holds [s], and the SubIFD, whose
    entry count [m] stands at [s + 6], lies behind the IFD0 entries and
    holds plain entries only. *)
Definition wellFormedExif (d : bytes) (be : bool) (n j : nat) (s : Z) (m : nat) : Prop :=
  loadU16 d 3 = Ret (if be then 0x4d4d else 0x4949)
  ∧ readValue d 14 2 be = Ret (Z.of_nat n)
  ∧ 16 + 12 * Z.of_nat n ≤ Z.of_nat (length d)
  ∧ (∀ i : nat, (i < n)%nat → i ≠ j → plainEntry d (16 + 12 * Z.of_nat i) be)
  ∧ ((j < n)%nat →
       isPointerEntry d (16 + 12 * Z.of_nat j) be = true
       ∧ readValue d (16 + 12 * Z.of_nat j + 8) 4 be = Ret s
       ∧ 16 + 12 * Z.of_nat n ≤ s + 6
       ∧ readValue d (s + 6) 2 be = Ret (Z.of_nat m)
       ∧ s + 8 + 12 * Z.of_nat m ≤ Z.of_nat (length d)
       ∧ ∀ k : nat, (k < m)%nat → plainEntry d (s + 8 + 12 * Z.of_nat k) be).

(** [updateExif] on a payload [d] whose length field is the size of [d]. *)
Definition exifOf (d : bytes) : jr_exif_ptr :=
  Some (jpegr_exif.Build (Some d) (Z.of_nat (length d))).

(** ** Sample EXIF payloads *)

(** [Exif\0\0], a little-endian TIFF header, IFD0 at offset 8. *)
Definition leHeader : bytes :=
  [0x45; 0x78; 0x69; 0x66; 0x00; 0x00; 0x49; 0x49; 0x2A; 0x00; 0x08; 0x00; 0x00; 0x00].

(** One IFD0 entry: Orientation (0x0112), SHORT, count 1, inline value 1. *)
Definition exifInline : bytes :=
  leHeader ++ [0x01; 0x00]
    ++ [0x12; 0x01; 0x03; 0x00; 0x01; 0x00; 0x00; 0x00; 0x01; 0x00; 0x00; 0x00]
    ++ [0x00; 0x00; 0x00; 0x00].

(** One IFD0 entry: ImageDescription (0x010E), ASCII, count 10, stored at
    TIFF offset 26, followed by the next-IFD link and the ten characters. *)
Definition exifOffsetEntry : bytes :=
  leHeader ++ [0x01; 0x00]
    ++ [0x0E; 0x01; 0x02; 0x00; 0x0A; 0x00; 0x00; 0x00; 0x1A; 0x00; 0x00; 0x00]
    ++ [0x00; 0x00; 0x00; 0x00]
    ++ [0x41; 0x41; 0x41; 0x41; 0x41; 0x41; 0x41; 0x41; 0x41; 0x00].

(** What [updateExif] makes of [exifOffsetEntry] in a 54-byte destination. *)
Definition exifOffsetEntryPatched : bytes :=
  leHeader ++ [0x02; 0x00]
    ++ [0x4A; 0x52; 0x07; 0x00; 0x01; 0x00; 0x00; 0x00; 0x00; 0x00; 0x00; 0x00]
    ++ [0x0E; 0x01; 0x02; 0x00; 0x0A; 0x00; 0x00; 0x00; 0x26; 0x00; 0x00; 0x00]
    ++ [0x00; 0x00; 0x00; 0x00]
    ++ [0x41; 0x41; 0x41; 0x41; 0x41; 0x41; 0x41; 0x41; 0x41; 0x00].

(** [Exif\0\0], a big-endian TIFF header, IFD0 at offset 8. *)
Definition beHeader : bytes :=
  [0x45; 0x78; 0x69; 0x66; 0x00; 0x00; 0x4D; 0x4D; 0x00; 0x2A; 0x00; 0x00; 0x00; 0x08].

(** [exifOffsetEntry] in big-endian byte order. *)
Definition exifOffsetEntryBE : bytes :=
  beHeader ++ [0x00; 0x01]
    ++ [0x01; 0x0E; 0x00; 0x02; 0x00; 0x00; 0x00; 0x0A; 0x00; 0x00; 0x00; 0x1A]
    ++ [0x00; 0x00; 0x00; 0x00]
    ++ [0x41; 0x41; 0x41; 0x41; 0x41; 0x41; 0x41; 0x41; 0x41; 0x00].

(** IFD0 with Make (0x010F, ASCII, count 6, at TIFF offset 38) and the Exif
    SubIFD pointer (0x8769, at TIFF offset 44); the SubIFD holds
    DateTimeOriginal (0x9003, ASCII, count 20, at TIFF offset 62). *)
Definition exifWithSubIfd : bytes :=
  leHeader ++ [0x02; 0x00]
    ++ [0x0F; 0x01; 0x02; 0x00; 0x06; 0x00; 0x00; 0x00; 0x26; 0x00; 0x00; 0x00]
    ++ [0x69; 0x87; 0x04; 0x00; 0x01; 0x00; 0x00; 0x00; 0x2C; 0x00; 0x00; 0x00]
    ++ [0x00; 0x00; 0x00; 0x00]
    ++ [0x43; 0x61; 0x6E; 0x6F; 0x6E; 0x00]
    ++ [0x01; 0x00]
    ++ [0x03; 0x90; 0x02; 0x00; 0x14; 0x00; 0x00; 0x00; 0x3E; 0x00; 0x00; 0x00]
    ++ [0x00; 0x00; 0x00; 0x00]
    ++ replicate 20 0x30.

(** IFD0 with two Exif SubIFD pointers to the same SubIFD (TIFF offset 38),
    which holds DateTimeOriginal (ASCII, count 20, at TIFF offset 56). *)
Definition exifTwoPointers : bytes :=
  leHeader ++ [0x02; 0x00]
    ++ [0x69; 0x87; 0x04; 0x00; 0x01; 0x00; 0x00; 0x00; 0x26; 0x00; 0x00; 0x00]
    ++ [0x69; 0x87; 0x04; 0x00; 0x01; 0x00; 0x00; 0x00; 0x26; 0x00; 0x00; 0x00]
    ++ [0x00; 0x00; 0x00; 0x00]
    ++ [0x01; 0x00]
    ++ [0x03; 0x90; 0x02; 0x00; 0x14; 0x00; 0x00; 0x00; 0x38; 0x00; 0x00; 0x00]
    ++ [0x00; 0x00; 0x00; 0x00]
    ++ replicate 20 0x30.

(** One IFD0 entry with the format code 13, which is not in the table,
    count 1 and value 1. *)
Definition exifUnknownFormat : bytes :=
  leHeader ++ [0x01; 0x00]
    ++ [0x12; 0x01; 0x0D; 0x00; 0x01; 0x00; 0x00; 0x00; 0x01; 0x00; 0x00; 0x00]
    ++ [0x00; 0x00; 0x00; 0x00].

(** The same entry with the count bytes FB FF FF FF. *)
Definition exifUnknownFormatCount : bytes :=
  leHeader ++ [0x01; 0x00]
    ++ [0x12; 0x01; 0x0D; 0x00; 0xFB; 0xFF; 0xFF; 0xFF; 0x01; 0x00; 0x00; 0x00]
    ++ [0x00; 0x00; 0x00; 0x00].

(** A payload with a mark that is neither II nor MM. *)
Definition exifBadMark : bytes :=
  [0x45; 0x78; 0x69; 0x66; 0x00; 0x00; 0x58; 0x58; 0x2A; 0x00; 0x08; 0x00; 0x00; 0x00;
   0x00; 0x00; 0x00; 0x00; 0x00; 0x00].

(** One IFD0 entry: tag 0x0100, BYTE, count 1, inline value 0. *)
Definition byteEntry : bytes :=
  [0x00; 0x01; 0x01; 0x00; 0x01; 0x00; 0x00; 0x00; 0x00; 0x00; 0x00; 0x00].

(** [k] copies of [byteEntry]. *)
Fixpoint entryBlock (k : nat) : bytes :=
  match k with
  | O => []
  | S k' => byteEntry ++ entryBlock k'
  end.

(** A little-endian payload whose IFD0 holds [k] copies of [byteEntry]. *)
Definition exifDirectory (k : nat) : bytes :=
  (leHeader ++ countBytes false (Z.of_nat k)) ++ entryBlock k ++ [0x00; 0x00; 0x00; 0x00].

(** ** Further sample payloads *)

(** A [jpegr_compressed_struct] of 8 bytes of which 3 are used. *)
Definition smallCompressed : jpegr_compressed.struct :=
  jpegr_compressed.Build [1; 2; 3; 0; 0; 0; 0; 0] 3 8.

(** A destination in which the SubIFD pointer at byte 40 holds 20: the
    SubIFD it leads to has its count in bytes 38-39 (which read 1) and its
    first entry at byte 40, the pointer itself. *)
Definition exifCycle : bytes :=
  leHeader ++ [0x03; 0x00]
    ++ [0x4A; 0x52; 0x07; 0x00; 0x01; 0x00; 0x00; 0x00; 0x00; 0x00; 0x00; 0x00]
    ++ [0x00; 0x01; 0x04; 0x00; 0x01; 0x00; 0x00; 0x00; 0x00; 0x00; 0x01; 0x00]
    ++ [0x69; 0x87; 0x04; 0x00; 0x01; 0x00; 0x00; 0x00; 0x14; 0x00; 0x00; 0x00]
    ++ [0x00; 0x00; 0x00; 0x00].

(** A little-endian payload with an empty IFD0 and nothing behind it. *)
Definition exifEmptyDirectory : bytes := leHeader ++ [0x00; 0x00].

(** ** Callbacks of an item element, and further sample documents *)

(** The callbacks for the attributes [name="value"] of a start tag, in the
    order they stand in it. *)
Definition attributeEvents (attrs : list (string * string)) : list XmlEvent :=
  flat_map (λ a, [OnAttributeName (Some a.1); OnAttributeValue (Some a.2)]) attrs.

(** The callbacks for an element [<GContainer:Item ... />] with the
    attributes [attrs] and no child element. *)
Definition itemEvents (attrs : list (string * string)) : list XmlEvent :=
  OnStartElement (Some gContainerItemName) :: attributeEvents attrs ++ [OnFinishElement].

(** The value of the last attribute called [name], [old] when there is
    none. *)
Definition lastValue (name : string) (attrs : list (string * string)) (old : string)
    : string :=
  fold_left (λ acc a, if decide (a.1 = name) then a.2 else acc) attrs old.

(** A document with one element that is no item, [rdf:li] with one
    attribute, followed by a line feed. *)
Definition otherDocument : list ascii :=
  list_ascii_of_string
    (text (swFinish (swAttribute "x" "1" (swStart "rdf:li" (mkWriter EmptyString [] false))))).

(** [hlgMetadata] with other HDR10 values. *)
Definition hlgMetadataDim : jpegr_metadata Z :=
  mkMetadata 1 3 JPEGR_TF_HLG (mkHdr10 (st2086Metadata sampleHdr10) 1 2).

(** ** The callbacks a reader makes on the document of [generateXmp]

    What an XML reader reports, through the four callbacks the handler
    overrides, for the elements and attributes a writer call emits.
    The text of a value is the writer's: [showFloat] and [showInt] stand
    for its formatting of a [float] and of an [int]. *)






Section Callbacks.
Context {float : Type}.
Variables (showFloat : float → string) (showInt : Z → string).



End Callbacks.

(** * Runtime sensors (services/sensorservice/SensorInterface.cpp, lines 90-125)

    [RuntimeSensor] keeps the configuration a client asked for and tells
    its callback about changes.  The callback object belongs to the sensor
    service; a method that ends in [return mCallback->onConfigurationChanged(...)]
    is modelled by the arguments of that call. *)
Module RuntimeSensor.

(** The fields the three methods read and write; [handle] stands for
    [mSensor.getHandle()]. *)
Record state : Type := Build {
  handle : Z;
  mEnabled : bool;
  mSamplingPeriodNs : Z;
  mBatchReportLatencyNs : Z
}.

#[global] Instance state_eq_dec : EqDecision state.
Proof. solve_decision. Defined.

(** The arguments of one [onConfigurationChanged] call. *)
Record configuration : Type := Conf {
  c_handle : Z;
  c_enabled : bool;
  c_samplingPeriodNs : Z;
  c_batchReportLatencyNs : Z
}.

(** What a method returns: [OK], or the status of the callback invoked with
    the given arguments. *)
Inductive result : Type :=
| OK
| Callback (c : configuration).

(** The arguments every call site passes: the fields as they are then. *)
Definition current (s : state) : configuration :=
  Conf (handle s) (mEnabled s) (mSamplingPeriodNs s) (mBatchReportLatencyNs s).

(** Lines 94-101 *)
Definition activate (s : state) (enabled : bool) : result * state :=
  if decide (enabled ≠ mEnabled s) then
    let s := Build (handle s) enabled (mSamplingPeriodNs s) (mBatchReportLatencyNs s) in
    (Callback (current s), s)
  else (OK, s).

(** Lines 103-114 *)
Definition batch (s : state) (samplingPeriodNs maxBatchReportLatencyNs : Z)
    : result * state :=
  if decide (mSamplingPeriodNs s ≠ samplingPeriodNs
             ∨ mBatchReportLatencyNs s ≠ maxBatchReportLatencyNs) then
    let s := Build (handle s) (mEnabled s) samplingPeriodNs maxBatchReportLatencyNs in
    if mEnabled s then (Callback (current s), s) else (OK, s)
  else (OK, s).

(** Lines 116-125 *)
Definition setDelay (s : state) (ns : Z) : result * state :=
  if decide (mSamplingPeriodNs s ≠ ns) then
    let s := Build (handle s) (mEnabled s) ns (mBatchReportLatencyNs s) in
    if mEnabled s then (Callback (current s), s) else (OK, s)
  else (OK, s).

(** A client request, and a sequence of them run in order; the callbacks
    made are collected in the order they happen. *)
Inductive request : Type :=
| Activate (enabled : bool)
| Batch (samplingPeriodNs maxBatchReportLatencyNs : Z)
| SetDelay (ns : Z).

Definition step (s : state) (r : request) : result * state :=
  match r with
  | Activate enabled => activate s enabled
  | Batch p l => batch s p l
  | SetDelay ns => setDelay s ns
  end.

Definition callbacks (r : result) : list configuration :=
  match r with
  | OK => []
  | Callback c => [c]
  end.

Fixpoint run (s : state) (rs : list request) : list configuration * state :=
  match rs with
  | [] => ([], s)
  | r :: rs' =>
      let '(res, s1) := step s r in
      let '(cs, s2) := run s1 rs' in
      (callbacks res ++ cs, s2)
  end.

(** The configuration a request asks for, written without the tests. *)
Definition requested (s : state) (r : request) : state :=
  match r with
  | Activate enabled => Build (handle s) enabled (mSamplingPeriodNs s) (mBatchReportLatencyNs s)
  | Batch p l => Build (handle s) (mEnabled s) p l
  | SetDelay ns => Build (handle s) (mEnabled s) ns (mBatchReportLatencyNs s)
  end.

Definition isActivate (r : request) : bool :=
  match r with
  | Activate _ => true
  | _ => false
  end.

End RuntimeSensor.

(** * Properties of the EXIF patcher *)

(** ** Bit arithmetic *)

Lemma int32_range (z : Z) : - 2 ^ 31 ≤ int32 z < 2 ^ 31.
Proof. unfold int32. pose proof (Z.mod_pos_bound (z + 2 ^ 31) (2 ^ 32)). lia. Qed.

Lemma int32_id (z : Z) : - 2 ^ 31 ≤ z < 2 ^ 31 → int32 z = z.
Proof. intros Hz. unfold int32. rewrite Z.mod_small; lia. Qed.

Lemma lor_shiftl_add (hi lo k : Z) :
  0 ≤ k → 0 ≤ lo < 2 ^ k → Z.lor (Z.shiftl hi k) lo = hi * 2 ^ k + lo.
Proof.
  intros Hk Hlo.
  pose proof (Z.add_lor_land (Z.shiftl hi k) lo) as Hadd.
  assert (Z.land (Z.shiftl hi k) lo = 0) as Hland.
  { apply Z.bits_inj'. intros i Hi. rewrite Z.land_spec, Z.bits_0.
    destruct (Z.lt_ge_cases i k) as [Hlt|Hge].
    - rewrite Z.shiftl_spec_low by done. done.
    - rewrite <- (Z.mod_small lo (2 ^ k)) by done.
      rewrite Z.mod_pow2_bits_high by lia. apply andb_false_r. }
  rewrite Hland, Z.shiftl_mul_pow2 in Hadd by done.
  rewrite Z.shiftl_mul_pow2 in * by done. lia.
Qed.

Lemma land_255 (x : Z) : Z.land x 255 = x mod 256.
Proof. change 255 with (Z.ones 8). rewrite Z.land_ones by lia. done. Qed.

Lemma byte_mod_range (x : Z) : 0 ≤ x mod 256 < 256.
Proof. apply Z.mod_pos_bound. lia. Qed.

(** The value of four bytes, least significant first. *)
Lemma lor_bytes (b0 b1 b2 b3 : Z) :
  0 ≤ b0 < 256 → 0 ≤ b1 < 256 → 0 ≤ b2 < 256 → 0 ≤ b3 < 256 →
  Z.lor (Z.lor (Z.lor (Z.shiftl b3 24) (Z.shiftl b2 16)) (Z.shiftl b1 8)) b0
  = b3 * 2 ^ 24 + b2 * 2 ^ 16 + b1 * 2 ^ 8 + b0.
Proof.
  intros H0 H1 H2 H3.
  replace (Z.shiftl b3 24) with (Z.shiftl (Z.shiftl b3 8) 16)
    by (rewrite Z.shiftl_shiftl by lia; done).
  rewrite <- Z.shiftl_lor, (lor_shiftl_add b3 b2 8) by lia.
  replace (Z.shiftl (b3 * 2 ^ 8 + b2) 16) with (Z.shiftl (Z.shiftl (b3 * 2 ^ 8 + b2) 8) 8)
    by (rewrite Z.shiftl_shiftl by lia; done).
  rewrite <- Z.shiftl_lor, (lor_shiftl_add _ b1 8) by lia.
  rewrite lor_shiftl_add by lia. lia.
Qed.

Lemma lor_bytes2 (b0 b1 : Z) :
  0 ≤ b0 < 256 → Z.lor (Z.shiftl b1 8) b0 = b1 * 2 ^ 8 + b0.
Proof. intros H0. apply lor_shiftl_add; lia. Qed.

(** Splitting a 32-bit value into bytes and putting them together again. *)
Lemma int32_of_bytes (x : Z) :
  - 2 ^ 31 ≤ x < 2 ^ 31 →
  int32 (Z.lor (Z.lor (Z.lor (Z.shiftl (Z.land (Z.shiftr x 24) 255) 24)
                         (Z.shiftl (Z.land (Z.shiftr x 16) 255) 16))
                  (Z.shiftl (Z.land (Z.shiftr x 8) 255) 8))
           (Z.land x 255)) = x.
Proof.
  intros Hx. rewrite !land_255.
  rewrite lor_bytes by apply byte_mod_range.
  rewrite !Z.shiftr_div_pow2 by lia. unfold int32.
  change (2 ^ 24) with 16777216. change (2 ^ 16) with 65536. change (2 ^ 8) with 256.
  change (2 ^ 31) with 2147483648 in *. change (2 ^ 32) with 4294967296.
  Z.div_mod_to_equations. lia.
Qed.

(** ** Memory accesses *)

Lemma bind_Ret {A B : Type} (m : outcome A) (f : A → outcome B) (b : B) :
  m ≫= f = Ret b → ∃ a, m = Ret a ∧ f a = Ret b.
Proof. destruct m as [a| |]; simpl; [eauto|done|done]. Qed.

Lemma bind_Ret_l {A B : Type} (a : A) (f : A → outcome B) : Ret a ≫= f = f a.
Proof. done. Qed.

Tactic Notation "bind_inv" hyp(H) "as" ident(a) ident(Ha) :=
  apply bind_Ret in H as (a & Ha & H).

Lemma loadByte_Ret (d : bytes) (pos b : Z) :
  loadByte d pos = Ret b ↔
  0 ≤ pos ∧ ∃ raw, d !! Z.to_nat pos = Some raw ∧ b = raw mod 256.
Proof.
  unfold loadByte. destruct (decide (0 ≤ pos)); [|split; [done|lia]].
  destruct (d !! Z.to_nat pos) as [raw|]; split.
  - intros [= <-]. eauto.
  - intros (_ & raw' & [= <-] & ->). done.
  - done.
  - intros (_ & raw' & ? & _). done.
Qed.

Lemma loadByte_total (d : bytes) (pos : Z) :
  0 ≤ pos < Z.of_nat (length d) → ∃ b, loadByte d pos = Ret b ∧ 0 ≤ b < 256.
Proof.
  intros Hpos. destruct (lookup_lt_is_Some_2 d (Z.to_nat pos)) as [raw Hraw]; [lia|].
  exists (raw mod 256). split; [|apply byte_mod_range].
  apply loadByte_Ret. eauto with lia.
Qed.

Lemma loadByte_bounds (d : bytes) (pos b : Z) :
  loadByte d pos = Ret b → 0 ≤ pos < Z.of_nat (length d) ∧ 0 ≤ b < 256.
Proof.
  intros (Hpos & raw & Hraw & ->)%loadByte_Ret.
  apply lookup_lt_Some in Hraw. split; [lia|apply byte_mod_range].
Qed.

Lemma loadByte_ext (d d' : bytes) (pos : Z) :
  d !! Z.to_nat pos = d' !! Z.to_nat pos → loadByte d pos = loadByte d' pos.
Proof. intros Heq. unfold loadByte. by rewrite Heq. Qed.

Lemma loadByte_neg (d : bytes) (pos : Z) : pos < 0 → loadByte d pos = Fault.
Proof. intros Hneg. unfold loadByte. destruct (decide (0 ≤ pos)); [lia|done]. Qed.

Lemma agree_sym lo hi d d' : agree lo hi d d' → agree lo hi d' d.
Proof. intros H i ? ?. symmetry. by apply H. Qed.

Lemma agree_trans lo hi d1 d2 d3 : agree lo hi d1 d2 → agree lo hi d2 d3 → agree lo hi d1 d3.
Proof. intros H1 H2 i ? ?. rewrite H1 by done. by apply H2. Qed.

Lemma agree_mono lo hi lo' hi' d d' :
  agree lo hi d d' → lo ≤ lo' → hi' ≤ hi → agree lo' hi' d d'.
Proof. intros H ? ? i ? ?. apply H; lia. Qed.

Lemma readValue_ext (d d' : bytes) (pos len : Z) (be : bool) :
  agree pos (pos + len) d d' → readValue d pos len be = readValue d' pos len be.
Proof.
  intros Hag. unfold readValue.
  destruct (decide (len = 2)) as [->|]; [|destruct (decide (len = 4)) as [->|]; [|done]].
  - destruct (decide (0 ≤ pos)) as [Hp|Hn].
    + rewrite (loadByte_ext d d' pos), (loadByte_ext d d' (pos + 1)) by (apply Hag; lia). done.
    + rewrite !(loadByte_neg _ pos) by lia. done.
  - destruct (decide (0 ≤ pos)) as [Hp|Hn].
    + rewrite (loadByte_ext d d' pos), (loadByte_ext d d' (pos + 1)),
        (loadByte_ext d d' (pos + 2)), (loadByte_ext d d' (pos + 3)) by (apply Hag; lia).
      done.
    + rewrite !(loadByte_neg _ pos) by lia. done.
Qed.

Lemma readValue_total (d : bytes) (pos len : Z) (be : bool) :
  0 ≤ pos → pos + len ≤ Z.of_nat (length d) → len = 2 ∨ len = 4 →
  ∃ v, readValue d pos len be = Ret v.
Proof.
  intros Hp Hl [-> | ->]; unfold readValue; simpl.
  - destruct (loadByte_total d pos) as (b0 & -> & _); [lia|].
    destruct (loadByte_total d (pos + 1)) as (b1 & -> & _); [lia|]. simpl. eauto.
  - destruct (loadByte_total d pos) as (b0 & -> & _); [lia|].
    destruct (loadByte_total d (pos + 1)) as (b1 & -> & _); [lia|].
    destruct (loadByte_total d (pos + 2)) as (b2 & -> & _); [lia|].
    destruct (loadByte_total d (pos + 3)) as (b3 & -> & _); [lia|]. simpl. eauto.
Qed.

Lemma readValue2_range (d : bytes) (pos v : Z) (be : bool) :
  readValue d pos 2 be = Ret v → 0 ≤ v < 65536.
Proof.
  unfold readValue. simpl. intros H.
  bind_inv H as b0 Hb0. apply loadByte_bounds in Hb0 as [_ Hb0].
  bind_inv H as b1 Hb1. apply loadByte_bounds in Hb1 as [_ Hb1].
  destruct be; injection H as <-; rewrite lor_bytes2 by lia; lia.
Qed.

Lemma storeByte_Ret (d : bytes) (pos v : Z) (d' : bytes) :
  storeByte d pos v = Ret d' →
  0 ≤ pos < Z.of_nat (length d) ∧ d' = <[Z.to_nat pos := v]> d.
Proof. unfold storeByte. case_decide; [|done]. intros [= <-]. done. Qed.

Lemma storeByte_total (d : bytes) (pos v : Z) :
  0 ≤ pos < Z.of_nat (length d) → storeByte d pos v = Ret (<[Z.to_nat pos := v]> d).
Proof. intros Hpos. unfold storeByte. by rewrite decide_True. Qed.

Lemma unchangedOutside_refl lo hi d : unchangedOutside lo hi d d.
Proof. split; done. Qed.

Lemma unchangedOutside_trans lo hi d1 d2 d3 :
  unchangedOutside lo hi d1 d2 → unchangedOutside lo hi d2 d3 → unchangedOutside lo hi d1 d3.
Proof.
  intros [Hl1 H1] [Hl2 H2]. split; [congruence|].
  intros j Hj. rewrite H2 by done. by apply H1.
Qed.

Lemma unchangedOutside_mono lo hi lo' hi' d d' :
  unchangedOutside lo hi d d' → lo' ≤ lo → hi ≤ hi' → unchangedOutside lo' hi' d d'.
Proof. intros [Hl H] ? ?. split; [done|]. intros j Hj. apply H. lia. Qed.

Lemma unchangedOutside_agree lo hi a b d d' :
  unchangedOutside lo hi d d' → b ≤ lo ∨ hi ≤ a → agree a b d d'.
Proof.
  intros [_ H] Hdisj i Hi Hi0. symmetry. apply H. lia.
Qed.

Lemma readValue_frame lo hi d d' pos len be :
  unchangedOutside lo hi d d' → pos + len ≤ lo ∨ hi ≤ pos →
  readValue d' pos len be = readValue d pos len be.
Proof.
  intros Hun Hdisj. symmetry. apply readValue_ext.
  eapply unchangedOutside_agree; [done|lia].
Qed.

(** ** The offset rewrite (lines 454-468) *)

Lemma bumpOffset_bounds (d : bytes) (pos : Z) (be : bool) (d' : bytes) :
  bumpOffset d pos be = Ret d' → 0 ≤ pos + 8 ∧ pos + 12 ≤ Z.of_nat (length d).
Proof.
  unfold bumpOffset. intros H. bind_inv H as v Hv. clear H.
  unfold readValue in Hv. simpl in Hv.
  bind_inv Hv as b0 Hb0. apply loadByte_bounds in Hb0 as [? _].
  bind_inv Hv as b1 Hb1. bind_inv Hv as b2 Hb2. bind_inv Hv as b3 Hb3.
  apply loadByte_bounds in Hb3 as [? _]. lia.
Qed.

Lemma bumpOffset_spec (d : bytes) (pos : Z) (be : bool) :
  0 ≤ pos + 8 → pos + 12 ≤ Z.of_nat (length d) →
  ∃ v d',
    readValue d (pos + 8) 4 be = Ret v
    ∧ bumpOffset d pos be = Ret d'
    ∧ unchangedOutside (pos + 8) (pos + 12) d d'
    ∧ readValue d' (pos + 8) 4 be = Ret (int32 (v + 12)).
Proof.
  intros Hlo Hhi.
  destruct (readValue_total d (pos + 8) 4 be) as [v Hv]; [lia|lia|auto|].
  exists v. unfold bumpOffset. rewrite Hv, bind_Ret_l.
  unfold EXIF_J_R_ENTRY_LENGTH.
  pose proof (int32_range (v + 12)) as Hrange.
  pose proof (int32_of_bytes _ Hrange) as Hback.
  set (x := int32 (v + 12)) in *.
  set (q := Z.to_nat (pos + 8)).
  assert (Z.to_nat (pos + 8) = q) as E0 by done.
  assert (Z.to_nat (pos + 9) = S q) as E1 by lia.
  assert (Z.to_nat (pos + 10) = S (S q)) as E2 by lia.
  assert (Z.to_nat (pos + 11) = S (S (S q))) as E3 by lia.
  assert (S (S (S q)) < length d)%nat as Hq by lia.
  assert (∀ d' : bytes,
            length d' = length d →
            d' !! q = Some (Z.land (Z.shiftr x (if be then 24 else 0)) 255) →
            d' !! S q = Some (Z.land (Z.shiftr x (if be then 16 else 8)) 255) →
            d' !! S (S q) = Some (Z.land (Z.shiftr x (if be then 8 else 16)) 255) →
            d' !! S (S (S q)) = Some (Z.land (Z.shiftr x (if be then 0 else 24)) 255) →
            readValue d' (pos + 8) 4 be = Ret x) as Hread.
  { intros d' Hlen L0 L1 L2 L3. unfold readValue. simpl. unfold loadByte.
    rewrite !decide_True by lia.
    replace (pos + 8 + 1) with (pos + 9) by lia.
    replace (pos + 8 + 2) with (pos + 10) by lia.
    replace (pos + 8 + 3) with (pos + 11) by lia.
    rewrite E0, E1, E2, E3, L0, L1, L2, L3. simpl.
    rewrite !land_255, !Z.mod_mod by lia. rewrite <- !land_255.
    destruct be; rewrite Z.shiftr_0_r; by rewrite Hback. }
  destruct be.
  - rewrite (storeByte_total d) by lia. rewrite bind_Ret_l.
    rewrite storeByte_total; [|rewrite length_insert; lia]. rewrite bind_Ret_l.
    rewrite storeByte_total; [|rewrite !length_insert; lia]. rewrite bind_Ret_l.
    rewrite storeByte_total; [|rewrite !length_insert; lia].
    rewrite E0, E1, E2, E3.
    eexists. split; [done|]. split; [reflexivity|]. split.
    + split; [by rewrite !length_insert|].
      intros j Hj. rewrite !list_lookup_insert_ne by lia. done.
    + apply Hread; rewrite ?length_insert; try done; rewrite ?Z.shiftr_0_r;
        repeat first [ rewrite list_lookup_insert_eq by (rewrite ?length_insert; lia)
                     | rewrite list_lookup_insert_ne by lia ]; done.
  - rewrite (storeByte_total d) by lia. rewrite bind_Ret_l.
    rewrite storeByte_total; [|rewrite length_insert; lia]. rewrite bind_Ret_l.
    rewrite storeByte_total; [|rewrite !length_insert; lia]. rewrite bind_Ret_l.
    rewrite storeByte_total; [|rewrite !length_insert; lia].
    rewrite E0, E1, E2, E3.
    eexists. split; [done|]. split; [reflexivity|]. split.
    + split; [by rewrite !length_insert|].
      intros j Hj. rewrite !list_lookup_insert_ne by lia. done.
    + apply Hread; rewrite ?length_insert; try done; rewrite ?Z.shiftr_0_r;
        repeat first [ rewrite list_lookup_insert_eq by (rewrite ?length_insert; lia)
                     | rewrite list_lookup_insert_ne by lia ]; done.
Qed.

Lemma isPointerEntry_ext (b b' : bytes) (pos : Z) (be : bool) :
  agree pos (pos + 2) b b' → isPointerEntry b pos be = isPointerEntry b' pos be.
Proof. intros Hag. unfold isPointerEntry. by rewrite (readValue_ext b b' pos 2). Qed.

Lemma needsUpdate_ext (b b' : bytes) (pos : Z) (be : bool) :
  agree (pos + 2) (pos + 8) b b' → needsUpdate b pos be = needsUpdate b' pos be.
Proof.
  intros Hag. unfold needsUpdate.
  rewrite (readValue_ext b b' (pos + 2) 2), (readValue_ext b b' (pos + 4) 4); [done| |];
    eapply agree_mono; eauto; lia.
Qed.

Lemma isOffsetEntry_ext (b b' : bytes) (pos : Z) (be : bool) :
  agree pos (pos + 8) b b' → isOffsetEntry b pos be = isOffsetEntry b' pos be.
Proof.
  intros Hag. unfold isOffsetEntry.
  rewrite (isPointerEntry_ext b b'), (needsUpdate_ext b b'); [done| |];
    eapply agree_mono; eauto; lia.
Qed.

(** An entry that is not the SubIFD pointer: the value field is advanced
    when the data does not fit it, and nothing else changes. *)
Lemma updateEntry_plain (sub : bytes → Z → outcome bytes) (b : bytes) (pos : Z) (be : bool) :
  0 ≤ pos → pos + 12 ≤ Z.of_nat (length b) →
  isPointerEntry b pos be = false →
  ∃ b', updateEntry sub b pos be = Ret b'
        ∧ unchangedOutside (pos + 8) (pos + 12) b b'
        ∧ (if needsUpdate b pos be
           then ∃ v, readValue b (pos + 8) 4 be = Ret v
                     ∧ readValue b' (pos + 8) 4 be = Ret (int32 (v + 12))
           else b' = b).
Proof.
  intros Hlo Hhi Hplain. unfold updateEntry.
  unfold isPointerEntry in Hplain.
  destruct (readValue_total b pos 2 be) as [t Ht]; [lia|lia|auto|].
  rewrite Ht in Hplain. rewrite Ht, bind_Ret_l.
  apply bool_decide_eq_false in Hplain. rewrite decide_False by done.
  unfold needsUpdate.
  destruct (readValue_total b (pos + 2) 2 be) as [f Hf]; [lia|lia|auto|].
  destruct (readValue_total b (pos + 4) 4 be) as [c Hc]; [lia|lia|auto|].
  rewrite Hf, Hc, !bind_Ret_l.
  destruct (decide (int32 (findFormatLengthInBytes f * c) > 4)) as [Hgt|Hle].
  - rewrite bool_decide_eq_true_2 by done.
    destruct (bumpOffset_spec b pos be) as (v & b' & Hv & Hb & Hun & Hr); [lia|lia|].
    exists b'. eauto.
  - rewrite bool_decide_eq_false_2 by done.
    exists b. split; [done|]. split; [apply unchangedOutside_refl|done].
Qed.

Lemma updateEntries_plain (sub : bytes → Z → outcome bytes) (k : nat) (b : bytes)
    (pos : Z) (be : bool) :
  0 ≤ pos → pos + 12 * Z.of_nat k ≤ Z.of_nat (length b) →
  (∀ i : nat, (i < k)%nat → isPointerEntry b (pos + 12 * Z.of_nat i) be = false) →
  ∃ b', updateEntries sub k b pos be = Ret b' ∧ walked b b' be pos k.
Proof.
  revert b pos. induction k as [|k IH]; intros b pos Hlo Hhi Hplain.
  - exists b. split; [done|]. split; [done|]. split; [done|]. intros i Hi. lia.
  - simpl.
    assert (isPointerEntry b pos be = false) as Hp0.
    { specialize (Hplain 0%nat). rewrite Z.mul_0_r, Z.add_0_r in Hplain. apply Hplain. lia. }
    destruct (updateEntry_plain sub b pos be) as (b1 & Hb1 & Hun1 & Hval1); [lia|lia|done|].
    rewrite Hb1, bind_Ret_l. unfold EXIF_J_R_ENTRY_LENGTH.
    destruct Hun1 as [Hlen1 Hout1].
    assert (∀ p len, p + len ≤ pos + 8 ∨ pos + 12 ≤ p →
              readValue b1 p len be = readValue b p len be) as Hread1.
    { intros p len Hp. eapply readValue_frame; [split; eauto|lia]. }
    assert (∀ p, p + 8 ≤ pos + 8 ∨ pos + 12 ≤ p →
              isOffsetEntry b1 p be = isOffsetEntry b p be) as Hoff1.
    { intros p Hp. apply isOffsetEntry_ext. intros x Hx Hx0. apply Hout1. lia. }
    destruct (IH b1 (pos + 12)) as (b' & Hb' & Hlen' & Hout' & Hval'); [lia|lia| |].
    { intros i Hi. rewrite <- (Hplain (S i)) by lia.
      replace (pos + 12 * Z.of_nat (S i)) with (pos + 12 + 12 * Z.of_nat i) by lia.
      apply isPointerEntry_ext. intros x Hx Hx0. apply Hout1. lia. }
    exists b'. split; [done|]. split; [congruence|]. split.
    + intros x Hx. rewrite Hout'.
      * destruct (needsUpdate b pos be) eqn:Hn; [|by subst b1].
        apply Hout1. intros Hin. apply Hx. exists 0%nat.
        rewrite Z.mul_0_r, Z.add_0_r. split; [lia|]. split; [|lia].
        unfold isOffsetEntry. rewrite Hn. apply orb_true_r.
      * intros (i & Hi & Hoff & Hrange). apply Hx. exists (S i).
        replace (pos + 12 * Z.of_nat (S i)) with (pos + 12 + 12 * Z.of_nat i) by lia.
        split; [lia|]. split; [|lia]. rewrite <- Hoff. symmetry. apply Hoff1. lia.
    + intros [|i] Hi Hoff.
      * rewrite Z.mul_0_r, Z.add_0_r in *.
        assert (needsUpdate b pos be = true) as Hn.
        { unfold isOffsetEntry in Hoff. by rewrite Hp0 in Hoff. }
        rewrite Hn in Hval1. destruct Hval1 as (v & Hv & Hv1). exists v. split; [done|].
        rewrite <- Hv1. symmetry. apply readValue_ext. intros x Hx Hx0.
        symmetry. replace x with (Z.of_nat (Z.to_nat x)) in Hx by lia.
        apply Hout'. intros (i & Hi' & _ & Hrange). lia.
      * replace (pos + 12 * Z.of_nat (S i)) with (pos + 12 + 12 * Z.of_nat i) in * by lia.
        destruct (Hval' i) as (v & Hv & Hv'); [lia| |].
        { rewrite <- Hoff. apply Hoff1. lia. }
        exists v. split; [|done]. rewrite <- Hv. symmetry. apply Hread1. lia.
Qed.

Lemma updateEntries_app (sub : bytes → Z → outcome bytes) (a k : nat) (b : bytes)
    (pos : Z) (be : bool) :
  updateEntries sub (a + k) b pos be =
  updateEntries sub a b pos be ≫= λ b', updateEntries sub k b' (pos + 12 * Z.of_nat a) be.
Proof.
  revert b pos. induction a as [|a IH]; intros b pos.
  - simpl. by rewrite ?Z.mul_0_r, Z.add_0_r.
  - change (S a + k)%nat with (S (a + k)). simpl.
    destruct (updateEntry sub b pos be) as [b1| |]; simpl; [|done|done].
    rewrite IH. unfold EXIF_J_R_ENTRY_LENGTH.
    destruct (updateEntries sub a b1 (pos + 12) be); simpl; [|done|done].
    f_equal. lia.
Qed.

Lemma updateEntries_split (sub : bytes → Z → outcome bytes) (n a k : nat) (b : bytes)
    (pos : Z) (be : bool) :
  n = (a + k)%nat →
  updateEntries sub n b pos be =
  updateEntries sub a b pos be ≫= λ b', updateEntries sub k b' (pos + 12 * Z.of_nat a) be.
Proof. intros ->. apply updateEntries_app. Qed.

Lemma updateExifOffsets_S (fuel : nat) (b : bytes) (pos n : Z) (be : bool) :
  updateExifOffsets (S fuel) b pos n be =
  updateEntries
    (λ e p, num ← readValue e p 2 be; updateExifOffsets fuel e (p + 2) num be)
    (Z.to_nat n) b pos be.
Proof. done. Qed.

Lemma walked_coarse (b b' : bytes) (be : bool) (pos : Z) (k : nat) :
  walked b b' be pos k → unchangedOutside (pos + 8) (pos + 12 * Z.of_nat k) b b'.
Proof.
  intros (Hlen & Hout & _). split; [done|]. intros x Hx. apply Hout.
  intros (i & Hi & _ & Hr). lia.
Qed.

(** The first eight bytes of an entry of the walked directory stay. *)
Lemma walked_header (b b' : bytes) (be : bool) (pos : Z) (k i : nat) :
  walked b b' be pos k →
  agree (pos + 12 * Z.of_nat i) (pos + 12 * Z.of_nat i + 8) b b'.
Proof.
  intros (_ & Hout & _) x Hx Hx0. symmetry.
  replace x with (Z.of_nat (Z.to_nat x)) in Hx by lia.
  apply Hout. intros (i' & _ & _ & Hr). lia.
Qed.

Lemma frame_isOffsetEntry lo hi b b' p be :
  unchangedOutside lo hi b b' → p + 8 ≤ lo ∨ hi ≤ p →
  isOffsetEntry b' p be = isOffsetEntry b p be.
Proof.
  intros Hun Hd. symmetry. apply isOffsetEntry_ext.
  eapply unchangedOutside_agree; [done|lia].
Qed.

Lemma frame_isPointerEntry lo hi b b' p be :
  unchangedOutside lo hi b b' → p + 2 ≤ lo ∨ hi ≤ p →
  isPointerEntry b' p be = isPointerEntry b p be.
Proof.
  intros Hun Hd. symmetry. apply isPointerEntry_ext.
  eapply unchangedOutside_agree; [done|lia].
Qed.

Lemma isPointerEntry_true (b : bytes) (pos : Z) (be : bool) :
  isPointerEntry b pos be = true ↔ readValue b pos 2 be = Ret 0x8769.
Proof.
  unfold isPointerEntry. destruct (readValue b pos 2 be) as [t| |]; [|done|done].
  rewrite bool_decide_eq_true. split; [by intros ->|by intros [= ->]].
Qed.

(** A directory of [k] plain entries inside a walk with fuel. *)
Lemma updateExifOffsets_plain (fuel : nat) (k : nat) (b : bytes) (pos : Z) (be : bool) :
  0 ≤ pos → pos + 12 * Z.of_nat k ≤ Z.of_nat (length b) →
  (∀ i : nat, (i < k)%nat → isPointerEntry b (pos + 12 * Z.of_nat i) be = false) →
  ∃ b', updateExifOffsets (S fuel) b pos (Z.of_nat k) be = Ret b' ∧ walked b b' be pos k.
Proof.
  intros Hlo Hhi Hplain. simpl. rewrite Nat2Z.id. by apply updateEntries_plain.
Qed.

(** The SubIFD pointer entry: the SubIFD is walked, then the pointer is
    advanced. *)
Lemma updateEntry_pointer (fuel : nat) (b : bytes) (pos s : Z) (m : nat) (be : bool) :
  0 ≤ pos → pos + 12 ≤ Z.of_nat (length b) →
  isPointerEntry b pos be = true →
  readValue b (pos + 8) 4 be = Ret s →
  pos + 12 ≤ s + 18 → s + 18 < 2 ^ 31 →
  readValue b (s + 18) 2 be = Ret (Z.of_nat m) →
  s + 20 + 12 * Z.of_nat m ≤ Z.of_nat (length b) →
  (∀ k : nat, (k < m)%nat → isPointerEntry b (s + 20 + 12 * Z.of_nat k) be = false) →
  ∃ b1 b',
    updateEntry
      (λ e p, num ← readValue e p 2 be; updateExifOffsets (S fuel) e (p + 2) num be)
      b pos be = Ret b'
    ∧ walked b b1 be (s + 20) m
    ∧ unchangedOutside (pos + 8) (pos + 12) b1 b'
    ∧ readValue b' (pos + 8) 4 be = Ret (int32 (s + 12)).
Proof.
  intros Hlo Hhi Hptr Hs Hafter Hint Hm Hsub Hplain.
  unfold updateEntry. apply isPointerEntry_true in Hptr.
  rewrite Hptr, bind_Ret_l, decide_True by done.
  rewrite Hs, bind_Ret_l. unfold EXIF_J_R_ENTRY_LENGTH.
  rewrite (int32_id (s + 6)) by lia.
  rewrite (int32_id (s + 6 + 12)) by lia.
  replace (s + 6 + 12) with (s + 18) by lia.
  rewrite Hm, bind_Ret_l.
  replace (s + 18 + 2) with (s + 20) by lia.
  destruct (updateExifOffsets_plain fuel m b (s + 20) be) as (b1 & Hb1 & Hw); [lia|lia|done|].
  rewrite Hb1, bind_Ret_l.
  pose proof (walked_coarse _ _ _ _ _ Hw) as Hc.
  destruct (bumpOffset_spec b1 pos be) as (v & b' & Hv & Hb' & Hun & Hr).
  { lia. } { destruct Hw as [-> _]. lia. }
  exists b1, b'. split; [done|]. split; [done|]. split; [done|].
  rewrite (readValue_frame _ _ _ _ _ _ _ Hc) in Hv by lia.
  rewrite Hs in Hv. injection Hv as <-. done.
Qed.

Lemma updateExifOffsets_directory (fuel : nat) (b : bytes) (be : bool) (pos : Z)
    (n j : nat) (s : Z) (m : nat) :
  directoryShape b be pos n j s m →
  ∃ out, updateExifOffsets (S (S fuel)) b pos (Z.of_nat n) be = Ret out
         ∧ offsetsAdvanced b out be pos n j s m.
Proof.
  intros (Hpos & Hend & Hint & Hplain & Hptr).
  destruct (decide (j < n)%nat) as [Hj|Hj].
  2:{ destruct (updateExifOffsets_plain (S fuel) n b pos be) as (out & Hout & Hw);
        [done|done| |].
      { intros i Hi. apply Hplain; lia. }
      exists out. split; [done|]. destruct Hw as (Hlen & Hframe & Hval).
      split; [done|]. split; [auto|]. split; [|lia].
      intros i Hi Hoff. apply Hval; done. }
  destruct (Hptr Hj) as (Hpj & Hs & Hafter & Hm & Hsubend & Hsubplain). clear Hptr.
  set (pj := pos + 12 * Z.of_nat j) in *.
  set (r := (n - j - 1)%nat).
  set (ps := pos + 12 * Z.of_nat (j + 1)).
  assert (ps = pj + 12) as Hps by (unfold ps, pj; lia).
  assert (pos + 12 * Z.of_nat n = ps + 12 * Z.of_nat r) as Hn by (unfold ps, r; lia).
  rewrite updateExifOffsets_S, Nat2Z.id.
  set (sub := λ (e : bytes) (p : Z),
         num ← readValue e p 2 be; updateExifOffsets (S fuel) e (p + 2) num be).
  rewrite (updateEntries_split sub n j (1 + r)) by (unfold r; lia).
  (* the entries before the pointer *)
  destruct (updateEntries_plain sub j b pos be) as (b1 & Hb1 & W1); [done|lia| |].
  { intros i Hi. apply Hplain; lia. }
  rewrite Hb1, bind_Ret_l. fold pj.
  pose proof (walked_coarse _ _ _ _ _ W1) as F1. fold pj in F1.
  assert (length b1 = length b) as Hl1 by apply W1.
  (* the pointer and its SubIFD *)
  destruct (updateEntry_pointer fuel b1 pj s m be) as (b2 & b3 & Hb3 & W2 & F3 & Hv3).
  { lia. } { lia. }
  { rewrite (frame_isPointerEntry _ _ _ _ _ _ F1); [done|lia]. }
  { rewrite (readValue_frame _ _ _ _ _ _ _ F1); [done|lia]. }
  { lia. } { lia. }
  { rewrite (readValue_frame _ _ _ _ _ _ _ F1); [done|lia]. }
  { lia. }
  { intros k Hk. rewrite (frame_isPointerEntry _ _ _ _ _ _ F1); [by apply Hsubplain|lia]. }
  fold sub in Hb3. rewrite (updateEntries_app sub 1 r).
  change (updateEntries sub 1 b1 pj be) with
    (updateEntry sub b1 pj be ≫= λ e, Ret e).
  rewrite Hb3, !bind_Ret_l.
  pose proof (walked_coarse _ _ _ _ _ W2) as F2.
  assert (length b2 = length b1) as Hl2 by apply W2.
  assert (length b3 = length b2) as Hl3 by apply F3.
  (* the entries after the pointer *)
  replace (pj + 12 * Z.of_nat 1) with ps by lia.
  destruct (updateEntries_plain sub r b3 ps be) as (out & Hout & W3); [lia|lia| |].
  { intros i Hi.
    rewrite (frame_isPointerEntry _ _ _ _ _ _ F3) by lia.
    rewrite (frame_isPointerEntry _ _ _ _ _ _ F2) by lia.
    rewrite (frame_isPointerEntry _ _ _ _ _ _ F1) by lia.
    replace (ps + 12 * Z.of_nat i) with (pos + 12 * Z.of_nat (j + 1 + i)) by (unfold ps; lia).
    apply Hplain; lia. }
  rewrite Hout.
  pose proof (walked_coarse _ _ _ _ _ W3) as F4.
  assert (length out = length b3) as Hl4 by apply W3.
  exists out. split; [done|].
  (* entry headers are the same in every intermediate buffer *)
  assert (∀ p, (p + 8 ≤ pos + 8 ∨ pj ≤ p) → isOffsetEntry b1 p be = isOffsetEntry b p be) as O1.
  { intros p Hp. apply (frame_isOffsetEntry _ _ _ _ _ _ F1). lia. }
  assert (∀ i : nat, isOffsetEntry b1 (pos + 12 * Z.of_nat i) be
                     = isOffsetEntry b (pos + 12 * Z.of_nat i) be) as O1'.
  { intros i. symmetry. apply isOffsetEntry_ext. eapply walked_header. exact W1. }
  assert (∀ p, (p + 8 ≤ s + 28 ∨ s + 20 + 12 * Z.of_nat m ≤ p) →
               isOffsetEntry b2 p be = isOffsetEntry b1 p be) as O2.
  { intros p Hp. apply (frame_isOffsetEntry _ _ _ _ _ _ F2). lia. }
  assert (∀ p, (p + 8 ≤ pj + 8 ∨ pj + 12 ≤ p) →
               isOffsetEntry b3 p be = isOffsetEntry b2 p be) as O3.
  { intros p Hp. apply (frame_isOffsetEntry _ _ _ _ _ _ F3). lia. }
  split; [congruence|]. split; [|split].
  - (* bytes outside the offset fields *)
    intros x Hx0 Hxs.
    destruct W1 as (_ & Wf1 & _). destruct W2 as (_ & Wf2 & _). destruct W3 as (_ & Wf3 & _).
    destruct F3 as [_ Ff3].
    rewrite Wf3, Ff3, Wf2, Wf1; [done| | | |].
    + intros (i & Hi & Hoff & Hr). apply Hx0. exists i. split; [lia|]. split; done.
    + intros (k & Hk & Hoff & Hr). apply Hxs. split; [done|]. exists k.
      split; [done|]. split; [|done]. rewrite <- Hoff. symmetry. apply O1. lia.
    + intros Hr. apply Hx0. exists j. fold pj. split; [done|]. split; [|done].
      unfold isOffsetEntry. by rewrite Hpj.
    + intros (i & Hi & Hoff & Hr). apply Hx0. exists (j + 1 + i)%nat.
      replace (pos + 12 * Z.of_nat (j + 1 + i)) with (ps + 12 * Z.of_nat i)
        by (unfold ps; lia).
      split; [unfold r in Hi; lia|]. split; [|done]. rewrite <- Hoff.
      rewrite O3, O2 by lia.
      replace (ps + 12 * Z.of_nat i) with (pos + 12 * Z.of_nat (j + 1 + i))
        by (unfold ps; lia).
      symmetry. apply O1'.
  - (* the entries of the directory *)
    intros i Hi Hoff.
    destruct (decide (i < j)%nat) as [Hlt|Hge]; [|destruct (decide (i = j)) as [->|Hne]].
    + destruct W1 as (_ & _ & Wv1). destruct (Wv1 i Hlt Hoff) as (v & Hv & Hv1).
      exists v. split; [done|]. rewrite <- Hv1.
      rewrite (readValue_frame _ _ _ _ _ _ _ F4) by lia.
      rewrite (readValue_frame _ _ _ _ _ _ _ F3) by lia.
      rewrite (readValue_frame _ _ _ _ _ _ _ F2) by lia. done.
    + fold pj. exists s. split; [done|]. rewrite <- Hv3.
      rewrite (readValue_frame _ _ _ _ _ _ _ F4) by lia. done.
    + destruct W3 as (_ & _ & Wv3).
      replace (pos + 12 * Z.of_nat i) with (ps + 12 * Z.of_nat (i - j - 1)) in *
        by (unfold ps; lia).
      destruct (Wv3 (i - j - 1)%nat) as (v & Hv & Hv4); [unfold r; lia| |].
      { rewrite O3, O2 by lia. rewrite <- Hoff.
        replace (ps + 12 * Z.of_nat (i - j - 1)) with (pos + 12 * Z.of_nat i)
          by (unfold ps; lia).
        apply O1'. }
      exists v. split; [|done]. rewrite <- Hv.
      rewrite (readValue_frame _ _ _ _ _ _ _ F3) by lia.
      rewrite (readValue_frame _ _ _ _ _ _ _ F2) by lia.
      rewrite (readValue_frame _ _ _ _ _ _ _ F1) by lia. done.
  - (* the entries of the SubIFD *)
    intros _ k Hk Hoff.
    destruct W2 as (_ & _ & Wv2). destruct (Wv2 k Hk) as (v & Hv & Hv2).
    { rewrite <- Hoff. apply O1. lia. }
    exists v. split.
    + rewrite <- Hv. rewrite (readValue_frame _ _ _ _ _ _ _ F1) by lia. done.
    + rewrite <- Hv2.
      rewrite (readValue_frame _ _ _ _ _ _ _ F4) by lia.
      rewrite (readValue_frame _ _ _ _ _ _ _ F3) by lia. done.
Qed.

Lemma memcpy_at (pre rest src : bytes) (pos n : Z) :
  pos = Z.of_nat (length pre) →
  0 ≤ n ≤ Z.of_nat (length src) → n ≤ Z.of_nat (length rest) →
  memcpy (pre ++ rest) pos src n
  = Ret (pre ++ take (Z.to_nat n) src ++ drop (Z.to_nat n) rest).
Proof.
  intros -> Hn Hrest. unfold memcpy. rewrite decide_True.
  - rewrite Nat2Z.id, take_app_length. do 3 f_equal.
    rewrite Z2Nat.inj_add, Nat2Z.id by lia. rewrite drop_app_add. done.
  - rewrite length_app. lia.
Qed.

(** A copy that continues where the previous ones stopped: the destination
    holds [pre] so far and its own bytes behind it. *)
Lemma Write_extend (dest pre src : bytes) (n pos : Z) :
  pos = Z.of_nat (length pre) →
  0 ≤ n ≤ Z.of_nat (length src) →
  pos + n ≤ Z.of_nat (length dest) →
  Write (pre ++ drop (length pre) dest) src n pos
  = Ret (NO_ERROR,
         (pre ++ take (Z.to_nat n) src)
           ++ drop (length (pre ++ take (Z.to_nat n) src)) dest,
         pos + n).
Proof.
  intros -> Hn Hdest. unfold Write.
  rewrite memcpy_at; [|done|done|rewrite length_drop; lia].
  rewrite bind_Ret_l. do 2 f_equal.
  rewrite <- app_assoc. do 2 f_equal.
  rewrite drop_drop, length_app, length_take. f_equal. f_equal. lia.
Qed.

Lemma updateExifBody_layout (fuel : nat) (d dest : bytes) (be : bool) (lo hi : Z) :
  16 ≤ Z.of_nat (length d) →
  Z.of_nat (length d) + 12 ≤ Z.of_nat (length dest) →
  updateExifBody fuel d (Z.of_nat (length d)) dest be lo hi =
  updateExifOffsets fuel
    (exifLayout d dest be (Z.lor (Z.shiftl hi 8) lo + 1)) 28
    (Z.lor (Z.shiftl hi 8) lo + 1 - 1) be
  ≫= λ dest', Ret (NO_ERROR, dest').
Proof.
  intros Hd Hdest. unfold updateExifBody, exifLayout, countBytes.
  unfold EXIF_J_R_ENTRY_LENGTH.
  set (c := Z.lor (Z.shiftl hi 8) lo + 1).
  change (Write dest d 14 0) with (Write ([] ++ drop (length (@nil Z)) dest) d 14 0).
  destruct be.
  - do 5 (rewrite Write_extend
            by (rewrite ?length_app, ?length_take, ?length_drop; cbn [length jrEntry]; lia);
          rewrite bind_Ret_l; cbv beta iota).
    do 2 f_equal.
    rewrite (take_ge (drop 16 d)) by (rewrite length_drop; lia).
    rewrite !length_app, !length_take, length_drop. cbn [length jrEntry].
    change (Z.to_nat 14) with 14%nat. change (Z.to_nat 1) with 1%nat.
    change (Z.to_nat 12) with 12%nat. cbn [take].
    rewrite <- !app_assoc. cbn [app].
    assert ((0 + 14 `min` length d + 1 `min` 1 + 1 `min` 1 + 12 `min` 12
             + (length d - 16))%nat = (length d + 12)%nat) as -> by lia.
    done.
  - do 5 (rewrite Write_extend
            by (rewrite ?length_app, ?length_take, ?length_drop; cbn [length jrEntry]; lia);
          rewrite bind_Ret_l; cbv beta iota).
    do 2 f_equal.
    rewrite (take_ge (drop 16 d)) by (rewrite length_drop; lia).
    rewrite !length_app, !length_take, length_drop. cbn [length jrEntry].
    change (Z.to_nat 14) with 14%nat. change (Z.to_nat 1) with 1%nat.
    change (Z.to_nat 12) with 12%nat. cbn [take].
    rewrite <- !app_assoc. cbn [app].
    assert ((0 + 14 `min` length d + 1 `min` 1 + 1 `min` 1 + 12 `min` 12
             + (length d - 16))%nat = (length d + 12)%nat) as -> by lia.
    done.
Qed.

(** ** The laid-out destination *)

Section Layout.
Variables (d dest : bytes) (be : bool) (c : Z).
Hypothesis Hd : 16 ≤ Z.of_nat (length d).
Hypothesis Hdest : Z.of_nat (length d) + 12 ≤ Z.of_nat (length dest).

Lemma exifLayout_length : length (exifLayout d dest be c) = length dest.
Proof.
  unfold exifLayout. rewrite !length_app, length_take, !length_drop.
  assert (length (countBytes be c) = 2%nat) as -> by (by destruct be).
  assert (length (jrEntry be) = 12%nat) as -> by (by destruct be). lia.
Qed.

Lemma exifLayout_head : take 14 (exifLayout d dest be c) = take 14 d.
Proof.
  unfold exifLayout. rewrite take_app_le by (rewrite length_take; lia).
  rewrite take_take. f_equal.
Qed.

Lemma exifLayout_count : take 2 (drop 14 (exifLayout d dest be c)) = countBytes be c.
Proof.
  unfold exifLayout.
  rewrite drop_app_length' by (rewrite length_take; lia).
  rewrite take_app_length'; [done|by destruct be].
Qed.

Lemma exifLayout_entry : take 12 (drop 16 (exifLayout d dest be c)) = jrEntry be.
Proof.
  unfold exifLayout. rewrite app_assoc.
  rewrite drop_app_length'.
  - rewrite take_app_length'; [done|by destruct be].
  - rewrite length_app, length_take.
    assert (length (countBytes be c) = 2%nat) as -> by (by destruct be). lia.
Qed.

(** Past the inserted entry the payload follows, 12 bytes further on. *)
Lemma exifLayout_tail (x : nat) :
  (16 ≤ x)%nat → (x < length d)%nat → exifLayout d dest be c !! (x + 12)%nat = d !! x.
Proof.
  intros Hx Hxd. unfold exifLayout. rewrite !app_assoc.
  rewrite <- (app_assoc _ (drop 16 d)).
  rewrite lookup_app_r.
  - rewrite !length_app, length_take.
    assert (length (countBytes be c) = 2%nat) as -> by (by destruct be).
    assert (length (jrEntry be) = 12%nat) as -> by (by destruct be).
    rewrite lookup_app_l by (rewrite length_drop; lia).
    rewrite lookup_drop. f_equal. lia.
  - rewrite !length_app, length_take.
    assert (length (countBytes be c) = 2%nat) as -> by (by destruct be).
    assert (length (jrEntry be) = 12%nat) as -> by (by destruct be). lia.
Qed.

Lemma exifLayout_rest (x : nat) :
  (length d + 12 ≤ x)%nat → exifLayout d dest be c !! x = dest !! x.
Proof.
  intros Hx. unfold exifLayout. rewrite !app_assoc.
  rewrite lookup_app_r.
  - rewrite !length_app, length_take, length_drop.
    assert (length (countBytes be c) = 2%nat) as -> by (by destruct be).
    assert (length (jrEntry be) = 12%nat) as -> by (by destruct be).
    rewrite lookup_drop. f_equal. lia.
  - rewrite !length_app, length_take, length_drop.
    assert (length (countBytes be c) = 2%nat) as -> by (by destruct be).
    assert (length (jrEntry be) = 12%nat) as -> by (by destruct be). lia.
Qed.

Lemma readValue_layout (p len : Z) :
  16 ≤ p → p + len ≤ Z.of_nat (length d) →
  readValue (exifLayout d dest be c) (p + 12) len be = readValue d p len be.
Proof.
  intros Hp Hlen.
  assert (∀ i, p ≤ i < p + len →
            loadByte (exifLayout d dest be c) (i + 12) = loadByte d i) as Hload.
  { intros i Hi. unfold loadByte. rewrite !decide_True by lia.
    replace (Z.to_nat (i + 12)) with (Z.to_nat i + 12)%nat by lia.
    rewrite exifLayout_tail by lia. done. }
  unfold readValue.
  destruct (decide (len = 2)) as [->|]; [|destruct (decide (len = 4)) as [->|]; [|done]].
  - replace (p + 12 + 1) with (p + 1 + 12) by lia.
    rewrite !Hload by lia. done.
  - replace (p + 12 + 1) with (p + 1 + 12) by lia.
    replace (p + 12 + 2) with (p + 2 + 12) by lia.
    replace (p + 12 + 3) with (p + 3 + 12) by lia.
    rewrite !Hload by lia. done.
Qed.

Lemma isPointerEntry_layout (p : Z) :
  16 ≤ p → p + 12 ≤ Z.of_nat (length d) →
  isPointerEntry (exifLayout d dest be c) (p + 12) be = isPointerEntry d p be.
Proof. intros Hp Hl. unfold isPointerEntry. rewrite readValue_layout by lia. done. Qed.

Lemma isOffsetEntry_layout (p : Z) :
  16 ≤ p → p + 12 ≤ Z.of_nat (length d) →
  isOffsetEntry (exifLayout d dest be c) (p + 12) be = isOffsetEntry d p be.
Proof.
  intros Hp Hl. unfold isOffsetEntry, needsUpdate. rewrite isPointerEntry_layout by lia.
  replace (p + 12 + 2) with (p + 2 + 12) by lia.
  replace (p + 12 + 4) with (p + 4 + 12) by lia.
  rewrite !readValue_layout by lia. done.
Qed.

End Layout.

Lemma readValue2_bytes (d : bytes) (pos v : Z) (be : bool) :
  readValue d pos 2 be = Ret v →
  ∃ b0 b1, loadByte d pos = Ret b0 ∧ loadByte d (pos + 1) = Ret b1
           ∧ v = (if be then Z.lor (Z.shiftl b0 8) b1 else Z.lor (Z.shiftl b1 8) b0).
Proof.
  unfold readValue. simpl. intros H.
  bind_inv H as b0 Hb0. bind_inv H as b1 Hb1. injection H as <-. eauto.
Qed.

Lemma updateExif_wellFormed (fuel : nat) (d dest : bytes) (be : bool) (n j : nat) (s : Z)
    (m : nat) :
  wellFormedExif d be n j s m →
  Z.of_nat (length d) + 12 ≤ Z.of_nat (length dest) →
  Z.of_nat (length dest) < 2 ^ 31 →
  ∃ out,
    updateExif (S (S fuel)) (exifOf d) dest = Ret (NO_ERROR, out)
    ∧ offsetsAdvanced (exifLayout d dest be (Z.of_nat n + 1)) out be 28 n j s m.
Proof.
  intros (Hmark & Hn & Hend & Hplain & Hptr) Hcap Hint.
  assert (16 ≤ Z.of_nat (length d)) as Hd by lia.
  set (L := exifLayout d dest be (Z.of_nat n + 1)).
  assert (directoryShape L be 28 n j s m) as Hshape.
  { split; [lia|]. unfold L. rewrite exifLayout_length by done.
    split; [lia|]. split; [done|]. split.
    - intros i Hi Hne. destruct (Hplain i Hi Hne) as [Hp _].
      replace (28 + 12 * Z.of_nat i) with (16 + 12 * Z.of_nat i + 12) by lia.
      rewrite isPointerEntry_layout by lia. done.
    - intros Hj. destruct (Hptr Hj) as (Hp & Hs & Hafter & Hm & Hsub & Hsp).
      replace (28 + 12 * Z.of_nat j) with (16 + 12 * Z.of_nat j + 12) by lia.
      rewrite isPointerEntry_layout by lia.
      replace (16 + 12 * Z.of_nat j + 12 + 8) with (16 + 12 * Z.of_nat j + 8 + 12) by lia.
      rewrite readValue_layout by lia.
      replace (s + 18) with (s + 6 + 12) by lia.
      rewrite readValue_layout by lia.
      repeat split; try done; try lia.
      intros k Hk. destruct (Hsp k Hk) as [Hpk _].
      replace (s + 6 + 12 + 2 + 12 * Z.of_nat k) with (s + 8 + 12 * Z.of_nat k + 12) by lia.
      replace (s + 20 + 12 * Z.of_nat k) with (s + 8 + 12 * Z.of_nat k + 12) by lia.
      rewrite isPointerEntry_layout by lia. done. }
  destruct (updateExifOffsets_directory fuel L be 28 n j s m Hshape) as (out & Hout & Hadv).
  exists out. split; [|done].
  unfold updateExif, exifOf. cbn [mbind option_bind jpegr_exif.data from_option jpegr_exif.length].
  rewrite Hmark, bind_Ret_l.
  destruct (readValue2_bytes _ _ _ _ Hn) as (b0 & b1 & Hb0 & Hb1 & Hv).
  change (14 + 1) with 15 in Hb1.
  destruct be.
  - rewrite decide_False by done. rewrite decide_True by done.
    rewrite Hb0, bind_Ret_l, Hb1, bind_Ret_l.
    rewrite updateExifBody_layout by done.
    rewrite <- Hv. replace (Z.of_nat n + 1 - 1) with (Z.of_nat n) by lia.
    fold L. rewrite Hout. done.
  - rewrite decide_True by done.
    rewrite Hb0, bind_Ret_l, Hb1, bind_Ret_l.
    rewrite updateExifBody_layout by done.
    rewrite <- Hv. replace (Z.of_nat n + 1 - 1) with (Z.of_nat n) by lia.
    fold L. rewrite Hout. done.
Qed.

Lemma take_drop_frame (a k : nat) (b b' : bytes) :
  (∀ x : nat, (a ≤ x < a + k)%nat → b' !! x = b !! x) →
  take k (drop a b') = take k (drop a b).
Proof.
  intros Hsame. apply list_eq. intros i.
  destruct (decide (i < k)%nat).
  - rewrite !lookup_take_lt, !lookup_drop by done. apply Hsame. lia.
  - rewrite !lookup_take_ge by lia. done.
Qed.

Lemma readValue_countBytes (b : bytes) (be : bool) (c : Z) :
  take 2 (drop 14 b) = countBytes be c →
  readValue b 14 2 be = Ret (c mod 65536).
Proof.
  intros Hc.
  assert (b !! 14%nat = countBytes be c !! 0%nat) as H14.
  { rewrite <- Hc, lookup_take_lt, lookup_drop by lia. done. }
  assert (b !! 15%nat = countBytes be c !! 1%nat) as H15.
  { rewrite <- Hc, lookup_take_lt, lookup_drop by lia. done. }
  assert (∀ x y, b !! 14%nat = Some x → b !! 15%nat = Some y →
            readValue b 14 2 be
            = Ret (if be then Z.lor (Z.shiftl (x mod 256) 8) (y mod 256)
                   else Z.lor (Z.shiftl (y mod 256) 8) (x mod 256))) as Hread.
  { intros x y Hx Hy.
    assert (loadByte b 14 = Ret (x mod 256)) as L14 by (apply loadByte_Ret; eauto with lia).
    assert (loadByte b (14 + 1) = Ret (y mod 256)) as L15
      by (apply loadByte_Ret; eauto with lia).
    unfold readValue. rewrite decide_True by done.
    rewrite L14, bind_Ret_l, L15, bind_Ret_l. done. }
  destruct be; cbn [countBytes lookup list_lookup] in H14, H15;
    rewrite (Hread _ _ H14 H15); f_equal;
    rewrite !land_255, !Z.mod_mod by lia;
    rewrite lor_bytes2 by apply byte_mod_range;
    rewrite Z.shiftr_div_pow2 by lia;
    change (2 ^ 8) with 256; Z.div_mod_to_equations; lia.
Qed.

(** The fields of the inserted entry as [readValue] gives them.  The
    format, the count and the value are laid out in the byte order of the
    payload; the two tag bytes are 4A 52 in either order. *)
Lemma jrEntry_fields (b : bytes) (be : bool) :
  take 12 (drop 16 b) = jrEntry be →
  readValue b 16 2 be = Ret (if be then 0x4A52 else 0x524A)
  ∧ readValue b 18 2 be = Ret 7
  ∧ readValue b 20 4 be = Ret 1
  ∧ readValue b 24 4 be = Ret 0.
Proof.
  intros Hjr.
  assert (agree 16 28 (replicate 16 0 ++ jrEntry be) b) as Hag.
  { intros x Hx _. rewrite lookup_app_r by (rewrite length_replicate; lia).
    rewrite length_replicate, <- Hjr, lookup_take_lt, lookup_drop by lia. f_equal. lia. }
  assert (∀ pos len, 16 ≤ pos → pos + len ≤ 28 →
            readValue b pos len be = readValue (replicate 16 0 ++ jrEntry be) pos len be)
    as Hread.
  { intros pos len Hlo Hhi. symmetry. apply readValue_ext. eapply agree_mono; eauto; lia. }
  rewrite !Hread by lia. by destruct be.
Qed.

Section Patched.
Variables (d dest : bytes) (be : bool) (n j : nat) (s : Z) (m : nat).
Hypothesis Hwf : wellFormedExif d be n j s m.

Let L := exifLayout d dest be (Z.of_nat n + 1).

Lemma wellFormed_length : 16 ≤ Z.of_nat (length d).
Proof. destruct Hwf as (_ & _ & ? & _). lia. Qed.

(** An offset field of the laid-out destination is an offset field of the
    payload, 12 bytes further on: for IFD0 and for the SubIFD. *)
Lemma layout_offset_field (x : nat) :
  inOffsetField L be 28 n (Z.of_nat x + 12) → inOffsetField d be 16 n (Z.of_nat x).
Proof.
  pose proof wellFormed_length as Hd. destruct Hwf as (_ & _ & Hend & _).
  intros (i & Hi & Hoff & Hr). exists i. split; [done|]. split; [|lia].
  rewrite <- Hoff. unfold L.
  replace (28 + 12 * Z.of_nat i) with (16 + 12 * Z.of_nat i + 12) by lia.
  rewrite isOffsetEntry_layout by lia. done.
Qed.

Lemma layout_sub_offset_field (x : nat) :
  (j < n)%nat →
  inOffsetField L be (s + 20) m (Z.of_nat x + 12) → inOffsetField d be (s + 8) m (Z.of_nat x).
Proof.
  pose proof wellFormed_length as Hd. destruct Hwf as (_ & _ & Hend & _ & Hptr).
  intros Hj. destruct (Hptr Hj) as (_ & _ & Hafter & _ & Hsub & _).
  intros (k & Hk & Hoff & Hr). exists k. split; [done|]. split; [|lia].
  rewrite <- Hoff. unfold L.
  replace (s + 20 + 12 * Z.of_nat k) with (s + 8 + 12 * Z.of_nat k + 12) by lia.
  rewrite isOffsetEntry_layout by lia. done.
Qed.

End Patched.

(** C2, as amended.  Let the payload [d] have the shape [wellFormedExif]:
    a byte-order mark, [n] IFD0 entries of which at most one (entry [j]) is
    the Exif SubIFD pointer, whose SubIFD lies behind IFD0 and holds [m]
    entries, none of them a pointer, all formats in the table.  Let the
    destination have room for the payload and 12 bytes more.  Then
    [updateExif] succeeds, and every entry of IFD0 and of the SubIFD whose
    value field is an offset (tag 0x8769, or format width times count above
    4) stands 12 bytes further on in the output with a value field that
    holds the stored value plus 12 as a 32-bit integer.  For the 0x8769
    entry holding [s], the SubIFD is read at position [s + 6 + 12] of the
    output: the two bytes there are its entry count [m]. *)
Theorem updateExif_offsets (fuel : nat) (d dest : bytes) (be : bool) (n j : nat) (s : Z)
    (m : nat) :
  wellFormedExif d be n j s m →
  Z.of_nat (length d) + 12 ≤ Z.of_nat (length dest) →
  Z.of_nat (length dest) < 2 ^ 31 →
  ∃ out,
    updateExif (S (S fuel)) (exifOf d) dest = Ret (NO_ERROR, out)
    ∧ (∀ i : nat, (i < n)%nat →
         isOffsetEntry d (16 + 12 * Z.of_nat i) be = true →
         ∃ v, readValue d (16 + 12 * Z.of_nat i + 8) 4 be = Ret v
              ∧ readValue out (16 + 12 * Z.of_nat i + 8 + 12) 4 be = Ret (int32 (v + 12)))
    ∧ ((j < n)%nat →
         readValue out (s + 6 + 12) 2 be = Ret (Z.of_nat m)
         ∧ ∀ k : nat, (k < m)%nat →
             isOffsetEntry d (s + 8 + 12 * Z.of_nat k) be = true →
             ∃ v, readValue d (s + 8 + 12 * Z.of_nat k + 8) 4 be = Ret v
                  ∧ readValue out (s + 8 + 12 * Z.of_nat k + 8 + 12) 4 be
                    = Ret (int32 (v + 12))).
Proof.
  intros Hwf Hcap Hint.
  pose proof (wellFormed_length d be n j s m Hwf) as Hd.
  destruct (updateExif_wellFormed fuel d dest be n j s m Hwf Hcap Hint)
    as (out & Hout & Hlen & Hframe & Hifd & Hsub).
  set (L := exifLayout d dest be (Z.of_nat n + 1)) in *.
  destruct Hwf as (_ & _ & Hend & _ & Hptr).
  exists out. split; [done|]. split.
  - intros i Hi Hoff. destruct (Hifd i Hi) as (v & Hv & Hv').
    { unfold L. replace (28 + 12 * Z.of_nat i) with (16 + 12 * Z.of_nat i + 12) by lia.
      rewrite isOffsetEntry_layout by lia. done. }
    exists v. split.
    + rewrite <- Hv. unfold L.
      replace (28 + 12 * Z.of_nat i + 8) with (16 + 12 * Z.of_nat i + 8 + 12) by lia.
      rewrite readValue_layout by lia. done.
    + rewrite <- Hv'. f_equal. lia.
  - intros Hj. destruct (Hptr Hj) as (_ & _ & Hafter & Hm & Hsubend & _). split.
    + rewrite <- Hm. rewrite <- (readValue_layout d dest be (Z.of_nat n + 1)) by lia.
      fold L. apply readValue_ext. intros x Hx Hx0.
      replace x with (Z.of_nat (Z.to_nat x)) in Hx by lia.
      apply Hframe.
      * intros (i & Hi & _ & Hr). lia.
      * intros (_ & k & Hk & _ & Hr). lia.
    + intros k Hk Hoff. destruct (Hsub Hj k Hk) as (v & Hv & Hv').
      { unfold L. replace (s + 20 + 12 * Z.of_nat k) with (s + 8 + 12 * Z.of_nat k + 12) by lia.
        rewrite isOffsetEntry_layout by lia. done. }
      exists v. split.
      * rewrite <- Hv. unfold L.
        replace (s + 20 + 12 * Z.of_nat k + 8) with (s + 8 + 12 * Z.of_nat k + 8 + 12) by lia.
        rewrite readValue_layout by lia. done.
      * rewrite <- Hv'. f_equal. lia.
Qed.

(** C4, as amended.  For a payload [d] of the shape [wellFormedExif] and a
    destination with room for it and 12 bytes more, [updateExif] succeeds
    and the output has the bytes [0,14) of the payload; in bytes [14,16) the
    low 16 bits of the IFD0 entry count plus one, in the detected byte
    order; in bytes [16,28) an entry whose format reads 7, whose count
    reads 1 and whose value reads 0 in that byte order, and whose tag reads
    0x4A52 when the payload is big-endian (the statement is silent on the
    tag of a little-endian payload); and from byte 28 on, every byte of the
    payload from byte 16 on that lies outside the value fields of the offset
    entries of IFD0 and of the Exif SubIFD, each 12 positions further on. *)
Theorem updateExif_layout (fuel : nat) (d dest : bytes) (be : bool) (n j : nat) (s : Z)
    (m : nat) :
  wellFormedExif d be n j s m →
  Z.of_nat (length d) + 12 ≤ Z.of_nat (length dest) →
  Z.of_nat (length dest) < 2 ^ 31 →
  ∃ out,
    updateExif (S (S fuel)) (exifOf d) dest = Ret (NO_ERROR, out)
    ∧ length out = length dest
    ∧ take 14 out = take 14 d
    ∧ take 2 (drop 14 out) = countBytes be (Z.of_nat n + 1)
    ∧ readValue out 14 2 be = Ret ((Z.of_nat n + 1) mod 65536)
    ∧ (be = true → readValue out 16 2 be = Ret 0x4A52)
    ∧ readValue out 18 2 be = Ret 0x0007
    ∧ readValue out 20 4 be = Ret 0x00000001
    ∧ readValue out 24 4 be = Ret 0x00000000
    ∧ (∀ x : nat,
         (16 ≤ x < length d)%nat →
         ¬ inOffsetField d be 16 n (Z.of_nat x) →
         ¬ ((j < n)%nat ∧ inOffsetField d be (s + 8) m (Z.of_nat x)) →
         out !! (x + 12)%nat = d !! x).
Proof.
  intros Hwf Hcap Hint.
  pose proof (wellFormed_length d be n j s m Hwf) as Hd.
  destruct (updateExif_wellFormed fuel d dest be n j s m Hwf Hcap Hint)
    as (out & Hout & Hlen & Hframe & _).
  set (L := exifLayout d dest be (Z.of_nat n + 1)) in *.
  assert (∀ x : nat, (x < 28)%nat → out !! x = L !! x) as Hlow.
  { intros x Hx. apply Hframe.
    - intros (i & _ & _ & Hr). lia.
    - intros (Hj & k & _ & _ & Hr).
      destruct Hwf as (_ & _ & _ & _ & Hptr). destruct (Hptr Hj) as (_ & _ & ? & _). lia. }
  assert (take 2 (drop 14 out) = countBytes be (Z.of_nat n + 1)) as Hcount.
  { rewrite <- (exifLayout_count d dest be (Z.of_nat n + 1)) by done.
    apply take_drop_frame. intros x Hx. apply Hlow. lia. }
  assert (take 12 (drop 16 out) = jrEntry be) as Hentry.
  { rewrite <- (exifLayout_entry d dest be (Z.of_nat n + 1)) by done.
    apply take_drop_frame. intros x Hx. apply Hlow. lia. }
  destruct (jrEntry_fields out be Hentry) as (Htag & Hformat & Hnum & Hvalue).
  exists out. split; [done|].
  split; [|split; [|split; [|split; [|split; [|split; [|split; [|split]]]]]]].
  - rewrite Hlen. unfold L. by apply exifLayout_length.
  - rewrite <- (exifLayout_head d dest be (Z.of_nat n + 1)) by done.
    apply (take_drop_frame 0 14). intros x Hx. apply Hlow. lia.
  - done.
  - by apply readValue_countBytes.
  - intros ->. exact Htag.
  - exact Hformat.
  - exact Hnum.
  - exact Hvalue.
  - intros x Hx Hno Hnosub.
    rewrite <- (exifLayout_tail d dest be (Z.of_nat n + 1)) by lia. fold L.
    apply Hframe.
    + intros Hin. apply Hno. apply (layout_offset_field d dest be n j s m Hwf).
      replace (Z.of_nat x + 12) with (Z.of_nat (x + 12)) by lia. done.
    + intros [Hj Hin]. apply Hnosub. split; [done|].
      apply (layout_sub_offset_field d dest be n j s m Hwf); [done|].
      replace (Z.of_nat x + 12) with (Z.of_nat (x + 12)) by lia. done.
Qed.

(** ** The status of [updateExif] *)

Lemma Write_status (dest src : bytes) (n pos : Z) (st : status_t) (dest' : bytes) (pos' : Z) :
  Write dest src n pos = Ret (st, dest', pos') → st = NO_ERROR.
Proof.
  unfold Write. intros H. bind_inv H as d0 Hd0. by injection H as <- _ _.
Qed.

Lemma updateExifBody_status (fuel : nat) (d : bytes) (len : Z) (dest : bytes) (be : bool)
    (lo hi : Z) (st : status_t) (out : bytes) :
  updateExifBody fuel d len dest be lo hi = Ret (st, out) → st = NO_ERROR.
Proof.
  unfold updateExifBody. intros H.
  bind_inv H as r1 H1. destruct r1 as [[? ?] ?].
  bind_inv H as r2 H2. destruct r2 as [[? ?] ?].
  bind_inv H as r3 H3. destruct r3 as [[? ?] ?].
  bind_inv H as r4 H4. by injection H as <- _.
Qed.

(** C3, as amended.  [updateExif] never returns
    [ERROR_JPEGR_BUFFER_TOO_SMALL]: the EXIF overload of [Write] copies
    without a test of the destination size.  With no EXIF payload and a
    destination of at least 28 bytes it returns [NO_ERROR] and the
    destination starts with the pseudo package. *)
Theorem updateExif_never_buffer_too_small (fuel : nat) (exif : jr_exif_ptr) (dest : bytes) :
  (∀ st out, updateExif fuel exif dest = Ret (st, out) → st ≠ ERROR_JPEGR_BUFFER_TOO_SMALL)
  ∧ (28 ≤ Z.of_nat (length dest) →
     updateExif fuel None dest = Ret (NO_ERROR, pseudoExif ++ drop 28 dest)).
Proof.
  split.
  - intros st out. unfold updateExif.
    destruct (exif ≫= jpegr_exif.data) as [d|].
    + intros H. bind_inv H as mark Hmark.
      destruct (decide (mark = 18761)).
      * bind_inv H as lo Hlo. bind_inv H as hi Hhi.
        apply updateExifBody_status in H as ->. done.
      * destruct (decide (mark = 19789)).
        -- bind_inv H as hi Hhi. bind_inv H as lo Hlo.
           apply updateExifBody_status in H as ->. done.
        -- by injection H as <- _.
    + intros H. bind_inv H as r Hr. destruct r as [[? ?] ?]. by injection H as <- _.
  - intros Hcap. unfold updateExif. cbn [mbind option_bind].
    unfold PSEUDO_EXIF_PACKAGE_LENGTH.
    change (Write dest pseudoExif 28 0)
      with (Write ([] ++ drop (length (@nil Z)) dest) pseudoExif 28 0).
    rewrite Write_extend by (cbn [length pseudoExif]; lia).
    rewrite bind_Ret_l. done.
Qed.

(** ** The size of a copy *)

Lemma memcpy_length (dest src : bytes) (pos n : Z) (dest' : bytes) :
  memcpy dest pos src n = Ret dest' → length dest' = length dest.
Proof.
  unfold memcpy. case_decide as Hok; [|done]. intros [= <-].
  rewrite !length_app, !length_take, length_drop. lia.
Qed.

(** ** The byte-order mark and the format table *)

(** X1.  A payload whose byte-order mark is neither 0x4949 nor 0x4d4d is
    rejected with [ERROR_JPEGR_METADATA_ERROR] before anything is written:
    the destination is as it was. *)
Theorem unknown_byte_order_rejected (fuel : nat) (d : bytes) (len : Z) (dest : bytes)
    (mark : Z) :
  loadU16 d 3 = Ret mark → mark ≠ 0x4949 → mark ≠ 0x4d4d →
  updateExif fuel (Some (jpegr_exif.Build (Some d) len)) dest
  = Ret (ERROR_JPEGR_METADATA_ERROR, dest).
Proof.
  intros Hmark Hle Hbe. unfold updateExif.
  cbn [mbind option_bind jpegr_exif.data].
  rewrite Hmark, bind_Ret_l.
  rewrite decide_False by done. rewrite decide_False by done. done.
Qed.

(** X2.  The table of [findFormatLengthInBytes]: the width is 1, 2, 4 or 8
    for the twelve format codes of TIFF, and -1 for every other code. *)
Theorem findFormatLengthInBytes_table (data_format : Z) :
  (findFormatLengthInBytes data_format = 1
     ↔ data_format = 1 ∨ data_format = 2 ∨ data_format = 6 ∨ data_format = 7)
  ∧ (findFormatLengthInBytes data_format = 2 ↔ data_format = 3 ∨ data_format = 8)
  ∧ (findFormatLengthInBytes data_format = 4
       ↔ data_format = 4 ∨ data_format = 9 ∨ data_format = 11)
  ∧ (findFormatLengthInBytes data_format = 8
       ↔ data_format = 5 ∨ data_format = 10 ∨ data_format = 12)
  ∧ (findFormatLengthInBytes data_format = -1 ↔ ¬ (1 ≤ data_format ≤ 12)).
Proof.
  unfold findFormatLengthInBytes. repeat case_decide; repeat split; intros; lia.
Qed.

(** ** Runs on the sample payloads *)

Lemma exifWithSubIfd_wellFormed : wellFormedExif exifWithSubIfd false 2 1 44 1.
Proof.
  split; [vm_compute; reflexivity|]. split; [vm_compute; reflexivity|].
  split; [vm_compute; discriminate|]. split.
  - intros [|[|i]] Hi Hne; [|done|lia].
    split; [vm_compute; reflexivity|].
    exists 2. split; [vm_compute; reflexivity|vm_compute; discriminate].
  - intros _. split; [vm_compute; reflexivity|]. split; [vm_compute; reflexivity|].
    split; [vm_compute; discriminate|]. split; [vm_compute; reflexivity|].
    split; [vm_compute; discriminate|].
    intros [|k] Hk; [|lia].
    split; [vm_compute; reflexivity|].
    exists 2. split; [vm_compute; reflexivity|vm_compute; discriminate].
Qed.

Lemma exifOffsetEntry_wellFormed : wellFormedExif exifOffsetEntry false 1 1 0 0.
Proof.
  split; [vm_compute; reflexivity|]. split; [vm_compute; reflexivity|].
  split; [vm_compute; discriminate|]. split.
  - intros [|i] Hi Hne; [|lia].
    split; [vm_compute; reflexivity|].
    exists 2. split; [vm_compute; reflexivity|vm_compute; discriminate].
  - lia.
Qed.

Lemma exifOffsetEntryBE_wellFormed : wellFormedExif exifOffsetEntryBE true 1 1 0 0.
Proof.
  split; [vm_compute; reflexivity|]. split; [vm_compute; reflexivity|].
  split; [vm_compute; discriminate|]. split.
  - intros [|i] Hi Hne; [|lia].
    split; [vm_compute; reflexivity|].
    exists 2. split; [vm_compute; reflexivity|vm_compute; discriminate].
  - lia.
Qed.

Lemma entryBlock_length (k : nat) : length (entryBlock k) = (12 * k)%nat.
Proof. induction k as [|k IH]; [done|]. cbn [entryBlock]. rewrite length_app, IH. cbn. lia. Qed.

Lemma entryBlock_lookup (k i r : nat) :
  (i < k)%nat → (r < 12)%nat → entryBlock k !! (12 * i + r)%nat = byteEntry !! r.
Proof.
  revert i. induction k as [|k IH]; intros i Hi Hr; [lia|].
  cbn [entryBlock]. destruct i as [|i].
  - rewrite lookup_app_l by (cbn; lia). done.
  - rewrite lookup_app_r by (cbn; lia).
    replace (12 * S i + r - length byteEntry)%nat with (12 * i + r)%nat by (cbn; lia).
    apply IH; lia.
Qed.

Lemma exifDirectory_length (k : nat) :
  Z.of_nat (length (exifDirectory k)) = 20 + 12 * Z.of_nat k.
Proof.
  unfold exifDirectory. rewrite !length_app, entryBlock_length. cbn [length leHeader countBytes].
  lia.
Qed.

Lemma exifDirectory_byte (k i r : nat) (b : Z) :
  (i < k)%nat → byteEntry !! r = Some b →
  loadByte (exifDirectory k) (16 + 12 * Z.of_nat i + Z.of_nat r) = Ret b.
Proof.
  intros Hi Hb.
  assert (r < 12)%nat as Hr by (apply lookup_lt_Some in Hb; cbn in Hb; lia).
  assert (b mod 256 = b) as Hsmall.
  { do 12 (destruct r as [|r]; [injection Hb as <-; reflexivity|]). cbn in Hr. lia. }
  apply loadByte_Ret. split; [lia|]. exists b. split; [|done].
  replace (Z.to_nat (16 + 12 * Z.of_nat i + Z.of_nat r)) with (16 + (12 * i + r))%nat by lia.
  unfold exifDirectory.
  rewrite lookup_app_r by (cbn; lia).
  replace (16 + (12 * i + r) - length (leHeader ++ countBytes false (Z.of_nat k)))%nat
    with (12 * i + r)%nat by (cbn; lia).
  rewrite lookup_app_l by (rewrite entryBlock_length; lia).
  rewrite entryBlock_lookup by done. done.
Qed.

Lemma exifDirectory_plain (k i : nat) :
  (i < k)%nat → plainEntry (exifDirectory k) (16 + 12 * Z.of_nat i) false.
Proof.
  intros Hi.
  assert (∀ (r : nat) (b : Z), byteEntry !! r = Some b →
            loadByte (exifDirectory k) (16 + 12 * Z.of_nat i + Z.of_nat r) = Ret b) as Hbyte.
  { intros r b Hb. by apply exifDirectory_byte. }
  assert (readValue (exifDirectory k) (16 + 12 * Z.of_nat i) 2 false = Ret 0x0100) as Htag.
  { unfold readValue. rewrite decide_True by done.
    replace (16 + 12 * Z.of_nat i + 1) with (16 + 12 * Z.of_nat i + Z.of_nat 1) by lia.
    replace (loadByte (exifDirectory k) (16 + 12 * Z.of_nat i))
      with (loadByte (exifDirectory k) (16 + 12 * Z.of_nat i + Z.of_nat 0))
      by (f_equal; lia).
    rewrite (Hbyte 0%nat 0x00), bind_Ret_l, (Hbyte 1%nat 0x01) by done. done. }
  assert (readValue (exifDirectory k) (16 + 12 * Z.of_nat i + 2) 2 false = Ret 1) as Hfmt.
  { unfold readValue. rewrite decide_True by done.
    replace (16 + 12 * Z.of_nat i + 2 + 1) with (16 + 12 * Z.of_nat i + Z.of_nat 3) by lia.
    replace (16 + 12 * Z.of_nat i + 2) with (16 + 12 * Z.of_nat i + Z.of_nat 2) by lia.
    rewrite (Hbyte 2%nat 0x01), bind_Ret_l, (Hbyte 3%nat 0x00) by done. done. }
  split.
  - unfold isPointerEntry. rewrite Htag. done.
  - exists 1. split; [done|]. discriminate.
Qed.

Lemma exifDirectory_wellFormed (k : nat) :
  Z.of_nat k < 65536 → wellFormedExif (exifDirectory k) false k k 0 0.
Proof.
  intros Hk. split; [reflexivity|]. split; [|split; [|split]].
  - rewrite (readValue_countBytes _ false (Z.of_nat k)).
    + f_equal. apply Z.mod_small. lia.
    + reflexivity.
  - rewrite exifDirectory_length. lia.
  - intros i Hi _. by apply exifDirectory_plain.
  - lia.
Qed.

(** With 65535 entries in IFD0 the incremented count does not fit its two
    bytes. *)
Lemma exifDirectory_count_wraps :
  ∃ out,
    updateExif 2 (exifOf (exifDirectory (Z.to_nat 65535))) (replicate (Z.to_nat 786452) 0)
    = Ret (NO_ERROR, out)
    ∧ readValue (exifDirectory (Z.to_nat 65535)) 14 2 false = Ret 65535
    ∧ readValue out 14 2 false = Ret 0.
Proof.
  set (k := Z.to_nat 65535). set (cap := Z.to_nat 786452).
  assert (Z.of_nat k = 65535) as Hk by (unfold k; lia).
  assert (Z.of_nat cap = 786452) as Hc by (unfold cap; lia).
  assert (wellFormedExif (exifDirectory k) false k k 0 0) as Hwf
    by (apply exifDirectory_wellFormed; lia).
  pose proof (exifDirectory_length k) as Hlen.
  destruct (updateExif_wellFormed 0 (exifDirectory k) (replicate cap 0) false k k 0 0 Hwf)
    as (out & Hout & _ & Hframe & _).
  { rewrite length_replicate. lia. }
  { rewrite length_replicate. lia. }
  exists out. split; [exact Hout|]. split.
  - destruct Hwf as (_ & -> & _). by rewrite Hk.
  - rewrite (readValue_countBytes out false (Z.of_nat k + 1)); [by rewrite Hk|].
    rewrite <- (exifLayout_count (exifDirectory k) (replicate cap 0) false (Z.of_nat k + 1)).
    + apply take_drop_frame. intros x Hx. apply Hframe.
      * intros (i & _ & _ & Hr). lia.
      * intros [Hlt _]. lia.
    + lia.
Qed.

(** The offsets of [exifWithSubIfd], patched into a destination of 100
    bytes. *)
Lemma updateExif_offsets_witness :
  wellFormedExif exifWithSubIfd false 2 1 44 1
  ∧ ∃ out,
      updateExif 2 (exifOf exifWithSubIfd) (replicate 100 0) = Ret (NO_ERROR, out)
      ∧ (∀ i : nat, (i < 2)%nat →
           isOffsetEntry exifWithSubIfd (16 + 12 * Z.of_nat i) false = true →
           ∃ v, readValue exifWithSubIfd (16 + 12 * Z.of_nat i + 8) 4 false = Ret v
                ∧ readValue out (16 + 12 * Z.of_nat i + 8 + 12) 4 false
                  = Ret (int32 (v + 12)))
      ∧ ((1 < 2)%nat →
           readValue out (44 + 6 + 12) 2 false = Ret (Z.of_nat 1)
           ∧ ∀ k : nat, (k < 1)%nat →
               isOffsetEntry exifWithSubIfd (44 + 8 + 12 * Z.of_nat k) false = true →
               ∃ v, readValue exifWithSubIfd (44 + 8 + 12 * Z.of_nat k + 8) 4 false = Ret v
                    ∧ readValue out (44 + 8 + 12 * Z.of_nat k + 8 + 12) 4 false
                      = Ret (int32 (v + 12))).
Proof.
  split; [exact exifWithSubIfd_wellFormed|].
  apply (updateExif_offsets 0 exifWithSubIfd (replicate 100 0) false 2 1 44 1).
  - exact exifWithSubIfd_wellFormed.
  - vm_compute. discriminate.
  - vm_compute. reflexivity.
Defined.

(** The layout of [exifOffsetEntryBE], patched into a destination of 54
    bytes. *)
Lemma updateExif_layout_witness :
  wellFormedExif exifOffsetEntryBE true 1 1 0 0
  ∧ ∃ out,
      updateExif 2 (exifOf exifOffsetEntryBE) (replicate 54 0) = Ret (NO_ERROR, out)
      ∧ length out = length (replicate 54 0)
      ∧ take 14 out = take 14 exifOffsetEntryBE
      ∧ take 2 (drop 14 out) = countBytes true (Z.of_nat 1 + 1)
      ∧ readValue out 14 2 true = Ret ((Z.of_nat 1 + 1) mod 65536)
      ∧ (true = true → readValue out 16 2 true = Ret 0x4A52)
      ∧ readValue out 18 2 true = Ret 0x0007
      ∧ readValue out 20 4 true = Ret 0x00000001
      ∧ readValue out 24 4 true = Ret 0x00000000
      ∧ (∀ x : nat,
           (16 ≤ x < length exifOffsetEntryBE)%nat →
           ¬ inOffsetField exifOffsetEntryBE true 16 1 (Z.of_nat x) →
           ¬ ((1 < 1)%nat ∧ inOffsetField exifOffsetEntryBE true (0 + 8) 0 (Z.of_nat x)) →
           out !! (x + 12)%nat = exifOffsetEntryBE !! x).
Proof.
  split; [exact exifOffsetEntryBE_wellFormed|].
  apply (updateExif_layout 0 exifOffsetEntryBE (replicate 54 0) true 1 1 0 0).
  - exact exifOffsetEntryBE_wellFormed.
  - vm_compute. discriminate.
  - vm_compute. reflexivity.
Defined.

(** C2 fails as stated.  In [exifTwoPointers] both IFD0 entries carry the
    tag 0x8769 and hold 38, so the SubIFD at position 38 + 6 is walked
    twice: its offset entry holds 56 in the payload and 80 in the output,
    24 more and not 12. *)
Lemma updateExif_shared_subifd :
  ∃ out,
    updateExif 2 (exifOf exifTwoPointers) (replicate 94 0) = Ret (NO_ERROR, out)
    ∧ isPointerEntry exifTwoPointers 16 false = true
    ∧ readValue exifTwoPointers 24 4 false = Ret 38
    ∧ isPointerEntry exifTwoPointers 28 false = true
    ∧ readValue exifTwoPointers 36 4 false = Ret 38
    ∧ readValue exifTwoPointers (38 + 6) 2 false = Ret 1
    ∧ isOffsetEntry exifTwoPointers (38 + 8) false = true
    ∧ readValue exifTwoPointers (38 + 8 + 8) 4 false = Ret 56
    ∧ readValue out (38 + 8 + 8 + 12) 4 false = Ret 80
    ∧ 80 ≠ 56 + 12.
Proof.
  eexists. split; [vm_compute; reflexivity|].
  repeat split; try (vm_compute; reflexivity). lia.
Qed.

(** C4 fails as stated.  The output for [exifOffsetEntry] is
    [exifOffsetEntryPatched]: byte 24 of the payload, the low byte of the
    offset 26, is 38 at position 36 of the output, so the bytes from 28 on
    are not the bytes of the payload from 16 on; and the tag of the
    inserted entry reads 0x524A in the byte order of this little-endian
    payload, not 0x4A52.  And for an IFD0 of 65535 entries bytes [14,16) of
    the output hold 0, not 65536. *)
Lemma updateExif_rewrites_copied_bytes :
  (updateExif 2 (exifOf exifOffsetEntry) (replicate 54 0)
   = Ret (NO_ERROR, exifOffsetEntryPatched)
   ∧ exifOffsetEntry !! 24%nat = Some 26
   ∧ exifOffsetEntryPatched !! 36%nat = Some 38
   ∧ drop 28 exifOffsetEntryPatched ≠ drop 16 exifOffsetEntry
   ∧ readValue exifOffsetEntryPatched 16 2 false = Ret 0x524A
   ∧ 0x524A ≠ 0x4A52)
  ∧ (∃ out,
       updateExif 2 (exifOf (exifDirectory (Z.to_nat 65535))) (replicate (Z.to_nat 786452) 0)
       = Ret (NO_ERROR, out)
       ∧ readValue (exifDirectory (Z.to_nat 65535)) 14 2 false = Ret 65535
       ∧ readValue out 14 2 false = Ret 0
       ∧ 0 ≠ 65535 + 1).
Proof.
  split.
  - split; [vm_compute; reflexivity|]. split; [reflexivity|]. split; [reflexivity|].
    split; [vm_compute; discriminate|]. split; [reflexivity|lia].
  - destruct exifDirectory_count_wraps as (out & Hrun & Hin & Hout).
    exists out. split; [exact Hrun|]. split; [exact Hin|]. split; [exact Hout|lia].
Qed.

(** The status of the run on [exifInline]. *)
Lemma updateExif_never_buffer_too_small_witness :
  updateExif 2 (exifOf exifInline) (replicate 44 0)
  = Ret (NO_ERROR,
         leHeader ++ [0x02; 0x00] ++ jrEntry false
           ++ [0x12; 0x01; 0x03; 0x00; 0x01; 0x00; 0x00; 0x00; 0x01; 0x00; 0x00; 0x00]
           ++ [0x00; 0x00; 0x00; 0x00])
  ∧ NO_ERROR ≠ ERROR_JPEGR_BUFFER_TOO_SMALL.
Proof.
  assert (updateExif 2 (exifOf exifInline) (replicate 44 0)
          = Ret (NO_ERROR,
                 leHeader ++ [0x02; 0x00] ++ jrEntry false
                   ++ [0x12; 0x01; 0x03; 0x00; 0x01; 0x00; 0x00; 0x00; 0x01; 0x00; 0x00; 0x00]
                   ++ [0x00; 0x00; 0x00; 0x00])) as Hrun by (vm_compute; reflexivity).
  split; [exact Hrun|].
  exact (proj1 (updateExif_never_buffer_too_small 2 (exifOf exifInline) (replicate 44 0))
           _ _ Hrun).
Defined.

(** C3 fails as stated.  With no EXIF payload and a destination of 27
    bytes the copy of the 28-byte pseudo package runs past the end of the
    destination; no [ERROR_JPEGR_BUFFER_TOO_SMALL] is returned. *)
Lemma updateExif_small_destination :
  length (replicate 27 0) = 27%nat
  ∧ updateExif 1 None (replicate 27 0) = Fault
  ∧ updateExif 1 None (replicate 27 0)
    ≠ Ret (ERROR_JPEGR_BUFFER_TOO_SMALL, replicate 27 0).
Proof. split; [done|]. split; [vm_compute; reflexivity|vm_compute; discriminate]. Qed.

(** C5 fails on the code.  For the format code 13
    [findFormatLengthInBytes] answers -1, and the walk goes on with it:
    [updateExif] returns [NO_ERROR] on [exifUnknownFormat], and on
    [exifUnknownFormatCount], where the count reads -5 and the product is 5,
    the value field is advanced from 1 to 13 as well. *)
Theorem unknown_format_is_not_reported :
  findFormatLengthInBytes 13 = -1
  ∧ updateExif 2 (exifOf exifUnknownFormat) (replicate 44 0)
    = Ret (NO_ERROR,
           leHeader ++ [0x02; 0x00] ++ jrEntry false
             ++ [0x12; 0x01; 0x0D; 0x00; 0x01; 0x00; 0x00; 0x00; 0x01; 0x00; 0x00; 0x00]
             ++ [0x00; 0x00; 0x00; 0x00])
  ∧ updateExif 2 (exifOf exifUnknownFormatCount) (replicate 44 0)
    = Ret (NO_ERROR,
           leHeader ++ [0x02; 0x00] ++ jrEntry false
             ++ [0x12; 0x01; 0x0D; 0x00; 0xFB; 0xFF; 0xFF; 0xFF; 0x0D; 0x00; 0x00; 0x00]
             ++ [0x00; 0x00; 0x00; 0x00]).
Proof. split; [done|]. split; vm_compute; reflexivity. Qed.

(** [exifBadMark] is rejected. *)
Lemma unknown_byte_order_rejected_witness :
  loadU16 exifBadMark 3 = Ret 0x5858
  ∧ updateExif 1 (exifOf exifBadMark) (replicate 32 0)
    = Ret (ERROR_JPEGR_METADATA_ERROR, replicate 32 0).
Proof.
  assert (loadU16 exifBadMark 3 = Ret 0x5858) as Hmark by reflexivity.
  split; [exact Hmark|].
  apply (unknown_byte_order_rejected 1 exifBadMark _ (replicate 32 0) 0x5858 Hmark);
    discriminate.
Defined.

(** ** The bounded [Write] (lines 48-55) *)

(** X4.  The bounded [Write], for a position, a length and a [maxLength]
    that are not negative (an [int] position and [maxLength], a length
    below 2^63), a [maxLength] within the allocation of the destination and
    a source of at least [n] bytes: when the write would pass [maxLength]
    it returns [ERROR_JPEGR_BUFFER_TOO_SMALL] and leaves destination and
    position as they were; otherwise it returns [NO_ERROR], the [n] bytes
    at [position] are those of the source, every other byte is kept, and
    the position has advanced by [n]. *)
Theorem Write_compressed_bounded (destination : jpegr_compressed.struct) (source : bytes)
    (n position : Z) :
  0 ≤ position < 2 ^ 31 →
  0 ≤ n ≤ Z.of_nat (length source) → n < 2 ^ 63 →
  0 ≤ jpegr_compressed.maxLength destination < 2 ^ 31 →
  jpegr_compressed.maxLength destination
    ≤ Z.of_nat (length (jpegr_compressed.data destination)) →
  (jpegr_compressed.maxLength destination < position + n ∧
   Write_compressed destination source n position
   = Ret (ERROR_JPEGR_BUFFER_TOO_SMALL, destination, position))
  ∨ (position + n ≤ jpegr_compressed.maxLength destination ∧
     ∃ d, Write_compressed destination source n position
          = Ret (NO_ERROR,
                 jpegr_compressed.Build d (jpegr_compressed.length destination)
                   (jpegr_compressed.maxLength destination),
                 position + n)
          ∧ length d = length (jpegr_compressed.data destination)
          ∧ take (Z.to_nat n) (drop (Z.to_nat position) d) = take (Z.to_nat n) source
          ∧ ∀ i : nat, ¬ (position ≤ Z.of_nat i < position + n) →
              d !! i = jpegr_compressed.data destination !! i).
Proof.
  intros Hpos Hn Hn63 Hmax Halloc. unfold Write_compressed.
  assert (size_t position = position) as -> by (apply Z.mod_small; lia).
  assert (size_t n = n) as -> by (apply Z.mod_small; lia).
  assert (size_t (position + n) = position + n) as ->.
  { apply Z.mod_small. change (2 ^ 64) with (2 * 2 ^ 63). lia. }
  assert (size_t (jpegr_compressed.maxLength destination)
          = jpegr_compressed.maxLength destination) as -> by (apply Z.mod_small; lia).
  destruct (decide (position + n > jpegr_compressed.maxLength destination)) as [Hbig|Hfit].
  - left. split; [lia|done].
  - right. split; [lia|].
    rewrite (int32_id (position + n)) by lia.
    set (b := jpegr_compressed.data destination) in *.
    unfold memcpy. rewrite decide_True by lia. rewrite bind_Ret_l.
    eexists. split; [reflexivity|].
    assert (length (take (Z.to_nat position) b) = Z.to_nat position) as Hl1
      by (rewrite length_take; lia).
    assert (length (take (Z.to_nat n) source) = Z.to_nat n) as Hl2
      by (rewrite length_take; lia).
    split; [|split].
    + rewrite !length_app, Hl1, Hl2, length_drop. lia.
    + rewrite drop_app_length' by done. rewrite take_app_length' by done. done.
    + intros i Hi. destruct (decide (Z.of_nat i < position)) as [Hlt|Hge].
      * rewrite lookup_app_l by lia. apply lookup_take_lt. lia.
      * rewrite lookup_app_r by lia. rewrite lookup_app_r by lia.
        rewrite lookup_drop. f_equal. lia.
Qed.

(** ** What a read returns (lines 475-493) *)

(** X5.  A [readValue] that returns has read inside the region: for the
    length 2 the value is a 16-bit unsigned number, for the length 4 a
    32-bit signed one; for any other length nothing is read and the value
    is -1. *)
Theorem readValue_returns (data : bytes) (pos len : Z) (be : bool) (v : Z) :
  readValue data pos len be = Ret v →
  (len = 2 ∧ 0 ≤ pos ∧ pos + 2 ≤ Z.of_nat (length data) ∧ 0 ≤ v < 2 ^ 16)
  ∨ (len = 4 ∧ 0 ≤ pos ∧ pos + 4 ≤ Z.of_nat (length data) ∧ - 2 ^ 31 ≤ v < 2 ^ 31)
  ∨ (len ≠ 2 ∧ len ≠ 4 ∧ v = -1).
Proof.
  unfold readValue. intros H.
  destruct (decide (len = 2)) as [->|H2]; [|destruct (decide (len = 4)) as [->|H4]].
  - left. bind_inv H as b0 Hb0. bind_inv H as b1 Hb1.
    apply loadByte_bounds in Hb0 as [? ?], Hb1 as [? ?].
    split; [done|]. split; [lia|]. split; [lia|].
    destruct be; injection H as <-; rewrite lor_bytes2 by lia; lia.
  - right. left. bind_inv H as b0 Hb0. bind_inv H as b1 Hb1.
    bind_inv H as b2 Hb2. bind_inv H as b3 Hb3.
    apply loadByte_bounds in Hb0 as [? _], Hb3 as [? _].
    injection H as <-. split; [done|]. split; [lia|]. split; [lia|]. apply int32_range.
  - right. right. by injection H as <-.
Qed.

(** ** The room a run needs *)

Lemma memcpy_Ret (dest src : bytes) (pos n : Z) (dest' : bytes) :
  memcpy dest pos src n = Ret dest' →
  0 ≤ n ≤ Z.of_nat (length src) ∧ 0 ≤ pos ∧ pos + n ≤ Z.of_nat (length dest).
Proof. unfold memcpy. case_decide; [done|done]. Qed.

Lemma Write_Ret (dest src : bytes) (n pos : Z) (st : status_t) (dest' : bytes) (pos' : Z) :
  Write dest src n pos = Ret (st, dest', pos') →
  pos' = pos + n ∧ length dest' = length dest
  ∧ 0 ≤ n ≤ Z.of_nat (length src) ∧ 0 ≤ pos ∧ pos + n ≤ Z.of_nat (length dest).
Proof.
  unfold Write. intros H. bind_inv H as d0 Hd0. injection H as _ <- <-.
  split; [done|]. split; [by apply memcpy_length in Hd0|by apply memcpy_Ret in Hd0].
Qed.

Lemma updateExifBody_room (fuel : nat) (d : bytes) (len : Z) (dest : bytes) (be : bool)
    (lo hi : Z) (st : status_t) (out : bytes) :
  updateExifBody fuel d len dest be lo hi = Ret (st, out) →
  16 ≤ len ∧ len - 16 ≤ Z.of_nat (length d - 16) ∧ len + 12 ≤ Z.of_nat (length dest).
Proof.
  unfold updateExifBody, EXIF_J_R_ENTRY_LENGTH. intros H.
  bind_inv H as r1 H1. destruct r1 as [[s1 d1] p1].
  apply Write_Ret in H1 as (-> & Hl1 & _).
  bind_inv H as r2 H2. destruct r2 as [[s2 d2] p2].
  bind_inv H as r3 H3. destruct r3 as [[s3 d3] p3].
  apply Write_Ret in H3 as (_ & _ & Hn & _ & Hfit). clear H.
  rewrite length_drop in Hn.
  assert (p2 = 28 ∧ length d2 = length d1) as [-> Hl2].
  { destruct be.
    - bind_inv H2 as q1 Hq1. destruct q1 as [[? e1] ?]. apply Write_Ret in Hq1 as (-> & ? & _).
      bind_inv H2 as q2 Hq2. destruct q2 as [[? e2] ?]. apply Write_Ret in Hq2 as (-> & ? & _).
      apply Write_Ret in H2 as (-> & ? & _). split; [lia|congruence].
    - bind_inv H2 as q1 Hq1. destruct q1 as [[? e1] ?]. apply Write_Ret in Hq1 as (-> & ? & _).
      bind_inv H2 as q2 Hq2. destruct q2 as [[? e2] ?]. apply Write_Ret in Hq2 as (-> & ? & _).
      apply Write_Ret in H2 as (-> & ? & _). split; [lia|congruence]. }
  lia.
Qed.

(** X6.  [updateExif] checks no size, so [NO_ERROR] tells what the caller
    had provided: with a payload, a length field between 16 and the size of
    the payload and a destination of at least that length plus 12 bytes;
    without one, a destination of at least 28 bytes. *)
Theorem updateExif_needs_room (fuel : nat) (exif : jr_exif_ptr) (dest : bytes)
    (out : bytes) :
  updateExif fuel exif dest = Ret (NO_ERROR, out) →
  match exif with
  | Some (jpegr_exif.Build (Some d) len) =>
      16 ≤ len ≤ Z.of_nat (length d) ∧ len + 12 ≤ Z.of_nat (length dest)
  | _ => 28 ≤ Z.of_nat (length dest)
  end.
Proof.
  assert (updateExif fuel None dest = Ret (NO_ERROR, out) → 28 ≤ Z.of_nat (length dest))
    as Hnull.
  { unfold updateExif. cbn [mbind option_bind]. intros H.
    bind_inv H as r Hr. destruct r as [[? d1] ?].
    apply Write_Ret in Hr as (_ & _ & _ & _ & Hfit).
    unfold PSEUDO_EXIF_PACKAGE_LENGTH in Hfit. lia. }
  destruct exif as [[[d|] len]|]; [|exact Hnull|exact Hnull].
  unfold updateExif. cbn [mbind option_bind jpegr_exif.data from_option jpegr_exif.length].
  intros H. bind_inv H as mark Hmark.
  destruct (decide (mark = 18761)).
  - bind_inv H as lo Hlo. bind_inv H as hi Hhi.
    apply loadByte_bounds in Hhi as [? _]. apply updateExifBody_room in H. lia.
  - destruct (decide (mark = 19789)).
    + bind_inv H as hi Hhi. bind_inv H as lo Hlo.
      apply loadByte_bounds in Hlo as [? _]. apply updateExifBody_room in H. lia.
    + done.
Qed.

(** ** A SubIFD that contains its own pointer *)

(** X8.  The walk has no guard against cycles.  When the SubIFD pointer
    at [pos] holds an offset that leads back to a directory starting at
    [pos] itself (its count, in the two bytes before [pos], being at least
    1), the recursion never ends: the walk exceeds every bound. *)
Theorem updateExifOffsets_cycle (exif : bytes) (pos stored num_entry : Z) (be : bool) :
  readValue exif pos 2 be = Ret 0x8769 →
  readValue exif (pos + 8) 4 be = Ret stored →
  int32 (int32 (stored + 6) + 12) + 2 = pos →
  (∃ m, readValue exif (pos - 2) 2 be = Ret m ∧ 1 ≤ m) →
  1 ≤ num_entry →
  ∀ fuel : nat, updateExifOffsets fuel exif pos num_entry be = OutOfFuel.
Proof.
  intros Htag Hstored Hback (m & Hm & Hm1) Hn fuel. revert num_entry Hn.
  induction fuel as [|fuel IH]; intros num_entry Hn; [done|].
  rewrite updateExifOffsets_S.
  destruct (Z.to_nat num_entry) as [|k] eqn:Hk; [lia|].
  cbn [updateEntries]. unfold updateEntry at 1.
  rewrite Htag, bind_Ret_l, decide_True by done.
  rewrite Hstored, bind_Ret_l. unfold EXIF_J_R_ENTRY_LENGTH.
  replace (int32 (int32 (stored + 6) + 12)) with (pos - 2) by lia.
  rewrite Hm, bind_Ret_l.
  replace (pos - 2 + 2) with pos by lia.
  rewrite (IH m Hm1). done.
Qed.

(** ** Patching a patched payload *)

(** A region that meets no value field of the walked directories is the
    same before and after the walk. *)
Lemma offsetsAdvanced_outside (b out : bytes) (be : bool) (pos : Z) (n j : nat) (s : Z)
    (m : nat) (lo hi : Z) :
  offsetsAdvanced b out be pos n j s m →
  (∀ i : nat, (i < n)%nat → hi ≤ pos + 12 * Z.of_nat i + 8 ∨ pos + 12 * Z.of_nat i + 12 ≤ lo) →
  ((j < n)%nat → ∀ k : nat, (k < m)%nat →
     hi ≤ s + 20 + 12 * Z.of_nat k + 8 ∨ s + 20 + 12 * Z.of_nat k + 12 ≤ lo) →
  agree lo hi b out.
Proof.
  intros (_ & Hframe & _) Hifd Hsub x Hx Hx0. symmetry.
  replace x with (Z.of_nat (Z.to_nat x)) in Hx by lia.
  apply Hframe.
  - intros (i & Hi & _ & Hr). destruct (Hifd i Hi); lia.
  - intros (Hj & k & Hk & _ & Hr). destruct (Hsub Hj k Hk); lia.
Qed.

Lemma agree_lookup (lo hi : Z) (b b' : bytes) (x : nat) :
  agree lo hi b b' → lo ≤ Z.of_nat x < hi → b !! x = b' !! x.
Proof. intros Hag Hx. rewrite <- (Nat2Z.id x). apply Hag; lia. Qed.

Lemma loadU16_ext (b b' : bytes) (i : Z) :
  agree (2 * i) (2 * i + 2) b b' → loadU16 b i = loadU16 b' i.
Proof.
  intros Hag. unfold loadU16.
  destruct (decide (0 ≤ 2 * i)) as [Hp|Hn].
  - rewrite (loadByte_ext b b' (2 * i)), (loadByte_ext b b' (2 * i + 1)) by (apply Hag; lia).
    done.
  - rewrite !(loadByte_neg _ (2 * i)) by lia. done.
Qed.

Lemma plainEntry_ext (b b' : bytes) (pos : Z) (be : bool) :
  agree pos (pos + 8) b b' → plainEntry b pos be → plainEntry b' pos be.
Proof.
  intros Hag [Hp (f & Hf & Hknown)]. split.
  - rewrite <- Hp. symmetry. apply isPointerEntry_ext. eapply agree_mono; eauto; lia.
  - exists f. split; [|done]. rewrite <- Hf. symmetry. apply readValue_ext.
    eapply agree_mono; eauto; lia.
Qed.

Lemma plainEntry_layout (d dest : bytes) (be : bool) (c p : Z) :
  16 ≤ Z.of_nat (length d) → Z.of_nat (length d) + 12 ≤ Z.of_nat (length dest) →
  16 ≤ p → p + 12 ≤ Z.of_nat (length d) →
  plainEntry d p be → plainEntry (exifLayout d dest be c) (p + 12) be.
Proof.
  intros Hd Hdest Hp Hl [Hplain (f & Hf & Hknown)]. split.
  - rewrite isPointerEntry_layout by lia. done.
  - exists f. split; [|done].
    replace (p + 12 + 2) with (p + 2 + 12) by lia. rewrite readValue_layout by lia. done.
Qed.

(** The inserted entry is a plain one. *)
Lemma jrEntry_plain (b : bytes) (be : bool) :
  take 12 (drop 16 b) = jrEntry be → plainEntry b 16 be.
Proof.
  intros Hjr.
  assert (agree 16 28 (replicate 16 0 ++ jrEntry be) b) as Hag.
  { intros x Hx _. rewrite lookup_app_r by (rewrite length_replicate; lia).
    rewrite length_replicate, <- Hjr, lookup_take_lt, lookup_drop by lia. f_equal. lia. }
  apply (plainEntry_ext (replicate 16 0 ++ jrEntry be)).
  - eapply agree_mono; eauto; lia.
  - split; [by destruct be|]. exists 7. split; [by destruct be|]. discriminate.
Qed.

(** X9.  Patching keeps the shape [wellFormedExif]: the output has one
    entry more, the SubIFD pointer is entry [j + 1] and holds [s + 12],
    which leads to the SubIFD where it now stands, with its [m] entries.
    So a patched payload can be patched again. *)
Theorem updateExif_again (fuel : nat) (d dest : bytes) (be : bool) (n j : nat) (s : Z)
    (m : nat) :
  wellFormedExif d be n j s m →
  Z.of_nat (length d) + 12 ≤ Z.of_nat (length dest) →
  Z.of_nat (length dest) < 2 ^ 31 →
  Z.of_nat n + 1 < 65536 →
  ∃ out,
    updateExif (S (S fuel)) (exifOf d) dest = Ret (NO_ERROR, out)
    ∧ wellFormedExif out be (S n) (S j) (s + 12) m.
Proof.
  intros Hwf Hcap Hint Hcount.
  pose proof (wellFormed_length d be n j s m Hwf) as Hd.
  destruct (updateExif_wellFormed fuel d dest be n j s m Hwf Hcap Hint)
    as (out & Hout & Hadv).
  set (L := exifLayout d dest be (Z.of_nat n + 1)) in *.
  destruct Hwf as (Hmark & Hn & Hend & Hplain & Hptr).
  assert (length out = length dest) as Hlen.
  { destruct Hadv as [-> _]. unfold L. by apply exifLayout_length. }
  assert ((j < n)%nat → 28 + 12 * Z.of_nat n ≤ s + 18) as Hafter.
  { intros Hj. destruct (Hptr Hj) as (_ & _ & ? & _). lia. }
  assert (∀ lo hi, hi ≤ 28 → agree lo hi L out) as Hlow.
  { intros lo hi Hhi. apply (offsetsAdvanced_outside _ _ _ _ _ _ _ _ _ _ Hadv).
    - intros i Hi. lia.
    - intros Hj k Hk. specialize (Hafter Hj). lia. }
  assert (∀ i : nat, (i < n)%nat →
            agree (28 + 12 * Z.of_nat i) (28 + 12 * Z.of_nat i + 8) L out) as Hhead.
  { intros i Hi. apply (offsetsAdvanced_outside _ _ _ _ _ _ _ _ _ _ Hadv).
    - intros i' Hi'. lia.
    - intros Hj k Hk. specialize (Hafter Hj). lia. }
  exists out. split; [done|].
  split; [|split; [|split; [|split]]].
  - rewrite <- Hmark. rewrite <- (loadU16_ext L out) by (apply Hlow; lia).
    apply loadU16_ext. intros x Hx _.
    rewrite <- (lookup_take_lt L 14), <- (lookup_take_lt d 14) by lia.
    unfold L. rewrite exifLayout_head by done. done.
  - rewrite (readValue_countBytes out be (Z.of_nat n + 1)).
    + f_equal. rewrite Z.mod_small by lia. lia.
    + rewrite <- (exifLayout_count d dest be (Z.of_nat n + 1)) by done. fold L.
      apply take_drop_frame. intros x Hx. symmetry. apply (agree_lookup 14 16); [apply Hlow|]; lia.
  - lia.
  - intros [|i] Hi Hne.
    + apply jrEntry_plain.
      rewrite <- (exifLayout_entry d dest be (Z.of_nat n + 1)) by done. fold L.
      apply take_drop_frame. intros x Hx. symmetry. apply (agree_lookup 16 28); [apply Hlow|]; lia.
    + replace (16 + 12 * Z.of_nat (S i)) with (28 + 12 * Z.of_nat i) by lia.
      apply (plainEntry_ext L); [apply Hhead; lia|].
      replace (28 + 12 * Z.of_nat i) with (16 + 12 * Z.of_nat i + 12) by lia.
      apply plainEntry_layout; [done|done|lia|lia|]. apply Hplain; lia.
  - intros HSj. assert (j < n)%nat as Hj by lia.
    destruct (Hptr Hj) as (Hp & Hs & Hbehind & Hm & Hsubend & Hsubplain).
    replace (16 + 12 * Z.of_nat (S j)) with (28 + 12 * Z.of_nat j) by lia.
    split; [|split; [|split; [|split; [|split]]]].
    + rewrite <- (isPointerEntry_ext L out) by (eapply agree_mono; [apply (Hhead j Hj)|lia|lia]).
      replace (28 + 12 * Z.of_nat j) with (16 + 12 * Z.of_nat j + 12) by lia.
      unfold L. rewrite isPointerEntry_layout by lia. done.
    + destruct Hadv as (_ & _ & Hifd & _).
      destruct (Hifd j Hj) as (v & Hv & Hv').
      { unfold isOffsetEntry.
        replace (28 + 12 * Z.of_nat j) with (16 + 12 * Z.of_nat j + 12) by lia.
        unfold L. rewrite isPointerEntry_layout by lia. by rewrite Hp. }
      replace (28 + 12 * Z.of_nat j + 8) with (16 + 12 * Z.of_nat j + 8 + 12) in Hv by lia.
      unfold L in Hv. rewrite readValue_layout in Hv by lia.
      rewrite Hs in Hv. injection Hv as <-.
      rewrite Hv'. f_equal. apply int32_id. lia.
    + lia.
    + rewrite <- Hm.
      rewrite <- (readValue_layout d dest be (Z.of_nat n + 1)) by lia.
      fold L. replace (s + 12 + 6) with (s + 6 + 12) by lia.
      symmetry. apply readValue_ext.
      apply (offsetsAdvanced_outside _ _ _ _ _ _ _ _ _ _ Hadv).
      * intros i Hi. lia.
      * intros _ k Hk. lia.
    + lia.
    + intros k Hk.
      apply (plainEntry_ext L).
      * apply (offsetsAdvanced_outside _ _ _ _ _ _ _ _ _ _ Hadv).
        -- intros i Hi. lia.
        -- intros _ k' Hk'. lia.
      * replace (s + 12 + 8 + 12 * Z.of_nat k) with (s + 8 + 12 * Z.of_nat k + 12) by lia.
        apply plainEntry_layout; [done|done|lia|lia|]. by apply Hsubplain.
Qed.

(** ** The destination behind the payload *)

(** X10.  For a payload of the shape [wellFormedExif], [updateExif]
    writes the first [length d + 12] bytes of the destination only: what
    lies behind them is as it was. *)
Theorem updateExif_keeps_rest (fuel : nat) (d dest : bytes) (be : bool) (n j : nat) (s : Z)
    (m : nat) :
  wellFormedExif d be n j s m →
  Z.of_nat (length d) + 12 ≤ Z.of_nat (length dest) →
  Z.of_nat (length dest) < 2 ^ 31 →
  ∃ out,
    updateExif (S (S fuel)) (exifOf d) dest = Ret (NO_ERROR, out)
    ∧ drop (length d + 12) out = drop (length d + 12) dest.
Proof.
  intros Hwf Hcap Hint.
  pose proof (wellFormed_length d be n j s m Hwf) as Hd.
  destruct (updateExif_wellFormed fuel d dest be n j s m Hwf Hcap Hint)
    as (out & Hout & Hadv).
  set (L := exifLayout d dest be (Z.of_nat n + 1)) in *.
  destruct Hwf as (_ & _ & Hend & _ & Hptr).
  exists out. split; [done|].
  apply list_eq. intros i. rewrite !lookup_drop.
  rewrite <- (exifLayout_rest d dest be (Z.of_nat n + 1)) by lia. fold L.
  symmetry.
  apply (agree_lookup (Z.of_nat (length d) + 12) (Z.of_nat (length d + 12 + i) + 1));
    [|lia].
  apply (offsetsAdvanced_outside _ _ _ _ _ _ _ _ _ _ Hadv).
  - intros i' Hi'. lia.
  - intros Hj k Hk. destruct (Hptr Hj) as (_ & _ & _ & _ & Hsubend & _). lia.
Qed.

(** ** No payload and an empty directory *)

(** X11.  With room for 28 bytes, the run without a payload and the run
    on the little-endian payload with an empty IFD0 give the same result:
    the pseudo package followed by the rest of the destination. *)
Theorem updateExif_null_as_empty (fuel : nat) (dest : bytes) :
  28 ≤ Z.of_nat (length dest) →
  updateExif fuel None dest = Ret (NO_ERROR, pseudoExif ++ drop 28 dest)
  ∧ updateExif (S fuel) (exifOf exifEmptyDirectory) dest
    = Ret (NO_ERROR, pseudoExif ++ drop 28 dest).
Proof.
  intros Hcap. split.
  - unfold updateExif. cbn [mbind option_bind]. unfold PSEUDO_EXIF_PACKAGE_LENGTH.
    change (Write dest pseudoExif 28 0)
      with (Write ([] ++ drop (length (@nil Z)) dest) pseudoExif 28 0).
    rewrite Write_extend by (cbn [length pseudoExif]; lia).
    rewrite bind_Ret_l. done.
  - unfold updateExif, exifOf.
    cbn [mbind option_bind jpegr_exif.data from_option jpegr_exif.length].
    change (loadU16 exifEmptyDirectory 3) with (@Ret Z 18761).
    rewrite bind_Ret_l, decide_True by done.
    change (loadByte exifEmptyDirectory 14) with (@Ret Z 0).
    change (loadByte exifEmptyDirectory 15) with (@Ret Z 0).
    rewrite !bind_Ret_l.
    rewrite updateExifBody_layout by (cbn; lia).
    change (Z.lor (Z.shiftl 0 8) 0 + 1 - 1) with 0.
    rewrite updateExifOffsets_S. reflexivity.
Qed.

(** ** Further runs of the patcher *)

(** A negative [maxLength] is a large [size_t]: the test of line 49 lets
    the write through. *)
Lemma Write_compressed_negative_maxLength :
  Write_compressed (jpegr_compressed.Build [0; 0; 0] 0 (-1)) [7] 1 0
  = Ret (NO_ERROR, jpegr_compressed.Build [7; 0; 0] 0 (-1), 1).
Proof. reflexivity. Qed.

(** A write of three bytes at position 6 of eight does not fit; at
    position 5 it does. *)
Lemma Write_compressed_bounded_witness :
  Write_compressed smallCompressed [7; 8; 9] 3 6
  = Ret (ERROR_JPEGR_BUFFER_TOO_SMALL, smallCompressed, 6)
  ∧ Write_compressed smallCompressed [7; 8; 9] 3 5
    = Ret (NO_ERROR, jpegr_compressed.Build [1; 2; 3; 0; 0; 7; 8; 9] 3 8, 8).
Proof.
  split.
  - destruct (Write_compressed_bounded smallCompressed [7; 8; 9] 3 6) as [[_ H]|[Hfit _]];
      [lia|simpl; lia|lia|simpl; lia|simpl; lia|exact H|simpl in Hfit; lia].
  - destruct (Write_compressed_bounded smallCompressed [7; 8; 9] 3 5)
      as [[Hbig _]|(_ & d & Hrun & _)];
      [lia|simpl; lia|lia|simpl; lia|simpl; lia|simpl in Hbig; lia|].
    rewrite Hrun. vm_compute in Hrun. injection Hrun as <-. reflexivity.
Defined.

Lemma readValue_returns_witness :
  readValue exifInline 24 4 false = Ret 1 ∧ - 2 ^ 31 ≤ 1 < 2 ^ 31.
Proof.
  assert (readValue exifInline 24 4 false = Ret 1) as Hrun by reflexivity.
  split; [exact Hrun|].
  destruct (readValue_returns _ _ _ _ _ Hrun) as [[? _]|[(_ & _ & _ & Hv)|(? & _)]];
    [discriminate|exact Hv|done].
Defined.

Lemma updateExif_needs_room_witness :
  updateExif 2 (exifOf exifOffsetEntry) (replicate 54 0) = Ret (NO_ERROR, exifOffsetEntryPatched)
  ∧ Z.of_nat (length exifOffsetEntry) + 12 ≤ Z.of_nat (length (replicate 54 0)).
Proof.
  assert (updateExif 2 (exifOf exifOffsetEntry) (replicate 54 0)
          = Ret (NO_ERROR, exifOffsetEntryPatched)) as Hrun by (vm_compute; reflexivity).
  split; [exact Hrun|].
  exact (proj2 (updateExif_needs_room _ _ _ _ Hrun)).
Defined.

Lemma updateExifOffsets_cycle_witness :
  readValue exifCycle 40 2 false = Ret 0x8769
  ∧ readValue exifCycle 48 4 false = Ret 20
  ∧ readValue exifCycle 38 2 false = Ret 1
  ∧ updateExifOffsets 7 exifCycle 40 1 false = OutOfFuel.
Proof.
  split; [reflexivity|]. split; [reflexivity|]. split; [reflexivity|].
  apply (updateExifOffsets_cycle exifCycle 40 20 1 false).
  - reflexivity.
  - reflexivity.
  - reflexivity.
  - exists 1. split; [reflexivity|lia].
  - lia.
Defined.

Lemma updateExif_again_witness :
  wellFormedExif exifWithSubIfd false 2 1 44 1
  ∧ ∃ out,
      updateExif 2 (exifOf exifWithSubIfd) (replicate 100 0) = Ret (NO_ERROR, out)
      ∧ wellFormedExif out false 3 2 (44 + 12) 1.
Proof.
  split; [exact exifWithSubIfd_wellFormed|].
  apply (updateExif_again 0 exifWithSubIfd (replicate 100 0) false 2 1 44 1).
  - exact exifWithSubIfd_wellFormed.
  - vm_compute. discriminate.
  - vm_compute. reflexivity.
  - vm_compute. reflexivity.
Defined.

Lemma updateExif_keeps_rest_witness :
  wellFormedExif exifOffsetEntry false 1 1 0 0
  ∧ ∃ out,
      updateExif 2 (exifOf exifOffsetEntry) (replicate 54 0 ++ [7; 7; 7]) = Ret (NO_ERROR, out)
      ∧ drop (length exifOffsetEntry + 12) out
        = drop (length exifOffsetEntry + 12) (replicate 54 0 ++ [7; 7; 7]).
Proof.
  split; [exact exifOffsetEntry_wellFormed|].
  apply (updateExif_keeps_rest 0 exifOffsetEntry _ false 1 1 0 0).
  - exact exifOffsetEntry_wellFormed.
  - vm_compute. discriminate.
  - vm_compute. reflexivity.
Defined.

Lemma updateExif_null_as_empty_witness :
  updateExif 1 None (replicate 30 9) = Ret (NO_ERROR, pseudoExif ++ [9; 9])
  ∧ updateExif 2 (exifOf exifEmptyDirectory) (replicate 30 9)
    = Ret (NO_ERROR, pseudoExif ++ [9; 9]).
Proof.
  apply (updateExif_null_as_empty 1 (replicate 30 9)). vm_compute. discriminate.
Defined.

(** * Properties of the XMP decoder *)

Lemma nameSpace_value : string_of_cstr nameSpaceLiteral = adobeNamespace.
Proof. reflexivity. Qed.

Lemma nameSpace_size : length (string_of_cstr nameSpaceLiteral) = 28%nat.
Proof. reflexivity. Qed.

Lemma nat_of_ascii_diff (c1 c2 : ascii) :
  c1 ≠ c2 → Z.of_nat (nat_of_ascii c1) - Z.of_nat (nat_of_ascii c2) ≠ 0.
Proof.
  intros Hne Heq. apply Hne.
  rewrite <- (ascii_nat_embedding c1), <- (ascii_nat_embedding c2).
  f_equal. lia.
Qed.

(** Against a string free of NUL, [strncmp] over its whole length is an
    equality test of that many leading characters. *)
Lemma strncmp_prefix (s2 rest s1 : list ascii) :
  Forall (λ c, c ≠ NUL) s2 →
  strncmp s1 (s2 ++ rest) (length s2) = 0 ↔ take (length s2) s1 = s2.
Proof.
  intros Hnz. revert s1. induction Hnz as [|c s2 Hc _ IH]; intros s1.
  - simpl. rewrite take_0. tauto.
  - destruct s1 as [|c1 s1]; simpl.
    + destruct (decide (NUL ≠ c)) as [Hd|Hd].
      * split; [intros E; exfalso; revert E; by apply nat_of_ascii_diff | discriminate].
      * exfalso. apply Hd. congruence.
    + destruct (decide (c1 ≠ c)) as [Hd|Hd].
      * split; [intros E; exfalso; revert E; by apply nat_of_ascii_diff | congruence].
      * assert (c1 = c) as -> by (destruct (decide (c1 = c)); tauto).
        destruct (decide (c = NUL)); [done|].
        rewrite IH. split; congruence.
Qed.

Lemma adobeNamespace_no_NUL : Forall (λ c, c ≠ NUL) adobeNamespace.
Proof. unfold adobeNamespace. simpl. repeat constructor; discriminate. Qed.

Lemma namespace_test (xmp_data : list ascii) :
  strncmp xmp_data (c_str (string_of_cstr nameSpaceLiteral))
    (length (string_of_cstr nameSpaceLiteral)) = 0
  ↔ take 28 xmp_data = adobeNamespace.
Proof.
  rewrite nameSpace_value. unfold c_str.
  rewrite (strncmp_prefix adobeNamespace [NUL] xmp_data adobeNamespace_no_NUL).
  reflexivity.
Qed.

Section Decoder.
Context {float : Type} `{!CxxFloat float} `{!XmlReader}.

Lemma getMetadataFromXMP_cases (xmp_data : list ascii) (metadata : jpegr_metadata float) :
  getMetadataFromXMP xmp_data metadata =
    if decide (length xmp_data < 30)%nat then Ret (SHORT_INPUT, metadata)
    else if decide (take 28 xmp_data = adobeNamespace) then decodeBody xmp_data metadata
    else Ret (NOT_XMP_NAMESPACE, metadata).
Proof.
  unfold getMetadataFromXMP, decodeBody. rewrite nameSpace_size.
  change (28 + 2)%nat with 30%nat.
  destruct (decide (length xmp_data < 30)%nat); [done|].
  pose proof (namespace_test xmp_data) as Hns. rewrite nameSpace_size in Hns.
  destruct (decide (strncmp _ _ _ ≠ 0)) as [Hd|Hd];
    destruct (decide (take 28 xmp_data = adobeNamespace)) as [He|He]; try done.
  - exfalso. apply Hd. by apply Hns.
  - exfalso. apply He. apply Hns. destruct (decide (strncmp xmp_data
      (c_str (string_of_cstr nameSpaceLiteral)) 28 = 0)); [done|contradiction].
Qed.

Lemma decodeBody_not_namespace (xmp_data : list ascii) (metadata m' : jpegr_metadata float) :
  decodeBody xmp_data metadata ≠ Ret (NOT_XMP_NAMESPACE, m').
Proof.
  unfold decodeBody. destruct (xmlPortion xmp_data); [|done].
  destruct (runReader s) as [h errs]. destruct errs; [done|].
  destruct (getRangeScalingFactor h); [|done].
  destruct (getTransferFunction h); done.
Qed.

(** C10.  An input of fewer than 30 bytes is rejected at the length test,
    before anything is compared or parsed; the metadata record is the
    caller's. *)
Theorem short_input_rejected (xmp_data : list ascii) (metadata : jpegr_metadata float) :
  (length xmp_data < 30)%nat →
  getMetadataFromXMP xmp_data metadata = Ret (SHORT_INPUT, metadata)
  ∧ returned SHORT_INPUT = false.
Proof.
  intros Hlen. split; [|done].
  rewrite getMetadataFromXMP_cases. by destruct (decide (length xmp_data < 30)%nat).
Qed.

(** C6, as amended.  An input of at least 30 bytes is rejected at the
    namespace test exactly when its first 28 bytes differ from
    [adobeNamespace]; byte 29 is not looked at. *)
Theorem namespace_check_28 (xmp_data : list ascii) (metadata : jpegr_metadata float) :
  (30 ≤ length xmp_data)%nat →
  (take 28 xmp_data ≠ adobeNamespace
   ↔ getMetadataFromXMP xmp_data metadata = Ret (NOT_XMP_NAMESPACE, metadata)).
Proof.
  intros Hlen. rewrite getMetadataFromXMP_cases.
  destruct (decide (length xmp_data < 30)%nat); [lia|].
  destruct (decide (take 28 xmp_data = adobeNamespace)) as [He|He].
  - split; [done|]. intros Hbody. by apply decodeBody_not_namespace in Hbody.
  - done.
Qed.

(** C7, as amended.  After a successful decoding the transfer function is
    the integer that [extractInt] reads from the attribute string, a 32-bit
    [int] converted without a range test; it is an enumerator exactly when
    it lies in 0..4. *)
Theorem transfer_function_is_cast (xmp_data : list ascii) (metadata m' : jpegr_metadata float) :
  getMetadataFromXMP xmp_data metadata = Ret (XMP_OK, m') →
  ∃ str handler,
    xmlPortion xmp_data = Some str
    ∧ runReader str = (handler, false)
    ∧ gContainerItemState handler = Done
    ∧ extractInt (transferFunctionStr handler) = Some (transferFunction m')
    ∧ (- 2 ^ 31 ≤ transferFunction m' ≤ 2 ^ 31 - 1)
    ∧ (is_enumerator (transferFunction m') ↔ 0 ≤ transferFunction m' ≤ 4).
Proof.
  rewrite getMetadataFromXMP_cases.
  destruct (decide (length xmp_data < 30)%nat); [done|].
  destruct (decide (take 28 xmp_data = adobeNamespace)); [|done].
  unfold decodeBody. destruct (xmlPortion xmp_data) as [str|]; [|done].
  destruct (runReader str) as [h errs] eqn:Hrun. destruct errs; [done|].
  destruct (getRangeScalingFactor h) as [v|]; [|done].
  destruct (getTransferFunction h) as [t|] eqn:Ht; [|done].
  intros [= <-]. exists str, h. simpl.
  unfold getTransferFunction in Ht.
  destruct (decide (gContainerItemState h = Done)) as [Hd|]; [|done].
  destruct (extractInt (transferFunctionStr h)) as [k|] eqn:Hk; [|done].
  simpl in Ht. injection Ht as <-. unfold static_cast_transfer_function.
  assert (- 2 ^ 31 ≤ k ≤ 2 ^ 31 - 1) as Hrange.
  { unfold extractInt in Hk. destruct (readSigned _); [|done]. simpl in Hk.
    case_decide; [|done]. injection Hk as <-. lia. }
  unfold is_enumerator, JPEGR_TF_UNSPECIFIED, JPEGR_TF_LINEAR, JPEGR_TF_HLG,
    JPEGR_TF_PQ, JPEGR_TF_SRGB.
  repeat split; first [done | lia].
Qed.

(** C9, as amended.  When the decoder fails, [version], [transferFunction]
    and [hdr10Metadata] of the record are the caller's; the record is
    either unchanged, or the scaling factor was parsed and stored and the
    transfer function then failed to parse, and only [rangeScalingFactor]
    differs. *)
Theorem failure_leaves_other_fields (xmp_data : list ascii) (metadata m' : jpegr_metadata float)
    (status : xmp_status) :
  getMetadataFromXMP xmp_data metadata = Ret (status, m') →
  status ≠ XMP_OK →
  version m' = version metadata
  ∧ transferFunction m' = transferFunction metadata
  ∧ hdr10Metadata m' = hdr10Metadata metadata
  ∧ (m' = metadata
     ∨ ∃ str handler v,
         xmlPortion xmp_data = Some str
         ∧ runReader str = (handler, false)
         ∧ getRangeScalingFactor handler = Some v
         ∧ getTransferFunction handler = None
         ∧ m' = set_rangeScalingFactor metadata v).
Proof.
  rewrite getMetadataFromXMP_cases. intros Hrun Hfail.
  destruct (decide (length xmp_data < 30)%nat); [injection Hrun as <- <-; tauto|].
  destruct (decide (take 28 xmp_data = adobeNamespace)); [|injection Hrun as <- <-; tauto].
  unfold decodeBody in Hrun. destruct (xmlPortion xmp_data) as [str|]; [|done].
  destruct (runReader str) as [h errs] eqn:Hr.
  destruct errs; [injection Hrun as <- <-; tauto|].
  destruct (getRangeScalingFactor h) as [v|] eqn:Hv; [|injection Hrun as <- <-; tauto].
  destruct (getTransferFunction h) as [t|] eqn:Ht; injection Hrun as <- <-; [done|].
  repeat split; try done. right. by exists str, h, v.
Qed.

End Decoder.

(** ** The tail trim *)

Lemma trimTail_spec (xmp_data : list ascii) (n : nat) :
  (1 ≤ n ≤ length xmp_data)%nat →
  ∃ n', trimTail xmp_data n = Some n'
        ∧ (1 ≤ n' ≤ n)%nat
        ∧ (xmp_data !! (n' - 1)%nat = Some ">"%char ∨ n' = 1%nat)
        ∧ (∀ j, (n' ≤ j < n)%nat → xmp_data !! j ≠ Some ">"%char).
Proof.
  induction n as [|n IH]; intros Hn; [lia|].
  simpl. destruct (lookup_lt_is_Some_2 xmp_data n ltac:(lia)) as [c Hc].
  rewrite Hc. destruct (decide (c = ">"%char)) as [->|Hne].
  - rewrite bool_decide_eq_false_2 by tauto. simpl.
    exists (S n). rewrite Nat.sub_1_r. simpl. repeat split; try lia; auto.
  - rewrite bool_decide_eq_true_2 by done. simpl.
    destruct (decide (1 < S n)%nat) as [Hlt|Hge].
    + rewrite bool_decide_eq_true_2 by done.
      destruct IH as (n' & Ht & Hr & Hl & Hno); [lia|].
      exists n'. repeat split; try lia; auto.
      intros j Hj. destruct (decide (j = n)) as [->|]; [congruence|]. apply Hno. lia.
    + rewrite bool_decide_eq_false_2 by done.
      exists (S n). repeat split; try lia; auto.
Qed.

Lemma trimTail_ext (d1 d2 : list ascii) (n : nat) :
  (∀ j, (j < n)%nat → d1 !! j = d2 !! j) → trimTail d1 n = trimTail d2 n.
Proof.
  induction n as [|n IH]; intros Hagree; [done|].
  simpl. rewrite (Hagree n) by lia. destruct (d2 !! n); [|done].
  rewrite IH; [done|]. intros j Hj. apply Hagree. lia.
Qed.

Lemma trimTail_le (d : list ascii) (n n' : nat) : trimTail d n = Some n' → (n' ≤ n)%nat.
Proof.
  revert n'. induction n as [|n IH]; intros n'; simpl; [done|].
  destruct (d !! n); [|done]. case_match.
  - intros Ht. apply IH in Ht. lia.
  - intros [= <-]. lia.
Qed.

(** Padding a non-empty buffer with NUL bytes does not change what the trim
    keeps. *)
Lemma trimTail_pad (s : list ascii) (k : nat) :
  s ≠ [] →
  trimTail (s ++ replicate k NUL) (length s + k) = trimTail s (length s).
Proof.
  intros Hne. induction k as [|k IH].
  - rewrite app_nil_r, Nat.add_0_r. done.
  - rewrite Nat.add_succ_r. remember (s ++ replicate (S k) NUL) as d eqn:Hd.
    simpl. subst d.
    rewrite lookup_app_r by lia.
    replace (length s + k - length s)%nat with k by lia.
    rewrite lookup_replicate_2 by lia.
    rewrite bool_decide_eq_true_2 by discriminate.
    rewrite bool_decide_eq_true_2 by (destruct s; [done|simpl; lia]). simpl.
    rewrite <- IH. apply trimTail_ext. intros j Hj.
    destruct (decide (j < length s)%nat).
    + by rewrite !lookup_app_l by lia.
    + rewrite !lookup_app_r by lia.
      change (NUL :: replicate k NUL) with (replicate (S k) NUL).
      rewrite !lookup_replicate_2 by lia. done.
Qed.

Section Trim.
Context {float : Type} `{!CxxFloat float} `{!XmlReader}.

Lemma xmlPortion_packet (body : list ascii) :
  xmlPortion (adobeNamespace ++ [NUL] ++ body) =
    n ← trimTail body (length body); Some (string_of_list_ascii (take n body)).
Proof.
  unfold xmlPortion. rewrite nameSpace_size.
  change (adobeNamespace ++ [NUL] ++ body) with ((adobeNamespace ++ [NUL]) ++ body)%list.
  rewrite length_app. change (length (adobeNamespace ++ [NUL])) with 29%nat.
  change (28 + 1)%nat with 29%nat.
  rewrite drop_app_length' by done.
  replace (29 + length body - 29)%nat with (length body) by lia. done.
Qed.

Lemma xmlPortion_pad (body : list ascii) (k : nat) :
  body ≠ [] →
  xmlPortion (adobeNamespace ++ [NUL] ++ body ++ replicate k NUL) =
  xmlPortion (adobeNamespace ++ [NUL] ++ body).
Proof.
  intros Hne. rewrite !xmlPortion_packet.
  rewrite length_app, length_replicate, trimTail_pad by done.
  destruct (trimTail body (length body)) as [n|] eqn:Ht; [|done]. simpl.
  apply trimTail_le in Ht. by rewrite take_app_le.
Qed.

Lemma xmlPortion_defined (xmp_data : list ascii) :
  (30 ≤ length xmp_data)%nat → is_Some (xmlPortion xmp_data).
Proof.
  intros Hlen. unfold xmlPortion. rewrite nameSpace_size.
  destruct (trimTail_spec (drop (28 + 1) xmp_data) (length xmp_data - (28 + 1))) as (n & -> & _).
  - rewrite length_drop. lia.
  - by eexists.
Qed.

Lemma decodeBody_pad (body : list ascii) (k : nat) (m0 : jpegr_metadata float) :
  body ≠ [] →
  decodeBody (adobeNamespace ++ [NUL] ++ body ++ replicate k NUL) m0 =
  decodeBody (adobeNamespace ++ [NUL] ++ body) m0.
Proof. intros Hne. unfold decodeBody. by rewrite xmlPortion_pad. Qed.

Lemma getMetadataFromXMP_pad (body : list ascii) (k : nat) (m0 : jpegr_metadata float) :
  body ≠ [] →
  getMetadataFromXMP (adobeNamespace ++ [NUL] ++ body ++ replicate k NUL) m0 =
  getMetadataFromXMP (adobeNamespace ++ [NUL] ++ body) m0.
Proof.
  intros Hne. rewrite !getMetadataFromXMP_cases.
  assert (0 < length body)%nat by (destruct body; [done|simpl; lia]).
  assert (∀ tail, ¬ (length (adobeNamespace ++ [NUL] ++ body ++ tail) < 30)%nat) as Hlong.
  { intros tail. rewrite !length_app. change (length adobeNamespace) with 28%nat.
    simpl. lia. }
  pose proof (Hlong []) as Hlong0. rewrite app_nil_r in Hlong0.
  destruct (decide (length (adobeNamespace ++ [NUL] ++ body ++ replicate k NUL) < 30)%nat)
    as [Hc|_]; [by apply Hlong in Hc|].
  destruct (decide (length (adobeNamespace ++ [NUL] ++ body) < 30)%nat)
    as [Hc|_]; [by apply Hlong0 in Hc|].
  rewrite !decide_True by done. by apply decodeBody_pad.
Qed.

Lemma getMetadataFromXMP_no_fault (xmp_data : list ascii) (m0 : jpegr_metadata float) :
  getMetadataFromXMP xmp_data m0 ≠ Fault.
Proof.
  rewrite getMetadataFromXMP_cases.
  destruct (decide (length xmp_data < 30)%nat); [done|].
  destruct (decide (take 28 xmp_data = adobeNamespace)); [|done].
  unfold decodeBody. destruct (xmlPortion_defined xmp_data) as [str ->]; [lia|].
  destruct (runReader str) as [h errs]. destruct errs; [done|].
  destruct (getRangeScalingFactor h); [|done]. by destruct (getTransferFunction h).
Qed.

(** The handler reaches [Done] only through a [FinishElement] callback. *)
Lemma handler_done_needs_finish (events : list XmlEvent) (h : XMPXmlHandler) :
  gContainerItemState (fold_left dispatch events h) = Done →
  gContainerItemState h = Done ∨ OnFinishElement ∈ events.
Proof.
  revert h. induction events as [|e events IH]; intros h; simpl; [auto|].
  intros Hd. destruct (IH _ Hd) as [Hh|Hin]; [|right; by right].
  destruct e as [c| |c|c]; simpl in Hh.
  - left. unfold StartElement in Hh. destruct c; [|done].
    repeat case_decide; simpl in Hh; done.
  - right. left.
  - left. unfold AttributeName in Hh. case_decide; [|done].
    destruct c; [|done]. repeat case_decide; simpl in Hh; congruence.
  - left. unfold AttributeValue in Hh. case_decide; [|done].
    destruct c; [|done]. repeat case_decide; simpl in Hh; congruence.
Qed.

Lemma xmlPortion_chars (xmp_data : list ascii) (str : string) (c : ascii) :
  xmlPortion xmp_data = Some str →
  c ∈ list_ascii_of_string str → c ∈ drop 29 xmp_data.
Proof.
  unfold xmlPortion. rewrite nameSpace_size. change (28 + 1)%nat with 29%nat.
  destruct (trimTail _ _) as [n|]; [|done]. simpl. intros [= <-].
  rewrite list_ascii_of_string_of_list_ascii. intros Hin.
  eapply subseteq_take; eauto.
Qed.

Lemma decodeBody_without_gt (xmp_data : list ascii) (m0 : jpegr_metadata float) :
  (∀ str, OnFinishElement ∈ (Parse str).1 → ">"%char ∈ list_ascii_of_string str) →
  (30 ≤ length xmp_data)%nat →
  ">"%char ∉ drop 29 xmp_data →
  decodeBody xmp_data m0 = Ret (XMP_MALFORMED, m0).
Proof.
  intros Hsane Hlen Hno. unfold decodeBody.
  destruct (xmlPortion_defined xmp_data Hlen) as [str Hstr]. rewrite Hstr.
  unfold runReader. destruct (Parse str) as [events errs] eqn:Hp.
  destruct errs; [done|].
  unfold getRangeScalingFactor.
  destruct (decide (gContainerItemState _ = Done)) as [Hd|]; [|done].
  exfalso. apply handler_done_needs_finish in Hd as [Hd|Hin]; [done|].
  apply Hno. eapply xmlPortion_chars; [done|]. apply Hsane. by rewrite Hp.
Qed.

End Trim.

(** ** The reference reader *)

Lemma readerStep_finish (st : ReaderState) (depth : nat) (c : ascii) :
  OnFinishElement ∈ (readerStep st depth c).2 → c = ">"%char.
Proof.
  destruct st; simpl; repeat case_match; simpl; subst;
    try (intros Hin; by apply elem_of_nil in Hin);
    try (intros Hin; apply list_elem_of_singleton in Hin; done); done.
Qed.

Lemma readerRun_finish (s : string) (st : ReaderState) (depth : nat) :
  OnFinishElement ∈ (readerRun st depth s).2 → ">"%char ∈ list_ascii_of_string s.
Proof.
  revert st depth. induction s as [|c s IH]; intros st depth; simpl.
  - intros Hin. by apply elem_of_nil in Hin.
  - destruct (readerStep st depth c) as [[st1 d1] ev1] eqn:Hstep.
    destruct (readerRun st1 d1 s) as [[st2 d2] ev2] eqn:Hrun. simpl.
    intros [Hin|Hin]%elem_of_app.
    + assert (c = ">"%char) as -> by (apply (readerStep_finish st depth); by rewrite Hstep).
      left.
    + right. apply (IH st1 d1). by rewrite Hrun.
Qed.

Lemma simpleReader_finish (str : string) :
  OnFinishElement ∈ (@Parse simpleReader str).1 → ">"%char ∈ list_ascii_of_string str.
Proof.
  simpl. destruct (readerRun InText 0 str) as [[st d] ev] eqn:Hrun. simpl.
  intros Hin. apply (readerRun_finish str InText 0%nat). by rewrite Hrun.
Qed.
Section TailTolerance.
Context {float : Type} `{!CxxFloat float} `{!XmlReader} `{!XmlWriter float}.

(** C8.  Padding the packet [adobeNamespace ++ NUL ++ generateXmp L m] with
    NUL bytes does not change the result of the decoder.  The trim stops at
    the last [>] or at one remaining byte, reads positions inside the
    buffer only ([trimTail] is defined there, and the decoder never
    faults), and an input without [>] behind the namespace is rejected.
    The XML library is a parameter: its writer gives a non-empty document,
    and its reader reports the end of an element only for a text with a
    [>]. *)
Theorem tail_tolerance (L : Z) (m m0 : jpegr_metadata float) (k : nat) :
  generateXmp L m ≠ EmptyString →
  (∀ str, OnFinishElement ∈ (Parse str).1 → ">"%char ∈ list_ascii_of_string str) →
  getMetadataFromXMP
    (adobeNamespace ++ [NUL] ++ list_ascii_of_string (generateXmp L m) ++ replicate k NUL) m0
  = getMetadataFromXMP
      (adobeNamespace ++ [NUL] ++ list_ascii_of_string (generateXmp L m)) m0
  ∧ (∀ (xmp_data : list ascii) (n : nat),
       (1 ≤ n ≤ length xmp_data)%nat →
       ∃ n', trimTail xmp_data n = Some n'
             ∧ (1 ≤ n' ≤ n)%nat
             ∧ (xmp_data !! (n' - 1)%nat = Some ">"%char ∨ n' = 1%nat)
             ∧ (∀ j, (n' ≤ j < n)%nat → xmp_data !! j ≠ Some ">"%char))
  ∧ (∀ xmp_data : list ascii, getMetadataFromXMP xmp_data m0 ≠ Fault)
  ∧ (∀ xmp_data : list ascii,
       (30 ≤ length xmp_data)%nat →
       ">"%char ∉ drop 29 xmp_data →
       ∃ status, getMetadataFromXMP xmp_data m0 = Ret (status, m0) ∧ status ≠ XMP_OK).
Proof.
  intros Hgen Hsane. split; [|split; [|split]].
  - apply getMetadataFromXMP_pad. destruct (generateXmp L m); [done|]. simpl. done.
  - intros xmp_data n Hn. by apply trimTail_spec.
  - intros xmp_data. apply getMetadataFromXMP_no_fault.
  - intros xmp_data Hlen Hno. rewrite getMetadataFromXMP_cases.
    destruct (decide (length xmp_data < 30)%nat); [lia|].
    destruct (decide (take 28 xmp_data = adobeNamespace)).
    + exists XMP_MALFORMED. split; [|done]. by apply decodeBody_without_gt.
    + by exists NOT_XMP_NAMESPACE.
Qed.
End TailTolerance.

(** ** The round trip through encoder and decoder *)


Section RoundTrip.
Context {float : Type} `{!CxxFloat float} `{!XmlReader} `{!XmlWriter float}.
Variables (showFloat : float → string) (showInt : Z → string).


End RoundTrip.

(** ** Runs of the decoder on the sample packets *)

(** Three NUL bytes behind the document of [pqMetadata], with the
    reference reader and writer. *)
Lemma tail_tolerance_witness :
  @generateXmp Z simpleWriter 1234 pqMetadata ≠ EmptyString
  ∧ @getMetadataFromXMP Z wholeFloat simpleReader
      (adobeNamespace ++ [NUL]
         ++ list_ascii_of_string (@generateXmp Z simpleWriter 1234 pqMetadata)
         ++ replicate 3 NUL) blankMetadata
    = Ret (XMP_OK, set_transferFunction (set_rangeScalingFactor blankMetadata 3) JPEGR_TF_PQ).
Proof.
  assert (@generateXmp Z simpleWriter 1234 pqMetadata ≠ EmptyString) as Hgen
    by (vm_compute; discriminate).
  split; [exact Hgen|].
  rewrite (proj1 (@tail_tolerance Z wholeFloat simpleReader simpleWriter 1234 pqMetadata
                    blankMetadata 3 Hgen simpleReader_finish)).
  vm_compute. reflexivity.
Defined.


(** The namespace and its NUL alone: 29 bytes. *)
Lemma short_input_rejected_witness :
  (length (adobeNamespace ++ [NUL]) < 30)%nat
  ∧ @getMetadataFromXMP Z wholeFloat simpleReader (adobeNamespace ++ [NUL]) blankMetadata
    = Ret (SHORT_INPUT, blankMetadata).
Proof.
  assert (length (adobeNamespace ++ [NUL]) < 30)%nat as Hlen by (vm_compute; lia).
  split; [exact Hlen|].
  exact (proj1 (@short_input_rejected Z wholeFloat simpleReader _ blankMetadata Hlen)).
Defined.

(** [otherNamespacePacket] is rejected at the namespace test. *)
Lemma namespace_check_28_witness :
  (30 ≤ length otherNamespacePacket)%nat
  ∧ take 28 otherNamespacePacket ≠ adobeNamespace
  ∧ @getMetadataFromXMP Z wholeFloat simpleReader otherNamespacePacket blankMetadata
    = Ret (NOT_XMP_NAMESPACE, blankMetadata).
Proof.
  assert (30 ≤ length otherNamespacePacket)%nat as Hlen by (vm_compute; lia).
  assert (take 28 otherNamespacePacket ≠ adobeNamespace) as Hne by (vm_compute; discriminate).
  split; [exact Hlen|]. split; [exact Hne|].
  exact (proj1 (@namespace_check_28 Z wholeFloat simpleReader _ blankMetadata Hlen) Hne).
Defined.

(** C6 fails as stated.  [unterminatedNamespacePacket] has an X as byte 29
    and is decoded. *)
Lemma namespace_nul_not_checked :
  take 29 unterminatedNamespacePacket ≠ adobeNamespace ++ [NUL]
  ∧ (30 ≤ length unterminatedNamespacePacket)%nat
  ∧ @getMetadataFromXMP Z wholeFloat simpleReader
      unterminatedNamespacePacket blankMetadata
    = Ret (XMP_OK, set_transferFunction (set_rangeScalingFactor blankMetadata 2) JPEGR_TF_LINEAR).
Proof.
  split; [vm_compute; discriminate|]. split; [vm_compute; lia|]. vm_compute. reflexivity.
Qed.

(** A packet with the transfer function 2. *)
Lemma transfer_function_is_cast_witness :
  @getMetadataFromXMP Z wholeFloat simpleReader (xmpPacket (itemDocument "2" "2")) blankMetadata
    = Ret (XMP_OK, set_transferFunction (set_rangeScalingFactor blankMetadata 2) JPEGR_TF_HLG)
  ∧ is_enumerator JPEGR_TF_HLG.
Proof.
  assert (@getMetadataFromXMP Z wholeFloat simpleReader (xmpPacket (itemDocument "2" "2"))
            blankMetadata
          = Ret (XMP_OK, set_transferFunction (set_rangeScalingFactor blankMetadata 2)
                           JPEGR_TF_HLG)) as Hrun by (vm_compute; reflexivity).
  split; [exact Hrun|].
  destruct (@transfer_function_is_cast Z wholeFloat simpleReader _ _ _ Hrun)
    as (str & handler & _ & _ & _ & _ & _ & Henum).
  apply Henum. vm_compute. split; discriminate.
Defined.

(** C7 fails as stated.  The attribute value 7 is decoded to the transfer
    function 7, which is no enumerator. *)
Lemma transfer_function_outside_enum :
  @getMetadataFromXMP Z wholeFloat simpleReader (xmpPacket (itemDocument "2" "7")) blankMetadata
    = Ret (XMP_OK, set_transferFunction (set_rangeScalingFactor blankMetadata 2) 7)
  ∧ ¬ is_enumerator
        (transferFunction (set_transferFunction (set_rangeScalingFactor blankMetadata 2) 7)).
Proof.
  split; [vm_compute; reflexivity|].
  unfold is_enumerator, JPEGR_TF_UNSPECIFIED, JPEGR_TF_LINEAR, JPEGR_TF_HLG,
    JPEGR_TF_PQ, JPEGR_TF_SRGB. simpl. lia.
Qed.

(** A packet with the transfer function [abc]: the other fields of the
    record. *)
Lemma failure_leaves_other_fields_witness :
  @getMetadataFromXMP Z wholeFloat simpleReader (xmpPacket (itemDocument "2" "abc")) blankMetadata
    = Ret (XMP_MALFORMED, set_rangeScalingFactor blankMetadata 2)
  ∧ transferFunction (set_rangeScalingFactor blankMetadata 2) = transferFunction blankMetadata.
Proof.
  assert (@getMetadataFromXMP Z wholeFloat simpleReader (xmpPacket (itemDocument "2" "abc"))
            blankMetadata
          = Ret (XMP_MALFORMED, set_rangeScalingFactor blankMetadata 2)) as Hrun
    by (vm_compute; reflexivity).
  split; [exact Hrun|].
  assert (XMP_MALFORMED ≠ XMP_OK) as Hfail by discriminate.
  exact (proj1 (proj2 (@failure_leaves_other_fields Z wholeFloat simpleReader _ _ _ _ Hrun Hfail))).
Defined.

(** C9 fails as stated.  With the transfer function [abc] the decoder
    fails, and the scaling factor of the record is 2, not the caller's 0. *)
Lemma failure_overwrites_scaling_factor :
  @getMetadataFromXMP Z wholeFloat simpleReader (xmpPacket (itemDocument "2" "abc")) blankMetadata
    = Ret (XMP_MALFORMED, set_rangeScalingFactor blankMetadata 2)
  ∧ rangeScalingFactor (set_rangeScalingFactor blankMetadata 2)
    ≠ rangeScalingFactor blankMetadata.
Proof. split; [vm_compute; reflexivity|]. vm_compute. discriminate. Qed.

(** ** Bytes behind the last [>] *)

Lemma trimTail_garbage (s tail : list ascii) :
  s ≠ [] → ">"%char ∉ tail →
  trimTail (s ++ tail) (length s + length tail) = trimTail s (length s).
Proof.
  intros Hne. induction tail as [|c tail IH] using rev_ind; intros Hno.
  - rewrite app_nil_r, Nat.add_0_r. done.
  - rewrite length_app. cbn [length]. rewrite Nat.add_1_r, Nat.add_succ_r.
    remember (s ++ tail ++ [c]) as d eqn:Hd. cbn [trimTail]. subst d.
    rewrite app_assoc.
    rewrite lookup_app_r by (rewrite length_app; lia).
    rewrite length_app, Nat.sub_diag. cbn [lookup list_lookup].
    rewrite bool_decide_eq_true_2
      by (intros ->; apply Hno; apply elem_of_app; right; left).
    rewrite bool_decide_eq_true_2 by (destruct s; [done|simpl; lia]).
    cbn [andb]. rewrite <- IH.
    + apply trimTail_ext. intros i Hi. rewrite lookup_app_l by (rewrite length_app; lia). done.
    + intros Hin. apply Hno. apply elem_of_app. by left.
Qed.

Section Garbage.
Context {float : Type} `{!CxxFloat float} `{!XmlReader}.

Lemma xmlPortion_behind (pre body : list ascii) :
  length pre = 29%nat →
  xmlPortion (pre ++ body) =
    n ← trimTail body (length body); Some (string_of_list_ascii (take n body)).
Proof.
  intros Hpre.
  assert (drop 29 (pre ++ body) = body) as Hdrop
    by (rewrite <- Hpre; apply drop_app_length).
  unfold xmlPortion. rewrite nameSpace_size.
  change (28 + 1)%nat with 29%nat. rewrite length_app, Hpre, Hdrop.
  replace (29 + length body - 29)%nat with (length body) by lia. done.
Qed.

(** X12.  Bytes behind the document that hold no [>] do not change the
    result of the decoder, whatever they are. *)
Theorem trailing_bytes_ignored (pre body tail : list ascii) (metadata : jpegr_metadata float) :
  length pre = 29%nat → body ≠ [] → ">"%char ∉ tail →
  getMetadataFromXMP (pre ++ body ++ tail) metadata
  = getMetadataFromXMP (pre ++ body) metadata.
Proof.
  intros Hpre Hne Hno. rewrite !getMetadataFromXMP_cases.
  assert (0 < length body)%nat by (destruct body; [done|simpl; lia]).
  rewrite !length_app, Hpre.
  destruct (decide (29 + (length body + length tail) < 30)%nat); [lia|].
  destruct (decide (29 + length body < 30)%nat); [lia|].
  rewrite !take_app_le by lia.
  destruct (decide (take 28 pre = adobeNamespace)); [|done].
  unfold decodeBody. rewrite !xmlPortion_behind by done.
  rewrite length_app, trimTail_garbage by done.
  destruct (trimTail body (length body)) as [kept|] eqn:Ht; [|done]. simpl.
  apply trimTail_le in Ht. by rewrite take_app_le.
Qed.

End Garbage.

Section Separator.
Context {float : Type} `{!CxxFloat float} `{!XmlReader}.

(** X13.  The byte between the namespace and the document is stepped over
    and never read: the result is the same for every value of it. *)
Theorem separator_byte_ignored (c c' : ascii) (body : list ascii)
    (metadata : jpegr_metadata float) :
  getMetadataFromXMP (adobeNamespace ++ [c] ++ body) metadata
  = getMetadataFromXMP (adobeNamespace ++ [c'] ++ body) metadata.
Proof.
  rewrite !getMetadataFromXMP_cases.
  rewrite !length_app. cbn [length].
  rewrite !take_app_length' by reflexivity.
  destruct (decide (length adobeNamespace + (1 + length body) < 30)%nat); [done|].
  rewrite decide_True by done.
  unfold decodeBody.
  rewrite (app_assoc adobeNamespace [c]), (app_assoc adobeNamespace [c']).
  rewrite !xmlPortion_behind by reflexivity. done.
Qed.

End Separator.

(** ** The element handler (lines 64-128) *)

Lemma attribute_names_differ : rangeScalingFactorAttrName ≠ transferFunctionAttrName.
Proof. discriminate. Qed.

Lemma attributeEvents_cons (name val : string) (attrs : list (string * string)) :
  attributeEvents ((name, val) :: attrs)
  = OnAttributeName (Some name) :: OnAttributeValue (Some val) :: attributeEvents attrs.
Proof. done. Qed.

Lemma lastValue_cons (key name val : string) (attrs : list (string * string)) (old : string) :
  lastValue key ((name, val) :: attrs) old
  = lastValue key attrs (if decide (name = key) then val else old).
Proof. done. Qed.

(** The attributes of an open item: each value is filed under the name
    announced before it. *)
Lemma attributeEvents_started (attrs : list (string * string)) (h : XMPXmlHandler) :
  gContainerItemState h = Started →
  (lastAttributeName h = rangeScalingFactorAttrName
   ∨ lastAttributeName h = transferFunctionAttrName
   ∨ lastAttributeName h = EmptyString) →
  let h' := fold_left dispatch (attributeEvents attrs) h in
  gContainerItemState h' = Started
  ∧ rangeScalingFactorStr h'
    = lastValue rangeScalingFactorAttrName attrs (rangeScalingFactorStr h)
  ∧ transferFunctionStr h'
    = lastValue transferFunctionAttrName attrs (transferFunctionStr h).
Proof.
  revert h. induction attrs as [|[name val] attrs IH]; intros h Hst Hlast; [done|].
  rewrite attributeEvents_cons, !lastValue_cons. cbn [fold_left].
  set (h1 := dispatch h (OnAttributeName (Some name))).
  set (h2 := dispatch h1 (OnAttributeValue (Some val))).
  assert (gContainerItemState h1 = Started
          ∧ rangeScalingFactorStr h1 = rangeScalingFactorStr h
          ∧ transferFunctionStr h1 = transferFunctionStr h
          ∧ lastAttributeName h1
            = (if decide (name = rangeScalingFactorAttrName) then rangeScalingFactorAttrName
               else if decide (name = transferFunctionAttrName) then transferFunctionAttrName
               else EmptyString)) as (Hst1 & Hr1 & Ht1 & Hl1).
  { unfold h1. cbn [dispatch]. unfold AttributeName. rewrite decide_True by done.
    repeat case_decide; done. }
  assert (gContainerItemState h2 = Started
          ∧ lastAttributeName h2 = lastAttributeName h1
          ∧ rangeScalingFactorStr h2
            = (if decide (name = rangeScalingFactorAttrName) then val
               else rangeScalingFactorStr h)
          ∧ transferFunctionStr h2
            = (if decide (name = transferFunctionAttrName) then val
               else transferFunctionStr h)) as (Hst2 & Hl2 & Hr2 & Ht2).
  { unfold h2. cbn [dispatch]. unfold AttributeValue. rewrite decide_True by done.
    rewrite Hl1. pose proof attribute_names_differ as Hdiff.
    destruct (decide (name = rangeScalingFactorAttrName)) as [->|Hn1].
    - rewrite decide_True by done. rewrite decide_False by done. done.
    - destruct (decide (name = transferFunctionAttrName)) as [->|Hn2].
      + rewrite decide_False by (intros E; by apply Hdiff). rewrite decide_True by done. done.
      + rewrite decide_False by discriminate. rewrite decide_False by discriminate. done. }
  destruct (IH h2 Hst2) as (Hd & Hr & Ht).
  { rewrite Hl2, Hl1. repeat case_decide; auto. }
  cbv zeta in *. rewrite Hd, Hr, Ht, Hr2, Ht2. done.
Qed.

Lemma FinishElement_started (h : XMPXmlHandler) :
  gContainerItemState h = Started →
  FinishElement h
  = mkHandler (rangeScalingFactorStr h) (transferFunctionStr h) EmptyString Done.
Proof. intros Hst. unfold FinishElement. by rewrite decide_True. Qed.

(** X14.  The callbacks of one [GContainer:Item] element without child
    elements, made on any handler: the handler ends in [Done], the scaling
    factor and the transfer function strings are the values of the last
    attributes with those names, or stay as they were where the element
    has none, and no attribute name is pending. *)
Theorem item_attributes_captured (attrs : list (string * string)) (h : XMPXmlHandler) :
  fold_left dispatch (itemEvents attrs) h
  = mkHandler (lastValue rangeScalingFactorAttrName attrs (rangeScalingFactorStr h))
      (lastValue transferFunctionAttrName attrs (transferFunctionStr h))
      EmptyString Done.
Proof.
  unfold itemEvents. cbn [fold_left]. rewrite fold_left_app.
  set (h0 := dispatch h (OnStartElement (Some gContainerItemName))).
  assert (h0 = setState h Started) as Hh0.
  { unfold h0. cbn [dispatch]. unfold StartElement. by rewrite decide_True. }
  change (fold_left dispatch [OnFinishElement] ?x) with (FinishElement x).
  destruct attrs as [|[name val] attrs].
  - cbn [attributeEvents flat_map fold_left lastValue].
    rewrite FinishElement_started by (by rewrite Hh0). by rewrite Hh0.
  - (* the name of the first attribute replaces whatever name the handler
       held before any value is filed *)
    rewrite attributeEvents_cons, !lastValue_cons. cbn [fold_left].
    set (h1 := dispatch h0 (OnAttributeName (Some name))).
    set (g := mkHandler (rangeScalingFactorStr h) (transferFunctionStr h) EmptyString Started).
    assert (dispatch g (OnAttributeName (Some name)) = h1) as Hsame.
    { unfold h1, g. rewrite Hh0. cbn [dispatch]. unfold AttributeName, setState.
      cbn [gContainerItemState]. rewrite !decide_True by done.
      unfold setLastAttributeName. cbn. done. }
    pose proof (attributeEvents_started ((name, val) :: attrs) g) as Hgen.
    rewrite attributeEvents_cons, !lastValue_cons in Hgen. cbn [fold_left] in Hgen.
    rewrite Hsame in Hgen. destruct Hgen as (Hst & Hr & Ht); [done|auto|].
    rewrite FinishElement_started by done. rewrite Hr, Ht. done.
Qed.

(** ** Documents without an item *)

Lemma dispatch_idle (events : list XmlEvent) (h : XMPXmlHandler) :
  gContainerItemState h = NotStrarted →
  OnStartElement (Some gContainerItemName) ∉ events →
  fold_left dispatch events h = h.
Proof.
  revert h. induction events as [|e events IH]; intros h Hst Hno; [done|].
  cbn [fold_left].
  assert (dispatch h e = h) as ->.
  { destruct e as [c| |c|c]; cbn [dispatch].
    - unfold StartElement. destruct c as [val|]; [|done].
      rewrite decide_False by (intros ->; apply Hno; left).
      rewrite decide_True by (rewrite Hst; discriminate).
      destruct h. cbn in Hst. subst. done.
    - unfold FinishElement. rewrite decide_False by (rewrite Hst; discriminate). done.
    - unfold AttributeName. rewrite decide_False by (rewrite Hst; discriminate). done.
    - unfold AttributeValue. rewrite decide_False by (rewrite Hst; discriminate). done. }
  apply IH; [done|]. intros Hin. apply Hno. by right.
Qed.

Section Decoding.
Context {float : Type} `{!CxxFloat float} `{!XmlReader}.

(** X15.  A document in which the reader meets no start of a
    [GContainer:Item] element is rejected, and the record is left as the
    caller gave it. *)
Theorem document_without_item_rejected (xmp_data : list ascii) (str : string)
    (metadata : jpegr_metadata float) :
  xmlPortion xmp_data = Some str →
  OnStartElement (Some gContainerItemName) ∉ (Parse str).1 →
  ∃ status, getMetadataFromXMP xmp_data metadata = Ret (status, metadata)
            ∧ status ≠ XMP_OK.
Proof.
  intros Hstr Hno. rewrite getMetadataFromXMP_cases.
  destruct (decide (length xmp_data < 30)%nat); [by exists SHORT_INPUT|].
  destruct (decide (take 28 xmp_data = adobeNamespace)); [|by exists NOT_XMP_NAMESPACE].
  exists XMP_MALFORMED. split; [|done].
  unfold decodeBody. rewrite Hstr. unfold runReader.
  destruct (Parse str) as [events errs]. cbn [fst] in Hno.
  destruct errs; [done|].
  rewrite dispatch_idle by done.
  unfold getRangeScalingFactor. cbn. done.
Qed.

(** X16.  When the decoder succeeds, and with what: exactly when the input
    has at least 30 bytes and starts with the namespace, the reader reports
    no error on the trimmed document, the handler ends in [Done], and both
    strings convert; the record then has the two converted values, and its
    [version] and [hdr10Metadata] are the caller's. *)
Theorem decoder_succeeds_iff (xmp_data : list ascii) (metadata m' : jpegr_metadata float) :
  getMetadataFromXMP xmp_data metadata = Ret (XMP_OK, m')
  ↔ (30 ≤ length xmp_data)%nat
    ∧ take 28 xmp_data = adobeNamespace
    ∧ ∃ str handler v t,
        xmlPortion xmp_data = Some str
        ∧ runReader str = (handler, false)
        ∧ gContainerItemState handler = Done
        ∧ extractFloat (rangeScalingFactorStr handler) = Some v
        ∧ extractInt (transferFunctionStr handler) = Some t
        ∧ m' = mkMetadata (version metadata) v t (hdr10Metadata metadata).
Proof.
  rewrite getMetadataFromXMP_cases. split.
  - destruct (decide (length xmp_data < 30)%nat); [done|].
    destruct (decide (take 28 xmp_data = adobeNamespace)); [|done].
    unfold decodeBody. destruct (xmlPortion xmp_data) as [str|]; [|done].
    destruct (runReader str) as [h errs] eqn:Hrun. destruct errs; [done|].
    unfold getRangeScalingFactor, getTransferFunction.
    destruct (decide (gContainerItemState h = Done)) as [Hd|]; [|done].
    destruct (extractFloat (rangeScalingFactorStr h)) as [v|] eqn:Hv; [|done].
    destruct (extractInt (transferFunctionStr h)) as [t|] eqn:Ht; [|done].
    cbn. intros [= <-]. split; [lia|]. split; [done|].
    exists str, h, v, t. done.
  - intros (Hlen & Hns & str & h & v & t & Hstr & Hrun & Hd & Hv & Ht & ->).
    destruct (decide (length xmp_data < 30)%nat); [lia|].
    rewrite decide_True by done.
    unfold decodeBody. rewrite Hstr, Hrun.
    unfold getRangeScalingFactor, getTransferFunction.
    rewrite !decide_True by done. rewrite Hv, Ht. done.
Qed.

End Decoding.

(** ** The encoder and the HDR10 fields *)

Section Encoding.
Context {float : Type} `{!XmlWriter float}.

(** X17.  Unless the transfer function is PQ, the document does not depend
    on the HDR10 fields: two records that agree on version, scaling factor
    and transfer function give the same text, for any writer. *)
Theorem generateXmp_without_hdr10 (secondary_image_length : Z)
    (metadata metadata' : jpegr_metadata float) :
  transferFunction metadata ≠ JPEGR_TF_PQ →
  version metadata' = version metadata →
  rangeScalingFactor metadata' = rangeScalingFactor metadata →
  transferFunction metadata' = transferFunction metadata →
  generateXmp secondary_image_length metadata' = generateXmp secondary_image_length metadata.
Proof.
  intros Hpq Hv Hr Ht. unfold generateXmp. rewrite Hv, Hr, Ht.
  destruct (StartWritingElements _ _) as [item_depth w].
  rewrite !decide_False by done. done.
Qed.

End Encoding.

(** ** Further runs of the decoder *)

Lemma trailing_bytes_ignored_witness :
  (">"%char ∉ list_ascii_of_string "junk")
  ∧ @getMetadataFromXMP Z wholeFloat simpleReader
      ((adobeNamespace ++ [NUL]) ++ itemDocument "2" "1" ++ list_ascii_of_string "junk")
      blankMetadata
    = Ret (XMP_OK, set_transferFunction (set_rangeScalingFactor blankMetadata 2) JPEGR_TF_LINEAR).
Proof.
  assert (">"%char ∉ list_ascii_of_string "junk") as Hno
    by (apply (bool_decide_unpack _); vm_compute; exact I).
  split; [exact Hno|].
  rewrite (@trailing_bytes_ignored Z wholeFloat simpleReader (adobeNamespace ++ [NUL])
             (itemDocument "2" "1") (list_ascii_of_string "junk") blankMetadata);
    [vm_compute; reflexivity|reflexivity|vm_compute; discriminate|exact Hno].
Defined.

Lemma document_without_item_rejected_witness :
  (OnStartElement (Some gContainerItemName)
     ∉ (@Parse simpleReader (string_of_list_ascii (removelast otherDocument))).1)
  ∧ ∃ status,
      @getMetadataFromXMP Z wholeFloat simpleReader (xmpPacket otherDocument) blankMetadata
      = Ret (status, blankMetadata) ∧ status ≠ XMP_OK.
Proof.
  assert (OnStartElement (Some gContainerItemName)
            ∉ (@Parse simpleReader (string_of_list_ascii (removelast otherDocument))).1) as Hno
    by (apply (bool_decide_unpack _); vm_compute; exact I).
  split; [exact Hno|].
  apply (@document_without_item_rejected Z wholeFloat simpleReader
           (xmpPacket otherDocument) (string_of_list_ascii (removelast otherDocument)) blankMetadata);
    [vm_compute; reflexivity|exact Hno].
Defined.

Lemma generateXmp_without_hdr10_witness :
  transferFunction hlgMetadata ≠ JPEGR_TF_PQ
  ∧ hdr10Metadata hlgMetadataDim ≠ hdr10Metadata hlgMetadata
  ∧ @generateXmp Z simpleWriter 1234 hlgMetadataDim = @generateXmp Z simpleWriter 1234 hlgMetadata.
Proof.
  assert (transferFunction hlgMetadata ≠ JPEGR_TF_PQ) as Hpq by discriminate.
  split; [exact Hpq|]. split; [discriminate|].
  apply (@generateXmp_without_hdr10 Z simpleWriter 1234 hlgMetadata hlgMetadataDim Hpq);
    reflexivity.
Defined.

(** * Properties of the runtime sensor *)

(** X18.  Each of [activate], [batch] and [setDelay] leaves the sensor
    with the configuration that was asked for, and invokes the callback
    exactly when that differs from the configuration before and the request
    is an [activate] or the sensor is enabled; the callback then gets the
    new configuration.  The fields are written before the callback runs, so
    they are the requested ones whatever status it returns. *)
Theorem runtime_sensor_step (s : RuntimeSensor.state) (r : RuntimeSensor.request) :
  (RuntimeSensor.step s r).2 = RuntimeSensor.requested s r
  ∧ (RuntimeSensor.step s r).1
    = (if decide (RuntimeSensor.requested s r ≠ s
                  ∧ (RuntimeSensor.isActivate r = true ∨ RuntimeSensor.mEnabled s = true))
       then RuntimeSensor.Callback (RuntimeSensor.current (RuntimeSensor.requested s r))
       else RuntimeSensor.OK).
Proof.
  destruct s as [h e p l]. destruct r as [e'|p' l'|ns]; cbn.
  - unfold RuntimeSensor.activate. cbn.
    destruct (decide (e' ≠ e)) as [Hne|Heq]; cbn.
    + split; [done|]. rewrite decide_True; [done|]. split; [|auto].
      intros [= ?]. done.
    + assert (e' = e) as -> by (destruct (decide (e' = e)); tauto).
      split; [done|]. rewrite decide_False; [done|]. intros [? _]. done.
  - unfold RuntimeSensor.batch. cbn.
    destruct (decide (p ≠ p' ∨ l ≠ l')) as [Hne|Heq]; cbn.
    + destruct e; cbn.
      * split; [done|]. rewrite decide_True; [done|]. split; [|auto].
        intros [= -> ->]. destruct Hne; done.
      * split; [done|]. rewrite decide_False; [done|]. intros [_ [?|?]]; done.
    + assert (p' = p ∧ l' = l) as [-> ->].
      { destruct (decide (p = p')), (decide (l = l')); intuition congruence. }
      split; [done|]. rewrite decide_False; [done|]. intros [? _]. done.
  - unfold RuntimeSensor.setDelay. cbn.
    destruct (decide (p ≠ ns)) as [Hne|Heq]; cbn.
    + destruct e; cbn.
      * split; [done|]. rewrite decide_True; [done|]. split; [|auto].
        intros [= ?]. done.
      * split; [done|]. rewrite decide_False; [done|]. intros [_ [?|?]]; done.
    + assert (ns = p) as -> by (destruct (decide (p = ns)); intuition congruence).
      split; [done|]. rewrite decide_False; [done|]. intros [? _]. done.
Qed.

(** X19.  [setDelay(ns)] does what [batch] does with the period [ns] and
    the latency the sensor has. *)
Theorem setDelay_as_batch (s : RuntimeSensor.state) (ns : Z) :
  RuntimeSensor.setDelay s ns
  = RuntimeSensor.batch s ns (RuntimeSensor.mBatchReportLatencyNs s).
Proof.
  unfold RuntimeSensor.setDelay, RuntimeSensor.batch.
  destruct (decide (RuntimeSensor.mSamplingPeriodNs s ≠ ns)) as [Hne|Heq].
  - rewrite decide_True by auto. done.
  - rewrite decide_False by tauto. done.
Qed.

(** While the sensor is off, a request for a period or a latency is
    stored and not reported. *)
Lemma step_disabled (s : RuntimeSensor.state) (r : RuntimeSensor.request) :
  RuntimeSensor.mEnabled s = false → RuntimeSensor.isActivate r = false →
  RuntimeSensor.step s r = (RuntimeSensor.OK, RuntimeSensor.requested s r)
  ∧ RuntimeSensor.mEnabled (RuntimeSensor.requested s r) = false.
Proof.
  destruct s as [h e p l]. cbn. intros -> Hr. destruct r as [e'|p' l'|ns]; [done| |]; cbn.
  - unfold RuntimeSensor.batch. cbn. split; [|done].
    destruct (decide (p ≠ p' ∨ l ≠ l')) as [Hne|Heq]; [done|].
    assert (p' = p ∧ l' = l) as [-> ->]; [|done].
    destruct (decide (p = p')), (decide (l = l')); intuition congruence.
  - unfold RuntimeSensor.setDelay. cbn. split; [|done].
    destruct (decide (p ≠ ns)) as [Hne|Heq]; [done|].
    assert (ns = p) as -> by (destruct (decide (p = ns)); intuition congruence). done.
Qed.

Lemma run_disabled (rs : list RuntimeSensor.request) (s : RuntimeSensor.state) :
  RuntimeSensor.mEnabled s = false →
  Forall (λ r, RuntimeSensor.isActivate r = false) rs →
  RuntimeSensor.run s rs = ([], fold_left RuntimeSensor.requested rs s)
  ∧ RuntimeSensor.mEnabled (fold_left RuntimeSensor.requested rs s) = false.
Proof.
  intros Hoff Hrs. revert s Hoff. induction Hrs as [|r rs Hr _ IH]; intros s Hoff; [done|].
  cbn [RuntimeSensor.run fold_left].
  destruct (step_disabled s r Hoff Hr) as [-> Hoff'].
  destruct (IH _ Hoff') as [-> Hend]. done.
Qed.

Lemma run_app (rs rs' : list RuntimeSensor.request) (s : RuntimeSensor.state) :
  RuntimeSensor.run s (rs ++ rs')
  = ((RuntimeSensor.run s rs).1 ++ (RuntimeSensor.run (RuntimeSensor.run s rs).2 rs').1,
     (RuntimeSensor.run (RuntimeSensor.run s rs).2 rs').2).
Proof.
  revert s. induction rs as [|r rs IH]; intros s.
  - cbn. by destruct (RuntimeSensor.run s rs').
  - cbn [app RuntimeSensor.run]. destruct (RuntimeSensor.step s r) as [res s1].
    rewrite IH. destruct (RuntimeSensor.run s1 rs) as [cs s2]. cbn.
    by rewrite app_assoc.
Qed.

(** X20.  On a disabled sensor any sequence of [batch] and [setDelay]
    requests invokes no callback; enabling it afterwards invokes the
    callback once, with the period and latency requested last. *)
Theorem configuration_delivered_on_enable (rs : list RuntimeSensor.request)
    (s : RuntimeSensor.state) :
  RuntimeSensor.mEnabled s = false →
  Forall (λ r, RuntimeSensor.isActivate r = false) rs →
  let s' := fold_left RuntimeSensor.requested rs s in
  RuntimeSensor.run s (rs ++ [RuntimeSensor.Activate true])
  = ([RuntimeSensor.Conf (RuntimeSensor.handle s) true
        (RuntimeSensor.mSamplingPeriodNs s') (RuntimeSensor.mBatchReportLatencyNs s')],
     RuntimeSensor.Build (RuntimeSensor.handle s) true
       (RuntimeSensor.mSamplingPeriodNs s') (RuntimeSensor.mBatchReportLatencyNs s')).
Proof.
  intros Hoff Hrs s'. rewrite run_app.
  destruct (run_disabled rs s Hoff Hrs) as [-> Hoff']. cbn [fst snd]. fold s' in Hoff' |- *.
  assert (RuntimeSensor.handle s' = RuntimeSensor.handle s) as Hh.
  { unfold s'. clear. revert s. induction rs as [|r rs IH]; intros s; [done|].
    cbn [fold_left]. rewrite IH. by destruct r. }
  cbn [RuntimeSensor.run RuntimeSensor.step]. unfold RuntimeSensor.activate.
  rewrite Hoff'. rewrite decide_True by done. cbn. by rewrite Hh.
Qed.

(** ** A run of the runtime sensor *)

Lemma configuration_delivered_on_enable_witness :
  RuntimeSensor.run (RuntimeSensor.Build 7 false 0 0)
    [RuntimeSensor.Batch 20 5; RuntimeSensor.SetDelay 10; RuntimeSensor.Activate true]
  = ([RuntimeSensor.Conf 7 true 10 5], RuntimeSensor.Build 7 true 10 5).
Proof.
  apply (configuration_delivered_on_enable
           [RuntimeSensor.Batch 20 5; RuntimeSensor.SetDelay 10]
           (RuntimeSensor.Build 7 false 0 0)).
  - reflexivity.
  - repeat constructor.
Defined.
